(** * The study intake engine: expression evaluator, compute engine,
      answer validator and intake orchestrator

    A shallow embedding of [worker/src/utils/engine.ts] and of the intake
    handlers of [worker/src/handlers/engine.ts].

    The code is TypeScript running on a JavaScript engine, and the values it
    receives are whatever [JSON.parse] produced.  The embedding therefore
    works on untyped JavaScript values: numbers are IEEE 754 doubles
    (Rocq's primitive floats), objects are ordered property lists, a thrown
    exception is an explicit outcome.  Strings are Rocq strings, read as
    sequences of UTF-16 code units below 256. *)

From Stdlib Require Import ZArith Ascii String List Bool Lia.
From Stdlib Require Import Floats.PrimFloat Floats.SpecFloat Floats.FloatOps.
From Stdlib Require Import Floats.FloatAxioms.
From Stdlib Require Uint63.
From stdpp Require Import base option list strings gmap.

Local Open Scope string_scope.
Local Open Scope Z_scope.

(** ** Numbers *)

Module Num.

Definition NaN : float := PrimFloat.nan.
Definition Infinity : float := PrimFloat.infinity.

(** [Number.isFinite] on a value that is already a number. *)
Definition isFinite (x : float) : bool := PrimFloat.is_finite x.
Definition isNaN (x : float) : bool := PrimFloat.is_nan x.

(** The double nearest to an integer (ties to even). *)
Definition of_Z (z : Z) : float :=
  SF2Prim (binary_normalize prec emax z 0 false).

(** The double nearest to the positive ratio [n / d], with the given sign. *)
Definition of_ratio (neg : bool) (n d : positive) : float :=
  let '(q, e, l) := SFdiv_core_binary prec emax (Zpos n) 0 (Zpos d) 0 in
  SF2Prim (binary_round_aux prec emax neg q e l).

(** The double nearest to [m * 10 ^ e] for a non-negative [m]. *)
Definition of_decimal (neg : bool) (m : Z) (e : Z) : float :=
  match m with
  | Zpos p =>
      if (0 <=? e)%Z
      then match (m * 10 ^ e)%Z with
           | Zpos n => of_ratio neg n 1
           | _ => NaN
           end
      else match (10 ^ (- e))%Z with
           | Zpos d => of_ratio neg p d
           | _ => NaN
           end
  | _ => if neg then PrimFloat.neg_zero else PrimFloat.zero
  end.

(** The integer a double denotes, when it denotes one. *)
Definition to_Z (x : float) : option Z :=
  match Prim2SF x with
  | S754_zero _ => Some 0
  | S754_finite s m e =>
      let a := if 0 <=? e then Some (Zpos m * 2 ^ e)
               else if (Zpos m) mod 2 ^ (- e) =? 0
                    then Some (Zpos m / 2 ^ (- e)) else None in
      (if s then Z.opp else id) <$> a
  | _ => None
  end.

Definition signed_zero (s : bool) : float :=
  if s then PrimFloat.neg_zero else PrimFloat.zero.

(** Rounding of a finite non-integral double [(-1)^s * m * 2^e], [e < 0],
    by a rounding of the exact quotient. *)
Definition round_with (pick : Z -> Z -> Z) (x : float) : float :=
  match Prim2SF x with
  | S754_finite s m e =>
      if (0 <=? e)%Z then x
      else
        let z := pick (if s then Zneg m else Zpos m) (2 ^ (- e))%Z in
        if (z =? 0)%Z then signed_zero s else of_Z z
  | _ => x
  end.

(** [Math.floor], [Math.trunc] and [Math.round] (halves go up). *)
Definition floor : float -> float := round_with Z.div.
Definition trunc : float -> float := round_with Z.quot.
Definition round : float -> float :=
  round_with (fun n d => ((2 * n + d) / (2 * d))%Z).

(** The remainder operator [n % d] on doubles: exact, with the sign of the
    dividend. *)
Definition rem (n d : float) : float :=
  match Prim2SF n, Prim2SF d with
  | S754_nan, _ | _, S754_nan => NaN
  | S754_infinity _, _ => NaN
  | _, S754_zero _ => NaN
  | _, S754_infinity _ => n
  | S754_zero _, _ => n
  | S754_finite sn mn en, S754_finite _ md ed =>
      let e0 := Z.min en ed in
      let r := ((Zpos mn * 2 ^ (en - e0)) mod (Zpos md * 2 ^ (ed - e0)))%Z in
      SF2Prim (binary_normalize prec emax (if sn then - r else r)%Z e0 sn)
  end.

End Num.

(** ** Strings *)

Module Str.

Definition code (c : ascii) : Z := Z.of_N (N_of_ascii c).

(** White space and line terminators, as [String.prototype.trim] and the
    numeric-string grammar know them (the code units below 256). *)
Definition is_whitespace (c : ascii) : bool :=
  let n := code c in ((9 <=? n) && (n <=? 13)) || (n =? 32) || (n =? 160).

Definition is_digit (c : ascii) : bool :=
  let n := code c in (48 <=? n) && (n <=? 57).

Fixpoint trimStart_list (l : list ascii) : list ascii :=
  match l with
  | c :: l' => if is_whitespace c then trimStart_list l' else l
  | [] => []
  end.

Definition trim_list (l : list ascii) : list ascii :=
  List.rev (trimStart_list (List.rev (trimStart_list l))).

(** [s.trim()] *)
Definition trim (s : string) : string :=
  string_of_list_ascii (trim_list (list_ascii_of_string s)).

(** [s.split(sep)] for a one-character separator. *)
Fixpoint split_list (sep : ascii) (cur : list ascii) (l : list ascii)
  : list (list ascii) :=
  match l with
  | [] => [List.rev cur]
  | c :: l' =>
      if Ascii.eqb c sep then List.rev cur :: split_list sep [] l'
      else split_list sep (c :: cur) l'
  end.

Definition split (sep : ascii) (s : string) : list string :=
  List.map string_of_list_ascii (split_list sep [] (list_ascii_of_string s)).

(** [s.startsWith(p)] and [s.slice(n)] for [0 <= n]. *)
Definition startsWith (p s : string) : bool := String.prefix p s.
Definition slice_from (n : nat) (s : string) : string :=
  String.substring n (String.length s - n) s.
(** [s.slice(0, n)] *)
Definition slice_to (n : nat) (s : string) : string :=
  String.substring 0 n s.

(** [s.padStart(n, "0")] *)
Definition padStart0 (n : nat) (s : string) : string :=
  string_of_list_ascii (List.repeat "0"%char (n - String.length s)) ++ s.

(** The value of a digit in a base up to 16, if it is one. *)
Definition digit_value (base : Z) (c : ascii) : option Z :=
  let n := code c in
  let v := if (48 <=? n) && (n <=? 57) then n - 48
           else if (97 <=? n) && (n <=? 102) then n - 87
           else if (65 <=? n) && (n <=? 70) then n - 55
           else 16 in
  if v <? base then Some v else None.

(** The value of a non-empty string of digits. *)
Fixpoint digits_value_from (base : Z) (acc : Z) (l : list ascii) : option Z :=
  match l with
  | [] => Some acc
  | c :: l' =>
      match digit_value base c with
      | Some v => digits_value_from base (acc * base + v) l'
      | None => None
      end
  end.

Definition digits_value (base : Z) (l : list ascii) : option Z :=
  match l with
  | [] => None
  | _ => digits_value_from base 0 l
  end.

(** The longest prefix of decimal digits, and the rest. *)
Fixpoint span_digits (l : list ascii) : list ascii * list ascii :=
  match l with
  | c :: l' =>
      if is_digit c
      then let '(ds, rest) := span_digits l' in (c :: ds, rest)
      else ([], l)
  | [] => ([], [])
  end.

(** Decimal digits of a non-negative integer, most significant first. *)
Fixpoint digits_of_fuel (fuel : nat) (z : Z) (acc : list ascii) : list ascii :=
  match fuel with
  | O => acc
  | S fuel' =>
      let acc' := ascii_of_N (Z.to_N (48 + z mod 10)) :: acc in
      if z <? 10 then acc' else digits_of_fuel fuel' (z / 10) acc'
  end.

Definition digits_of_Z (z : Z) : list ascii :=
  digits_of_fuel (S (Z.to_nat (Z.log2 z))) z [].

Definition of_Z (z : Z) : string :=
  if z <? 0 then "-" ++ string_of_list_ascii (digits_of_Z (- z))
  else string_of_list_ascii (digits_of_Z z).

End Str.

(** ** Conversions between numbers and strings *)

Module NumStr.

Import Str.

(** The sign a [StrDecimalLiteral] may start with. *)
Definition take_sign (l : list ascii) : bool * list ascii :=
  match l with
  | "-"%char :: l' => (true, l')
  | "+"%char :: l' => (false, l')
  | _ => (false, l)
  end.

(** The exponent part [e+12], or its absence; [None] when malformed. *)
Definition exponent_part (l : list ascii) : option Z :=
  match l with
  | [] => Some 0
  | c :: l' =>
      if Ascii.eqb c "e" || Ascii.eqb c "E"
      then let '(neg, ds) := take_sign l' in
           (fun v => if neg then - v else v) <$> digits_value 10 ds
      else None
  end.

(** An unsigned [StrUnsignedDecimalLiteral] other than [Infinity], as a
    mantissa and a decimal exponent. *)
Definition unsigned_decimal (l : list ascii) : option (Z * Z) :=
  let '(ip, rest) := span_digits l in
  let '(fp, rest) :=
    match rest with
    | "."%char :: rest' => span_digits rest'
    | _ => ([], rest)
    end in
  match (ip ++ fp)%list with
  | [] => None
  | ds =>
      m ← digits_value 10 ds;
      e ← exponent_part rest;
      Some (m, e - Z.of_nat (List.length fp))
  end.

(** The double a mantissa and decimal exponent denote.  Exponents past the
    range of doubles are cut short before any power is computed. *)
Definition decimal_to_number (neg : bool) (m e : Z) : float :=
  if (m =? 0)%Z then Num.signed_zero neg
  else if (400 <? e)%Z then (if neg then PrimFloat.neg_infinity else Num.Infinity)
  else if (e + Z.of_nat (List.length (digits_of_Z m)) <? -400)%Z
       then Num.signed_zero neg
  else Num.of_decimal neg m e.

Definition non_decimal (l : list ascii) : option float :=
  match l with
  | "0"%char :: c :: ds =>
      let base :=
        if Ascii.eqb c "x" || Ascii.eqb c "X" then Some 16
        else if Ascii.eqb c "o" || Ascii.eqb c "O" then Some 8
        else if Ascii.eqb c "b" || Ascii.eqb c "B" then Some 2
        else None in
      b ← base; Num.of_Z <$> digits_value b ds
  | _ => None
  end.

(** [Number(s)] for a string: the [StringToNumber] of ECMAScript. *)
Definition StringToNumber (s : string) : float :=
  let l := trim_list (list_ascii_of_string s) in
  match l with
  | [] => PrimFloat.zero
  | _ =>
      match non_decimal l with
      | Some x => x
      | None =>
          let '(neg, body) := take_sign l in
          if String.eqb (string_of_list_ascii body) "Infinity"
          then (if neg then PrimFloat.neg_infinity else Num.Infinity)
          else match unsigned_decimal body with
               | Some (m, e) => decimal_to_number neg m e
               | None => Num.NaN
               end
      end
  end.

(** The decimal exponent [n] of a positive rational [a / b]:
    [10^(n-1) <= a / b < 10^n]. *)
Fixpoint exponent_up (fuel : nat) (a b : Z) (n : Z) : Z :=
  match fuel with
  | O => n
  | S fuel' => if a <? b then n else exponent_up fuel' a (b * 10) (n + 1)
  end.

Fixpoint exponent_down (fuel : nat) (a b : Z) (n : Z) : Z :=
  match fuel with
  | O => n
  | S fuel' => if b <=? a * 10 then n else exponent_down fuel' (a * 10) b (n - 1)
  end.

Definition decimal_exponent (a b : Z) : Z :=
  if b <=? a then exponent_up 400 a b 0 else exponent_down 400 a b 0.

(** The [k]-digit decimals next to [a / b * 10^(k-n)] that denote [x],
    nearest first. *)
Definition candidates (x : float) (a b n : Z) (k : Z) : list (Z * Z) :=
  let '(a', b') := if 0 <=? k - n then (a * 10 ^ (k - n), b)
                   else (a, b * 10 ^ (n - k)) in
  let lo := a' / b' in
  let hi := lo + 1 in
  let ok c := PrimFloat.eqb (Num.of_decimal false c (n - k)) x in
  let norm c := if c =? 10 ^ k then (10 ^ (k - 1), n + 1) else (c, n) in
  let dlo := a' - lo * b' in
  let dhi := hi * b' - a' in
  let lo_first := (dlo <? dhi) || ((dlo =? dhi) && Z.even lo) in
  let cs := if lo_first then [lo; hi] else [hi; lo] in
  List.map norm (List.filter (fun c => (0 <? c) && ok c) cs).

Fixpoint shortest (fuel : nat) (x : float) (a b n : Z) (k : Z) : Z * Z * Z :=
  match fuel with
  | O => (0, n, k)
  | S fuel' =>
      match candidates x a b n k with
      | (s, n') :: _ => (s, n', k)
      | [] => shortest fuel' x a b n (k + 1)
      end
  end.

Definition zeros (n : Z) : string :=
  string_of_list_ascii (List.repeat "0"%char (Z.to_nat n)).

(** [Number::toString] in base 10 for a positive finite double. *)
Definition positive_to_string (x : float) : string :=
  match Prim2SF x with
  | S754_finite _ m e =>
      let '(a, b) := if 0 <=? e then (Zpos m * 2 ^ e, 1)
                     else (Zpos m, 2 ^ (- e)) in
      let '(s, n, k) := shortest 17 x a b (decimal_exponent a b) 1 in
      let ds := string_of_list_ascii (digits_of_Z s) in
      if (k <=? n) && (n <=? 21) then ds ++ zeros (n - k)
      else if (0 <? n) && (n <=? 21)
           then slice_to (Z.to_nat n) ds ++ "." ++ slice_from (Z.to_nat n) ds
      else if (-6 <? n) && (n <=? 0) then "0." ++ zeros (- n) ++ ds
      else
        let ex := (if 0 <? n - 1 then "+" else "-") ++ Str.of_Z (Z.abs (n - 1)) in
        if k =? 1 then ds ++ "e" ++ ex
        else slice_to 1 ds ++ "." ++ slice_from 1 ds ++ "e" ++ ex
  | _ => ""
  end.

(** [String(x)] for a number. *)
Definition NumberToString (x : float) : string :=
  match Prim2SF x with
  | S754_nan => "NaN"
  | S754_zero _ => "0"
  | S754_infinity s => if s then "-Infinity" else "Infinity"
  | S754_finite s _ _ =>
      if s then "-" ++ positive_to_string (PrimFloat.opp x)
      else positive_to_string x
  end.

End NumStr.

(** ** Values, exceptions and the runtime *)

(** The prototype objects whose properties ordinary data inherits. *)
Inductive proto :=
| ObjectPrototype | ArrayPrototype | DatePrototype
| StringPrototype | NumberPrototype | BooleanPrototype.

(** A JavaScript value.  [VBuiltin] is an object owned by the runtime (a
    prototype object or one of its methods), known only by its name. *)
Inductive value :=
| VUndefined
| VNull
| VBool (b : bool)
| VNumber (x : float)
| VString (s : string)
| VArray (items : list value)
| VObject (props : list (string * value))
| VDate (time : float)
| VBuiltin (id : string).

(** What a [throw] carries.  [Error] is the engine's own [new Error(message)];
    the others are raised by the language or a library, and their wording is
    the runtime's. *)
Inductive exn :=
| Error (message : string)
| TypeError (what : string)
| RangeError (what : string)
| SyntaxError (what : string)
| ZodError (what : string).

Inductive outcome (A : Type) :=
| Normal (a : A)
| Throw (e : exn).
Arguments Normal {A} a.
Arguments Throw {A} e.

#[global] Instance outcome_ret : MRet outcome := @Normal.
#[global] Instance outcome_bind : MBind outcome := fun A B f m =>
  match m with
  | Normal a => f a
  | Throw e => Throw e
  end.
#[global] Instance outcome_fmap : FMap outcome := fun A B f m =>
  match m with
  | Normal a => Normal (f a)
  | Throw e => Throw e
  end.

(** ** The schemas [buildFieldSchema] hands to the validation library *)

Inductive regexp :=
| TIME_REGEX
| UserRegExp (source : string).

Inductive refinement :=
| DateParses
| OptionsInclude (options : list value)
| OptionsIncludeEvery (options : list value).

Inductive ZodCheck :=
| ZMin (n : float)
| ZMax (n : float)
| ZRegex (r : regexp) (message : option string)
| ZRefine (p : refinement) (message : string).

Inductive ZodBase :=
| ZCoerceNumber (invalid_type_error : string)
| ZBoolean (invalid_type_error : string)
| ZString
| ZArrayOfString.

Record ZodSchema := { zbase : ZodBase; zchecks : list ZodCheck }.

(** What the engine takes from its environment: the parts of the language
    runtime that ECMAScript leaves to the implementation or that depend on
    objects the engine does not own, and the validation library. *)
Record Runtime := {
  (** [Date.parse(s)]: epoch milliseconds, [NaN] when [s] is not a date. *)
  Date_parse : string -> float;
  (** [getHours()] and [getMinutes()] of a valid time value, in local time. *)
  Date_getHours : float -> float;
  Date_getMinutes : float -> float;
  (** [JSON.parse(s)], [None] when it throws. *)
  JSON_parse : string -> option value;
  (** The builtin a property name resolves to through the prototype chain
      that starts at the given prototype. *)
  inherited : proto -> string -> option string;
  (** The properties of a builtin object, and whether it is callable. *)
  builtin_prop : string -> string -> option string;
  builtin_callable : string -> bool;
  (** [Number(v)] and [String(v)] for an array, an object or a builtin;
      [None] when the conversion throws its [TypeError]. *)
  ObjectToNumber : value -> option float;
  ObjectToString : value -> option string;
  (** [a === b] for two objects: whether they are one object. *)
  same_reference : value -> value -> bool;
  (** Whether [new RegExp(source)] succeeds. *)
  RegExp_compiles : string -> bool;
  (** [schema.safeParse(v)]: the messages of the issues found, in order. *)
  safeParse : ZodSchema -> value -> list string;
}.

Module JS.

Section WithRuntime.
Context (rt : Runtime).

Definition typeof (v : value) : string :=
  match v with
  | VUndefined => "undefined"
  | VBool _ => "boolean"
  | VNumber _ => "number"
  | VString _ => "string"
  | VBuiltin b => if builtin_callable rt b then "function" else "object"
  | VNull | VArray _ | VObject _ | VDate _ => "object"
  end.

(** [Boolean(v)], the test of [if (v)] and [v && ...]. *)
Definition truthy (v : value) : bool :=
  match v with
  | VUndefined | VNull => false
  | VBool b => b
  | VNumber x => negb (PrimFloat.eqb x PrimFloat.zero || Num.isNaN x)
  | VString s => negb (String.eqb s "")
  | _ => true
  end.

(** [a ?? b] *)
Definition nullish (a b : value) : value :=
  match a with
  | VUndefined | VNull => b
  | _ => a
  end.

Definition is_object (v : value) : bool :=
  match v with
  | VArray _ | VObject _ | VDate _ | VBuiltin _ => true
  | _ => false
  end.

(** [a === b] *)
Definition strict_equal (a b : value) : bool :=
  match a, b with
  | VUndefined, VUndefined | VNull, VNull => true
  | VBool x, VBool y => Bool.eqb x y
  | VNumber x, VNumber y => PrimFloat.eqb x y
  | VString s, VString t => String.eqb s t
  | VBuiltin x, VBuiltin y => String.eqb x y
  | _, _ => is_object a && is_object b && same_reference rt a b
  end.

(** An array index in canonical form. *)
Definition array_index (k : string) : option nat :=
  n ← Str.digits_value 10 (list_ascii_of_string k);
  if String.eqb (Str.of_Z n) k && (n <? 2 ^ 32 - 1) then Some (Z.to_nat n)
  else None.

Fixpoint assoc (k : string) (props : list (string * value)) : option value :=
  match props with
  | [] => None
  | (k', v) :: props' => if String.eqb k k' then Some v else assoc k props'
  end.

(** [o[k] = v] on a property list. *)
Fixpoint assoc_set (k : string) (v : value) (props : list (string * value))
  : list (string * value) :=
  match props with
  | [] => [(k, v)]
  | (k', v') :: props' =>
      if String.eqb k k' then (k, v) :: props'
      else (k', v') :: assoc_set k v props'
  end.

Definition get_own (v : value) (k : string) : option value :=
  match v with
  | VObject props => assoc k props
  | VArray items =>
      if String.eqb k "length" then Some (VNumber (Num.of_Z (Z.of_nat (List.length items))))
      else i ← array_index k; items !! i
  | VString s =>
      if String.eqb k "length" then Some (VNumber (Num.of_Z (Z.of_nat (String.length s))))
      else i ← array_index k; (fun c => VString (String c "")) <$> String.get i s
  | _ => None
  end.

Definition proto_of (v : value) : option proto :=
  match v with
  | VObject _ => Some ObjectPrototype
  | VArray _ => Some ArrayPrototype
  | VDate _ => Some DatePrototype
  | VString _ => Some StringPrototype
  | VNumber _ => Some NumberPrototype
  | VBool _ => Some BooleanPrototype
  | _ => None
  end.

Definition get_inherited (v : value) (k : string) : option value :=
  match v with
  | VBuiltin b => VBuiltin <$> builtin_prop rt b k
  | _ => p ← proto_of v; VBuiltin <$> inherited rt p k
  end.

(** The property [k] of an object [v]: an own property, else an inherited
    one, else [undefined]. *)
Definition lookup (v : value) (k : string) : value :=
  match get_own v k with
  | Some x => x
  | None => default VUndefined (get_inherited v k)
  end.

(** [v[k]] *)
Definition get (v : value) (k : string) : outcome value :=
  match v with
  | VUndefined | VNull => Throw (TypeError "property read on undefined or null")
  | _ => Normal (lookup v k)
  end.

(** [v?.[k]] *)
Definition get_optional (v : value) (k : string) : value :=
  match v with
  | VUndefined | VNull => VUndefined
  | _ => lookup v k
  end.

(** Whether an object [v] has the property [k], own or inherited. *)
Definition has (k : string) (v : value) : bool :=
  bool_decide (is_Some (get_own v k)) || bool_decide (is_Some (get_inherited v k)).

(** [k in v] *)
Definition has_property (k : string) (v : value) : outcome bool :=
  if is_object v then Normal (has k v)
  else Throw (TypeError "right-hand side of 'in' is not an object").

(** A conversion that throws when the runtime has no primitive to give. *)
Definition converted {A} (o : option A) : outcome A :=
  match o with
  | Some a => Normal a
  | None => Throw (TypeError "Cannot convert object to primitive value")
  end.

(** [Number(v)] *)
Definition ToNumber (v : value) : outcome float :=
  match v with
  | VUndefined => Normal Num.NaN
  | VNull => Normal PrimFloat.zero
  | VBool b => Normal (if b then PrimFloat.one else PrimFloat.zero)
  | VNumber x => Normal x
  | VString s => Normal (NumStr.StringToNumber s)
  | VDate t => Normal t
  | _ => converted (ObjectToNumber rt v)
  end.

(** [String(v)] *)
Definition ToString (v : value) : outcome string :=
  match v with
  | VUndefined => Normal "undefined"
  | VNull => Normal "null"
  | VBool b => Normal (if b then "true" else "false")
  | VNumber x => Normal (NumStr.NumberToString x)
  | VString s => Normal s
  | _ => converted (ObjectToString rt v)
  end.

End WithRuntime.

(** The nesting depth of a value. *)
Fixpoint depth (v : value) : nat :=
  match v with
  | VArray items => S (list_max (List.map depth items))
  | VObject props => S (list_max (List.map (fun p => depth (snd p)) props))
  | _ => O
  end.

End JS.

(** * [worker/src/utils/engine.ts] *)

(** [EvaluationContext]: three records keyed by strings. *)
Record EvaluationContext := {
  answers : list (string * value);
  computed : list (string * value);
  metadata : list (string * value);
}.

Record ComputeDefinition := {
  cd_key : string;
  cd_type : string;
  definition : value;
}.

Record FormFieldDefinition := {
  key : string;
  type : string;
  required : value;
  options_json : value;
  validation_json : value;
}.

Record ValidationIssue := { issue_key : string; message : string }.

(** What [toComparable] returns besides [null]. *)
Inductive comparable :=
| CNumber (x : float)
| CString (s : string).

Module Engine.

Import JS.

(** [TIME_REGEX = /^\d{1,2}:\d{2}(:\d{2})?$/] *)
Definition TIME_REGEX_test (s : string) : bool :=
  let two l := match l with
               | a :: b :: l' => if Str.is_digit a && Str.is_digit b then Some l' else None
               | _ => None
               end in
  let tail l := match l with
                | ":"%char :: l' =>
                    match two l' with
                    | Some [] => true
                    | Some (":"%char :: l'') =>
                        match two l'' with Some [] => true | _ => false end
                    | _ => false
                    end
                | _ => false
                end in
  match list_ascii_of_string s with
  | a :: l =>
      Str.is_digit a &&
      match l with
      | b :: l' => if Str.is_digit b then tail l' else tail l
      | [] => false
      end
  | [] => false
  end.

Section WithRuntime.
Context (rt : Runtime).

(** ** Path resolver *)

Definition resolvePath (target : value) (path : list string) : outcome value :=
  foldl (fun (acc : outcome value) (segment : string) =>
           current ← acc;
           if truthy current && String.eqb (typeof rt current) "object"
           then
             found ← has_property rt segment current;
             if (found : bool) then get rt current segment
             else Normal VUndefined
           else Normal VUndefined)
        (Normal target) path.

Definition resolveScope (scope : list (string * value)) (pathParts : list string)
  : outcome value :=
  match pathParts with
  | [] => Normal (VObject scope)
  | _ => resolvePath (VObject scope) pathParts
  end.

Definition resolveVariable (variable : string) (context : EvaluationContext)
  : outcome value :=
  match Str.split "."%char variable with
  | scope :: pathParts =>
      if String.eqb scope "answers" then resolveScope (answers context) pathParts
      else if String.eqb scope "computed" then resolveScope (computed context) pathParts
      else if String.eqb scope "metadata" then resolveScope (metadata context) pathParts
      else Normal VUndefined
  | [] => Normal VUndefined
  end.

(** A method of strings called on a value that may be no string. *)
Definition as_string (v : value) : outcome string :=
  match v with
  | VString s => Normal s
  | _ => Throw (TypeError "not a function: a string method on a non-string")
  end.

(** A method of arrays called on a value that may be no array. *)
Definition as_array (v : value) : outcome (list value) :=
  match v with
  | VArray items => Normal items
  | _ => Throw (TypeError "not a function: an array method on a non-array")
  end.

Definition resolveOperand (operand : value) (context : EvaluationContext)
  : outcome value :=
  match operand with
  | VUndefined => Normal VUndefined
  | _ =>
      if String.eqb (typeof rt operand) "object" && negb (strict_equal rt operand VNull)
      then
        hasVar ← has_property rt "var" operand;
        if (hasVar : bool)
        then v ← get rt operand "var"; variable ← as_string v;
             resolveVariable variable context
        else
          hasValue ← has_property rt "value" operand;
          if (hasValue : bool) then get rt operand "value"
          else Normal operand
      else Normal operand
  end.

(** ** Comparison *)

Definition toComparable (v : value) : option comparable :=
  match v with
  | VNumber x => if Num.isFinite x then Some (CNumber x) else None
  | VString s =>
      let trimmed := Str.trim s in
      if (String.length trimmed =? 0)%nat then None
      else
        let numeric := NumStr.StringToNumber trimmed in
        if Num.isFinite numeric then Some (CNumber numeric)
        else
          let dateValue := Date_parse rt trimmed in
          if negb (Num.isNaN dateValue) then Some (CNumber dateValue)
          else Some (CString trimmed)
  | VDate t => if negb (Num.isNaN t) then Some (CNumber t) else None
  | _ => None
  end.

(** The relational comparison of JavaScript on numbers and strings:
    [Some b] for [a < b], [None] when the operands cannot be ordered. *)
Definition less_than (a b : comparable) : option bool :=
  match a, b with
  | CString s, CString t => Some (String.ltb s t)
  | _, _ =>
      let num c := match c with
                   | CNumber x => x
                   | CString s => NumStr.StringToNumber s
                   end in
      if Num.isNaN (num a) || Num.isNaN (num b) then None
      else Some (PrimFloat.ltb (num a) (num b))
  end.

Definition js_lt (a b : comparable) : bool := bool_decide (less_than a b = Some true).
Definition js_gt (a b : comparable) : bool := bool_decide (less_than b a = Some true).
Definition js_le (a b : comparable) : bool := bool_decide (less_than b a = Some false).
Definition js_ge (a b : comparable) : bool := bool_decide (less_than a b = Some false).

Definition hasValue (v : value) : bool :=
  match v with
  | VNull | VUndefined => false
  | VString s => (0 <? String.length (Str.trim s))%nat
  | VArray items => (0 <? List.length items)%nat
  | _ => true
  end.

(** ** Expression evaluator *)

(** [items.every(f)] and [items.some(f)] for a callback that may throw. *)
Fixpoint every {A} (f : A -> outcome bool) (items : list A) : outcome bool :=
  match items with
  | [] => Normal true
  | x :: items' => b ← f x; if (b : bool) then every f items' else Normal false
  end.

Fixpoint some {A} (f : A -> outcome bool) (items : list A) : outcome bool :=
  match items with
  | [] => Normal false
  | x :: items' => b ← f x; if (b : bool) then Normal true else some f items'
  end.

Definition op_is (op : value) (name : string) : bool :=
  strict_equal rt op (VString name).

(** The body of [evaluateExpression]; [fuel] bounds the nesting of calls. *)
Fixpoint evaluateExpression_fuel (fuel : nat) (expression : value)
    (context : EvaluationContext) : outcome bool :=
  match fuel with
  | O => Throw (RangeError "Maximum call stack size exceeded")
  | S fuel' =>
      hasAll ← has_property rt "all" expression;
      if (hasAll : bool) then
        children ← (get rt expression "all" ≫= as_array);
        every (fun child => evaluateExpression_fuel fuel' child context) children
      else
      hasAny ← has_property rt "any" expression;
      if (hasAny : bool) then
        children ← (get rt expression "any" ≫= as_array);
        some (fun child => evaluateExpression_fuel fuel' child context) children
      else
      hasNot ← has_property rt "not" expression;
      if (hasNot : bool) then
        child ← get rt expression "not";
        negb <$> evaluateExpression_fuel fuel' child context
      else
      left ← get rt expression "left";
      value ← get rt expression "value";
      right ← get rt expression "right";
      op ← get rt expression "op";
      leftValue ← resolveOperand (nullish left value) context;
      rightValue ← resolveOperand right context;
      if op_is op "exists" then Normal (hasValue leftValue)
      else if op_is op "==" then Normal (strict_equal rt leftValue rightValue)
      else if op_is op "!=" then Normal (negb (strict_equal rt leftValue rightValue))
      else if op_is op ">" || op_is op ">=" || op_is op "<" || op_is op "<=" then
        match toComparable leftValue, toComparable rightValue with
        | Some leftComparable, Some rightComparable =>
            if op_is op ">" then Normal (js_gt leftComparable rightComparable)
            else if op_is op ">=" then Normal (js_ge leftComparable rightComparable)
            else if op_is op "<" then Normal (js_lt leftComparable rightComparable)
            else Normal (js_le leftComparable rightComparable)
        | _, _ => Normal false
        end
      else if op_is op "in" || op_is op "not_in" then
        let list := match rightValue with VArray items => items | _ => [] end in
        let found := existsb (fun item => strict_equal rt item leftValue) list in
        Normal (if op_is op "in" then found else negb found)
      else if op_is op "between" then
        min ← get rt expression "min";
        max ← get rt expression "max";
        minValue ← resolveOperand min context;
        maxValue ← resolveOperand max context;
        match toComparable leftValue, toComparable minValue, toComparable maxValue with
        | Some comparable, Some minComparable, Some maxComparable =>
            Normal (js_ge comparable minComparable && js_le comparable maxComparable)
        | _, _, _ => Normal false
        end
      else Normal false
  end.

(** [evaluateExpression]: the nesting of its calls is bounded by the depth
    of the expression. *)
Definition evaluateExpression (expression : value) (context : EvaluationContext)
  : outcome bool :=
  evaluateExpression_fuel (S (depth expression)) expression context.

(** ** Compute helpers *)

Definition parseOptionalJson (v : value) : value :=
  match v with
  | VNull | VUndefined => VUndefined
  | VString s => default VUndefined (JSON_parse rt s)
  | _ => v
  end.

(** The last case of [parseTimeToMinutes]: an object with a [minutes]
    property. *)
Definition minutesProperty (v : value) : outcome (option float) :=
  if truthy v && String.eqb (typeof rt v) "object" then
    found ← has_property rt "minutes" v;
    if (found : bool) then
      minutes ← get rt v "minutes";
      match minutes with
      | VNumber x => Normal (if Num.isFinite x then Some x else None)
      | _ => Normal None
      end
    else Normal None
  else Normal None.

Definition parseTimeToMinutes (v : value) : outcome (option float) :=
  match v with
  | VNumber x => if Num.isFinite x then Normal (Some x) else minutesProperty v
  | VDate t =>
      if negb (Num.isNaN t)
      then Normal (Some (Date_getHours rt t * 60 + Date_getMinutes rt t)%float)
      else minutesProperty v
  | VString s =>
      let trimmed := Str.trim s in
      if negb (TIME_REGEX_test trimmed) then Normal None
      else
        let parts := List.map NumStr.StringToNumber (Str.split ":"%char trimmed) in
        let hours := nth 0 parts Num.NaN in
        let minutes := nth 1 parts Num.NaN in
        let seconds := nth 2 parts Num.NaN in
        if negb (Num.isFinite hours) || negb (Num.isFinite minutes) then Normal None
        else
          let total := (hours * 60 + minutes
                        + (if Num.isFinite seconds then seconds / 60 else 0))%float in
          Normal (Some total)
  | _ => minutesProperty v
  end.

Definition formatMinutes (minutes : float) : string :=
  let normalized := Num.rem (Num.rem minutes (24 * 60) + 24 * 60) (24 * 60) in
  let hours := Num.floor (normalized / 60) in
  let mins := Num.round (Num.rem normalized 60) in
  Str.padStart0 2 (NumStr.NumberToString hours) ++ ":"
    ++ Str.padStart0 2 (NumStr.NumberToString mins).

Definition normalizeTime (v : value) : outcome (option string) :=
  minutes ← parseTimeToMinutes v;
  match minutes with
  | None => Normal None
  | Some minutes => Normal (Some (formatMinutes minutes))
  end.

Definition midpointTime (start end_ : value) : outcome (option string) :=
  startMinutes ← parseTimeToMinutes start;
  endMinutes ← parseTimeToMinutes end_;
  match startMinutes, endMinutes with
  | Some startMinutes, Some endMinutes =>
      let diff := (endMinutes - startMinutes)%float in
      let normalizedDiff := if (diff <? 0)%float then (diff + 24 * 60)%float else diff in
      let midpoint := Num.rem (startMinutes + normalizedDiff / 2) (24 * 60) in
      Normal (Some (formatMinutes midpoint))
  | _, _ => Normal None
  end.

Definition durationMinutes (start end_ : value) : outcome (option float) :=
  startMinutes ← parseTimeToMinutes start;
  endMinutes ← parseTimeToMinutes end_;
  match startMinutes, endMinutes with
  | Some startMinutes, Some endMinutes =>
      let diff := (endMinutes - startMinutes)%float in
      Normal (Some (if (diff <? 0)%float then (diff + 24 * 60)%float else diff))
  | _, _ => Normal None
  end.

(** *** Calendar arithmetic for [add_days] *)

Definition msPerDay : Z := 86400000.

(** Days since the epoch of a proleptic Gregorian date, and back. *)
Definition days_from_civil (y m d : Z) : Z :=
  let y' := if m <=? 2 then y - 1 else y in
  let era := y' / 400 in
  let yoe := y' - era * 400 in
  let doy := (153 * (if 2 <? m then m - 3 else m + 9) + 2) / 5 + d - 1 in
  let doe := yoe * 365 + yoe / 4 - yoe / 100 + doy in
  era * 146097 + doe - 719468.

Definition civil_from_days (z : Z) : Z * Z * Z :=
  let z := z + 719468 in
  let era := z / 146097 in
  let doe := z - era * 146097 in
  let yoe := (doe - doe / 1460 + doe / 36524 - doe / 146096) / 365 in
  let doy := doe - (365 * yoe + yoe / 4 - yoe / 100) in
  let mp := (5 * doy + 2) / 153 in
  let d := doy - (153 * mp + 2) / 5 + 1 in
  let m := if mp <? 10 then mp + 3 else mp - 9 in
  ((if m <=? 2 then yoe + era * 400 + 1 else yoe + era * 400), m, d).

(** [TimeClip]: the time value a [Date] keeps, [None] for an invalid date. *)
Definition TimeClip (t : float) : option Z :=
  if Num.isFinite t && (PrimFloat.abs t <=? 8.64e15)%float
  then Num.to_Z (Num.trunc t) else None.

(** The first ten characters of [toISOString()] for a day number. *)
Definition isoDatePrefix (day : Z) : string :=
  let '(y, m, d) := civil_from_days day in
  let two n := Str.padStart0 2 (Str.of_Z n) in
  let full :=
    if (0 <=? y) && (y <=? 9999)
    then Str.padStart0 4 (Str.of_Z y) ++ "-" ++ two m ++ "-" ++ two d
    else (if y <? 0 then "-" else "+") ++ Str.padStart0 6 (Str.of_Z (Z.abs y))
           ++ "-" ++ two m ++ "-" ++ two d in
  Str.slice_to 10 full.

Definition addDaysToDate (dateValue daysValue : value) : outcome value :=
  match daysValue with
  | VNumber days =>
      if negb (Num.isFinite days) then Normal VNull
      else
        match dateValue with
        | VString s =>
            match TimeClip (Date_parse rt s) with
            | None => Normal VNull
            | Some parsed =>
                (* [Date.UTC] of the date's own year, month and day; a year
                   from 0 to 99 is read as 1900 + year *)
                let '(y, m, d) := civil_from_days (parsed / msPerDay) in
                let y := if (0 <=? y) && (y <=? 99) then 1900 + y else y in
                let day := days_from_civil y m d in
                (* [setUTCDate(getUTCDate() + Math.trunc(daysValue))] *)
                let day' := day + default 0 (Num.to_Z (Num.trunc days)) in
                if Z.abs (day' * msPerDay) <=? 8640000000000000
                then Normal (VString (isoDatePrefix day'))
                else Throw (RangeError "Invalid time value")
            end
        | _ => Normal VNull
        end
  | _ => Normal VNull
  end.

(** *** Arithmetic *)

(** [values.map(f)] for a callback that may throw. *)
Fixpoint mapM {A B} (f : A -> outcome B) (items : list A) : outcome (list B) :=
  match items with
  | [] => Normal []
  | x :: items' => y ← f x; ys ← mapM f items'; Normal (y :: ys)
  end.

Definition applyArithmetic (op : value) (values : list value) : outcome value :=
  numericValues ← mapM (fun v =>
    match v with
    | VNumber x => if Num.isFinite x then Normal x else ToNumber rt v
    | _ => ToNumber rt v
    end) values;
  if existsb (fun x => negb (Num.isFinite x)) numericValues then Normal VNull
  else if op_is op "add" then
    Normal (VNumber (foldl (fun sum x => sum + x)%float 0%float numericValues))
  else if op_is op "subtract" then
    Normal (VNumber (foldl (fun acc current => acc - current)%float
                           (List.hd 0%float numericValues) (List.tl numericValues)))
  else if op_is op "multiply" then
    Normal (VNumber (foldl (fun product x => product * x)%float 1%float numericValues))
  else
    match numericValues with
    | [] => Normal VNull
    | first :: rest =>
        Normal (VNumber (foldl (fun acc current => acc / current)%float first rest))
    end.

(** ** Compute engine *)

(** What [computeDefinitions] keeps while it runs: the record of computed
    values, which every context it hands out aliases, and the keys whose
    evaluation is under way. *)
Record ComputeState := {
  computedValues : list (string * value);
  visiting : gset string;
}.

(** A computation that reads and writes that state and may throw. *)
Definition compute (A : Type) : Type := ComputeState -> outcome (A * ComputeState).

Definition cret {A} (a : A) : compute A := fun st => Normal (a, st).
Definition cbind {A B} (m : compute A) (f : A -> compute B) : compute B :=
  fun st => match m st with
            | Normal (a, st') => f a st'
            | Throw e => Throw e
            end.
Definition lift {A} (o : outcome A) : compute A :=
  fun st => match o with
            | Normal a => Normal (a, st)
            | Throw e => Throw e
            end.

Notation "x <- m ;; k" := (cbind m (fun x => k))
  (at level 100, m at next level, right associativity).

(** [items.map(f)] for a callback in [compute]. *)
Fixpoint cmap {A B} (f : A -> compute B) (items : list A) : compute (list B) :=
  match items with
  | [] => cret []
  | x :: items' => y <- f x ;; ys <- cmap f items' ;; cret (y :: ys)
  end.

(** The context [resolveComputed] builds: [{ ...context, computed:
    computedValues }], read when the variable is resolved. *)
Definition liveContext (context : EvaluationContext) : compute EvaluationContext :=
  fun st => Normal ({| answers := answers context;
                       computed := computedValues st;
                       metadata := metadata context |}, st).

(** [args[i]] *)
Definition arg (i : nat) (args : list value) : value := nth i args VUndefined.

Definition nullable {A} (inj : A -> value) (o : option A) : value :=
  match o with
  | Some a => inj a
  | None => VNull
  end.

Fixpoint evaluateComputeExpression_fuel (fuel : nat) (expression : value)
    (context : EvaluationContext) (resolveComputed : string -> compute value)
  : compute value :=
  match fuel with
  | O => lift (Throw (RangeError "Maximum call stack size exceeded"))
  | S fuel' =>
      let evaluateArgs :=
        args <- lift (get rt expression "args" ≫= as_array) ;;
        cmap (fun arg =>
                evaluateComputeExpression_fuel fuel' arg context resolveComputed)
             args in
      if strict_equal rt expression VNull
         || negb (String.eqb (typeof rt expression) "object")
      then cret expression
      else
      hasVar <- lift (has_property rt "var" expression) ;;
      if (hasVar : bool) then
        var <- lift (get rt expression "var" ≫= as_string) ;;
        live <- liveContext context ;;
        value <- lift (resolveVariable var live) ;;
        if Str.startsWith "computed." var && strict_equal rt value VUndefined
        then resolveComputed (Str.slice_from (String.length "computed.") var)
        else cret value
      else
      hasValue <- lift (has_property rt "value" expression) ;;
      if (hasValue : bool) then lift (get rt expression "value")
      else
      (* the rest of the function, after the [func] block *)
      let afterFunc :=
        hasOp <- lift (has_property rt "op" expression) ;;
        if (hasOp : bool) then
          args <- evaluateArgs ;;
          op <- lift (get rt expression "op") ;;
          lift (applyArithmetic op args)
        else cret expression in
      hasFunc <- lift (has_property rt "func" expression) ;;
      if (hasFunc : bool) then
        args <- evaluateArgs ;;
        func <- lift (get rt expression "func") ;;
        if op_is func "normalize_time" then
          lift (nullable VString <$> normalizeTime (arg 0 args))
        else if op_is func "midpoint" then
          lift (nullable VString <$> midpointTime (arg 0 args) (arg 1 args))
        else if op_is func "duration" then
          lift (nullable VNumber <$> durationMinutes (arg 0 args) (arg 1 args))
        else if op_is func "add_days" then
          lift (addDaysToDate (arg 0 args) (arg 1 args))
        else afterFunc
      else afterFunc
  end.

Definition evaluateComputeExpression (expression : value)
    (context : EvaluationContext) (resolveComputed : string -> compute value)
  : compute value :=
  evaluateComputeExpression_fuel (S (depth expression)) expression context
    resolveComputed.

(** [definitionMap]: the last definition of a key is the one kept. *)
Definition definitionMap (definitions : list ComputeDefinition)
  : gmap string ComputeDefinition :=
  foldl (fun m d => <[cd_key d := d]> m) ∅ definitions.

Section Resolve.
Context (definitions : list ComputeDefinition) (context : EvaluationContext).

(** [resolveComputed]; [fuel] bounds the nesting of its calls. *)
Fixpoint resolveComputed_fuel (fuel : nat) (key : string) : compute value :=
  match fuel with
  | O => lift (Throw (RangeError "Maximum call stack size exceeded"))
  | S fuel' => fun st =>
      found ← has_property rt key (VObject (computedValues st));
      if (found : bool) then
        v ← get rt (VObject (computedValues st)) key; Normal (v, st)
      else
        match definitionMap definitions !! key with
        | None => Normal (VUndefined, st)
        | Some definition_ =>
            if bool_decide (key ∈ visiting st)
            then Throw (Error ("Circular compute dependency detected for " ++ key))
            else
              r ← evaluateComputeExpression (definition definition_) context
                    (resolveComputed_fuel fuel')
                    {| computedValues := computedValues st;
                       visiting := {[key]} ∪ visiting st |};
              let '(value, st') := r in
              Normal (value,
                      {| computedValues := assoc_set key value (computedValues st');
                         visiting := visiting st' ∖ {[key]} |})
        end
  end.

(** Nested [resolveComputed] calls are about distinct keys of
    [definitionMap]. *)
Definition resolveComputed : string -> compute value :=
  resolveComputed_fuel (S (size (definitionMap definitions))).

(** [definitions.forEach(f)] *)
Fixpoint forEach {A} (f : A -> compute value) (items : list A) : compute unit :=
  match items with
  | [] => cret tt
  | x :: items' => _ <- f x ;; forEach f items'
  end.

Definition computeDefinitions : outcome (list (string * value)) :=
  r ← forEach (fun d => resolveComputed (cd_key d)) definitions
        {| computedValues := computed context; visiting := ∅ |};
  Normal (computedValues (snd r)).

End Resolve.

(** ** Answer validator *)

(** [s.toLowerCase()] on code units below 256. *)
Definition toLowerCase (s : string) : string :=
  string_of_list_ascii
    (List.map (fun c =>
       let n := Str.code c in
       if ((65 <=? n) && (n <=? 90))
          || ((192 <=? n) && (n <=? 222) && negb (n =? 215))
       then ascii_of_N (Z.to_N (n + 32)) else c)
     (list_ascii_of_string s)).

(** [typeof v === 'number' ? [check v] : []] *)
Definition whenNumber (v : value) (check : float -> ZodCheck) : list ZodCheck :=
  match v with
  | VNumber n => [check n]
  | _ => []
  end.

Definition buildFieldSchema (field : FormFieldDefinition) (options : value)
    (validation : value) : ZodSchema :=
  let type := toLowerCase (type field) in
  let schema :=
    if String.eqb type "number" then
      {| zbase := ZCoerceNumber "Expected a number";
         zchecks := whenNumber (get_optional rt validation "min") ZMin
                    ++ whenNumber (get_optional rt validation "max") ZMax |}
    else if String.eqb type "boolean" then
      {| zbase := ZBoolean "Expected a boolean"; zchecks := [] |}
    else if String.eqb type "date" then
      {| zbase := ZString; zchecks := [ZRefine DateParses "Invalid date format"] |}
    else if String.eqb type "time" then
      {| zbase := ZString;
         zchecks := [ZRegex TIME_REGEX (Some "Invalid time format")] |}
    else if String.eqb type "multi_select" then
      {| zbase := ZArrayOfString; zchecks := [] |}
    else
      {| zbase := ZString;
         zchecks :=
           whenNumber (get_optional rt validation "minLength") ZMin
           ++ whenNumber (get_optional rt validation "maxLength") ZMax
           ++ match get_optional rt validation "pattern" with
              | VString pattern =>
                  (* an invalid pattern makes [new RegExp] throw, and the
                     [catch] ignores it *)
                  if RegExp_compiles rt pattern
                  then [ZRegex (UserRegExp pattern) None] else []
              | _ => []
              end |} in
  let refine p m := {| zbase := zbase schema;
                       zchecks := zchecks schema ++ [ZRefine p m] |} in
  match options with
  | VArray items =>
      if String.eqb type "select"
      then refine (OptionsInclude items) "Value must be one of the defined options"
      else if String.eqb type "multi_select"
      then refine (OptionsIncludeEvery items) "All selections must be valid options"
      else schema
  | _ => schema
  end.

(** [rawValue === undefined || rawValue === null || rawValue === ''] *)
Definition absent (rawValue : value) : bool :=
  strict_equal rt rawValue VUndefined
  || strict_equal rt rawValue VNull
  || strict_equal rt rawValue (VString "").

(** One turn of the [forEach] of [validateAnswers]: the issues a field adds
    to [errors]. *)
Definition validateField (answers : list (string * value))
    (field : FormFieldDefinition) : list ValidationIssue :=
  let required := truthy (required field) in
  let rawValue := lookup rt (VObject answers) (key field) in
  if negb required && absent rawValue then []
  else if required && absent rawValue
  then [{| issue_key := key field; message := "Field is required" |}]
  else
    let options := parseOptionalJson (options_json field) in
    let validation := nullish (parseOptionalJson (validation_json field)) VUndefined in
    let schema := buildFieldSchema field options validation in
    match safeParse rt schema rawValue with
    | [] => []
    | first :: _ => [{| issue_key := key field; message := first |}]
    end.

Record ValidationResult := { valid : bool; errors : list ValidationIssue }.

Definition validateAnswers (fields : list FormFieldDefinition)
    (answers : list (string * value)) : ValidationResult :=
  let errors :=
    foldl (fun errors field => (errors ++ validateField answers field)%list) [] fields in
  {| valid := (List.length errors =? 0)%nat; errors := errors |}.

End WithRuntime.

End Engine.

(** * The store *)

(** The tables of [worker/migrations/0002_create_form_compute_rules_tables.sql]
    that the intake touches.  A [TEXT] column is a string, a nullable one an
    option; a column written with [JSON.stringify(v)] keeps [v]. *)

Record FormTemplateRow := {
  ft_id : Z; ft_study_id : string; ft_name : string; ft_version : Z;
  ft_status : string; ft_created_at : string;
}.

Record FormFieldRow := {
  ff_id : Z; ff_form_template_id : Z; ff_key : string; ff_label : string;
  ff_type : string; ff_required : Z; ff_options_json : option string;
  ff_validation_json : option string; ff_order_index : Z;
}.

Record ComputeDefinitionRow := {
  cdr_id : Z; cdr_study_id : string; cdr_key : string; cdr_type : string;
  cdr_definition_json : string; cdr_version : Z; cdr_status : string;
}.

Record RuleSetRow := {
  rs_id : Z; rs_study_id : string; rs_rule_type : string; rs_name : string;
  rs_version : Z; rs_status : string; rs_expression_json : string;
  rs_created_at : string;
}.

Record FormSubmissionRow := {
  fs_id : Z; fs_study_id : string; fs_participant_id : string;
  fs_form_template_id : float; fs_answers_json : list (string * value);
  fs_submitted_at : string;
}.

Record ComputedValueRow := {
  cv_id : Z; cv_submission_id : Z; cv_key : string; cv_value_json : value;
  cv_computed_at : string;
}.

(** The [evaluationDetail] of one rule. *)
Record EvaluationDetail := {
  ed_rule_set_id : Z; ed_rule_type : string; ed_name : string;
  ed_matched : bool; ed_assignment : option (string * string);
  ed_plan : option value;
}.

Record RuleEvaluationRow := {
  re_id : Z; re_submission_id : Z; re_rule_set_id : Z; re_result_bool : Z;
  re_result_json : EvaluationDetail; re_evaluated_at : string;
}.

Record ParticipantAssignmentRow := {
  pa_id : Z; pa_participant_id : string; pa_study_id : string;
  pa_group_key : string; pa_group_value : string; pa_assigned_at : string;
}.

Record PlanEntry := { pe_rule_set_id : Z; pe_plan : value }.

Record SchedulePlanRow := {
  sp_id : Z; sp_participant_id : string; sp_study_id : string;
  sp_plan_json : list PlanEntry; sp_created_at : string;
}.

(** The [detail] of the audit record of an intake. *)
Record AuditDetail := {
  ad_form_template_id : float; ad_computed_keys : list string; ad_rule_count : nat;
}.

Record AuditLogRow := {
  al_id : Z; al_study_id : option string; al_participant_id : option string;
  al_action : string; al_entity_type : string; al_entity_id : option string;
  al_detail_json : AuditDetail; al_created_at : string;
}.

Record D1Database := {
  form_templates : list FormTemplateRow;
  form_fields : list FormFieldRow;
  compute_definitions : list ComputeDefinitionRow;
  rule_sets : list RuleSetRow;
  form_submissions : list FormSubmissionRow;
  computed_values : list ComputedValueRow;
  rule_evaluations : list RuleEvaluationRow;
  participant_assignments : list ParticipantAssignmentRow;
  schedule_plans : list SchedulePlanRow;
  audit_logs : list AuditLogRow;
}.

Module Store.

(** The id an [AUTOINCREMENT] key gives the next row. *)
Definition next_id {R} (id : R -> Z) (rows : list R) : Z :=
  1 + foldr (fun r m => Z.max (id r) m) 0 rows.

Definition insert_form_submission (r : Z -> FormSubmissionRow) (db : D1Database)
  : Z * D1Database :=
  let id := next_id fs_id (form_submissions db) in
  (id, {| form_templates := form_templates db; form_fields := form_fields db;
          compute_definitions := compute_definitions db; rule_sets := rule_sets db;
          form_submissions := form_submissions db ++ [r id];
          computed_values := computed_values db;
          rule_evaluations := rule_evaluations db;
          participant_assignments := participant_assignments db;
          schedule_plans := schedule_plans db; audit_logs := audit_logs db |}).

Definition insert_computed_value (r : Z -> ComputedValueRow) (db : D1Database)
  : Z * D1Database :=
  let id := next_id cv_id (computed_values db) in
  (id, {| form_templates := form_templates db; form_fields := form_fields db;
          compute_definitions := compute_definitions db; rule_sets := rule_sets db;
          form_submissions := form_submissions db;
          computed_values := computed_values db ++ [r id];
          rule_evaluations := rule_evaluations db;
          participant_assignments := participant_assignments db;
          schedule_plans := schedule_plans db; audit_logs := audit_logs db |}).

Definition insert_rule_evaluation (r : Z -> RuleEvaluationRow) (db : D1Database)
  : Z * D1Database :=
  let id := next_id re_id (rule_evaluations db) in
  (id, {| form_templates := form_templates db; form_fields := form_fields db;
          compute_definitions := compute_definitions db; rule_sets := rule_sets db;
          form_submissions := form_submissions db;
          computed_values := computed_values db;
          rule_evaluations := rule_evaluations db ++ [r id];
          participant_assignments := participant_assignments db;
          schedule_plans := schedule_plans db; audit_logs := audit_logs db |}).

Definition insert_participant_assignment (r : Z -> ParticipantAssignmentRow)
    (db : D1Database) : Z * D1Database :=
  let id := next_id pa_id (participant_assignments db) in
  (id, {| form_templates := form_templates db; form_fields := form_fields db;
          compute_definitions := compute_definitions db; rule_sets := rule_sets db;
          form_submissions := form_submissions db;
          computed_values := computed_values db;
          rule_evaluations := rule_evaluations db;
          participant_assignments := participant_assignments db ++ [r id];
          schedule_plans := schedule_plans db; audit_logs := audit_logs db |}).

Definition insert_schedule_plan (r : Z -> SchedulePlanRow) (db : D1Database)
  : Z * D1Database :=
  let id := next_id sp_id (schedule_plans db) in
  (id, {| form_templates := form_templates db; form_fields := form_fields db;
          compute_definitions := compute_definitions db; rule_sets := rule_sets db;
          form_submissions := form_submissions db;
          computed_values := computed_values db;
          rule_evaluations := rule_evaluations db;
          participant_assignments := participant_assignments db;
          schedule_plans := schedule_plans db ++ [r id];
          audit_logs := audit_logs db |}).

Definition insert_audit_log (r : Z -> AuditLogRow) (db : D1Database)
  : Z * D1Database :=
  let id := next_id al_id (audit_logs db) in
  (id, {| form_templates := form_templates db; form_fields := form_fields db;
          compute_definitions := compute_definitions db; rule_sets := rule_sets db;
          form_submissions := form_submissions db;
          computed_values := computed_values db;
          rule_evaluations := rule_evaluations db;
          participant_assignments := participant_assignments db;
          schedule_plans := schedule_plans db;
          audit_logs := audit_logs db ++ [r id] |}).

(** [ORDER BY order_index ASC]: rows of equal index keep their order. *)
Fixpoint insert_by_order (r : FormFieldRow) (sorted : list FormFieldRow)
  : list FormFieldRow :=
  match sorted with
  | [] => [r]
  | r' :: sorted' =>
      if ff_order_index r' <=? ff_order_index r
      then r' :: insert_by_order r sorted'
      else r :: sorted
  end.

Definition order_by_index (rows : list FormFieldRow) : list FormFieldRow :=
  foldl (fun sorted r => insert_by_order r sorted) [] rows.

End Store.

(** * [worker/src/handlers/engine.ts]: the intake *)

Record Env := { DB : option D1Database }.

(** A request, by the text of its body. *)
Record Request := { body : string }.

(** What [intakeSubmitSchema] parses a body into. *)
Record IntakeBody := {
  form_template_id : float;
  body_answers : list (string * value);
  body_metadata : option (list (string * value));
}.

Record Assignment := {
  as_rule_set_id : Z; as_group_key : string; as_group_value : string;
}.

(** The response envelope of a successful intake. *)
Record Envelope := {
  submission_id : Z;
  submission_study_id : string;
  submission_participant_id : string;
  submission_form_template_id : float;
  submitted_at : string;
  env_answers : list (string * value);
  env_computed : list (string * value);
  rule_evaluations_of : list EvaluationDetail;
  assignments : list Assignment;
  schedule_plan : option (list PlanEntry);
}.

(** The payloads [jsonResponse] is given. *)
Inductive payload :=
| ErrorPayload (error : string)
| CaughtPayload (error : exn)
| ValidationPayload (error : string) (errors : list ValidationIssue)
| EnvelopePayload (e : Envelope).

Record Response := { status : Z; json : payload }.

(** What [resolveRuleExpression] returns; an absent field is [undefined]. *)
Record ResolvedRule := {
  rr_expression : value;
  rr_assignment : option (string * string);
  rr_plan : value;
}.

Module Handlers.

Import JS Engine Store.

Definition jsonResponse (p : payload) (status : Z) : Response :=
  {| status := status; json := p |}.

(** A store call sequence that may throw; what was written before the
    [throw] stays written. *)
Definition handler (A : Type) : Type := D1Database -> outcome A * D1Database.

Definition hret {A} (a : A) : handler A := fun db => (Normal a, db).
Definition hbind {A B} (m : handler A) (f : A -> handler B) : handler B :=
  fun db => match m db with
            | (Normal a, db') => f a db'
            | (Throw e, db') => (Throw e, db')
            end.
Definition hlift {A} (o : outcome A) : handler A := fun db => (o, db).
Definition run {A} (call : D1Database -> A * D1Database) : handler A :=
  fun db => let '(a, db') := call db in (Normal a, db').
Definition query {A} (q : D1Database -> A) : handler A :=
  fun db => (Normal (q db), db).

Notation "x <~ m ;; k" := (hbind m (fun x => k))
  (at level 100, m at next level, right associativity).

(** [for (const x of items) { ... }] *)
Fixpoint for_of {A S} (items : list A) (body : S -> A -> handler S) (s : S)
  : handler S :=
  match items with
  | [] => hret s
  | x :: items' => s' <~ body s x ;; for_of items' body s'
  end.

Section WithRuntime.
Context (rt : Runtime).

Definition parseJsonValue (json : option string) (fallback : value) : value :=
  match json with
  | None => fallback
  | Some text =>
      if String.eqb text "" then fallback
      else default fallback (JSON_parse rt text)
  end.

(** [intakeSubmitSchema.parse(raw)] *)
Definition intakeSubmitSchema_parse (raw : value) : outcome IntakeBody :=
  match raw with
  | VObject _ =>
      match lookup rt raw "form_template_id", lookup rt raw "answers",
            lookup rt raw "metadata" with
      | VNumber id, VObject answers, VUndefined =>
          if bool_decide (is_Some (Num.to_Z id))
          then Normal {| form_template_id := id; body_answers := answers;
                         body_metadata := None |}
          else Throw (ZodError "form_template_id: expected integer")
      | VNumber id, VObject answers, VObject metadata =>
          if bool_decide (is_Some (Num.to_Z id))
          then Normal {| form_template_id := id; body_answers := answers;
                         body_metadata := Some metadata |}
          else Throw (ZodError "form_template_id: expected integer")
      | _, _, _ => Throw (ZodError "invalid intake body")
      end
  | _ => Throw (ZodError "expected object")
  end.

(** [parseBody(request, intakeSubmitSchema)] *)
Definition parseBody (request : Request) : outcome IntakeBody :=
  match JSON_parse rt (body request) with
  | Some rawBody => intakeSubmitSchema_parse rawBody
  | None => Throw (SyntaxError "request body is not JSON")
  end.

Definition logAudit (studyId participantId : string) (action entityType : string)
    (entityId : option Z) (detail : AuditDetail) (createdAt : string)
  : handler unit :=
  _ <~ run (insert_audit_log (fun id =>
         {| al_id := id; al_study_id := Some studyId;
            al_participant_id := Some participantId; al_action := action;
            al_entity_type := entityType; al_entity_id := Str.of_Z <$> entityId;
            al_detail_json := detail; al_created_at := createdAt |})) ;;
  hret tt.

(** [a ?? b ?? c ?? d] over the properties of a payload. *)
Definition first_of (payload : value) (names : list string) : value :=
  foldr (fun name rest => nullish (lookup rt payload name) rest) payload names.

Definition resolveRuleExpression (ruleType : string) (payload : value)
  : outcome ResolvedRule :=
  match payload with
  | VUndefined | VNull => Throw (TypeError "property read on undefined or null")
  | _ =>
      if String.eqb ruleType "eligibility" then
        Normal {| rr_expression := first_of payload ["expression"; "criteria"];
                  rr_assignment := None; rr_plan := VUndefined |}
      else if String.eqb ruleType "group_assignment" then
        let expression := first_of payload ["when"; "expression"; "criteria"] in
        let assignmentPayload :=
          nullish (lookup rt payload "assignment")
                  (VObject [("key", lookup rt payload "group_key");
                            ("value", lookup rt payload "group_value")]) in
        if truthy assignmentPayload
           && String.eqb (typeof rt assignmentPayload) "object"
           && has rt "key" assignmentPayload && has rt "value" assignmentPayload
        then
          k ← ToString rt (lookup rt assignmentPayload "key");
          v ← ToString rt (lookup rt assignmentPayload "value");
          Normal {| rr_expression := expression; rr_assignment := Some (k, v);
                    rr_plan := VUndefined |}
        else Normal {| rr_expression := expression; rr_assignment := None;
                       rr_plan := VUndefined |}
      else
        Normal {| rr_expression := first_of payload ["when"; "expression"; "criteria"];
                  rr_assignment := None;
                  rr_plan := first_of payload ["plan"; "schedule"] |}
  end.

(** The published compute definitions of a study, as [ComputeDefinition]s. *)
Definition computeDefinitionsList (studyId : string) (db : D1Database)
  : list ComputeDefinition :=
  List.map (fun row =>
              {| cd_key := cdr_key row; cd_type := cdr_type row;
                 definition := parseJsonValue (Some (cdr_definition_json row)) VNull |})
           (List.filter (fun row => String.eqb (cdr_study_id row) studyId
                                    && String.eqb (cdr_status row) "published")
                        (compute_definitions db)).

(** The published rule sets of a study. *)
Definition publishedRules (studyId : string) (db : D1Database) : list RuleSetRow :=
  List.filter (fun row => String.eqb (rs_study_id row) studyId
                          && String.eqb (rs_status row) "published")
              (rule_sets db).

(** The fields of a template, in their order. *)
Definition templateFields (formTemplateId : float) (db : D1Database)
  : list FormFieldDefinition :=
  List.map (fun row =>
              {| key := ff_key row; type := ff_type row;
                 required := VNumber (Num.of_Z (ff_required row));
                 options_json := from_option VString VNull (ff_options_json row);
                 validation_json := from_option VString VNull (ff_validation_json row) |})
           (order_by_index
              (List.filter (fun row => bool_decide (Num.to_Z formTemplateId
                                                     = Some (ff_form_template_id row)))
                           (form_fields db))).

Definition findTemplate (formTemplateId : float) (studyId : string)
    (db : D1Database) : option FormTemplateRow :=
  List.find (fun row => bool_decide (Num.to_Z formTemplateId = Some (ft_id row))
                        && String.eqb (ft_study_id row) studyId)
            (form_templates db).

(** [{ study_id, participant_id, form_template_id, submission_id,
      submitted_at, ...(body.metadata ?? {}) }] *)
Definition intakeMetadata (studyId participantId : string) (body : IntakeBody)
    (submissionId : Z) (submissionTime : string) : list (string * value) :=
  foldl (fun props p => assoc_set (fst p) (snd p) props)
        [("study_id", VString studyId);
         ("participant_id", VString participantId);
         ("form_template_id", VNumber (form_template_id body));
         ("submission_id", VNumber (Num.of_Z submissionId));
         ("submitted_at", VString submissionTime)]
        (default [] (body_metadata body)).

(** What the rule loop accumulates. *)
Record RuleLoop := {
  evaluations : list EvaluationDetail;
  loop_assignments : list Assignment;
  schedulePlans : list PlanEntry;
}.

(** Whether a rule matches: its predicate, evaluated on the rule context. *)
Definition ruleMatched (ruleContext : EvaluationContext) (rule : RuleSetRow)
  : outcome (ResolvedRule * bool) :=
  let parsedExpression := parseJsonValue (Some (rs_expression_json rule)) (VObject []) in
  resolved ← resolveRuleExpression (rs_rule_type rule) parsedExpression;
  matched ← (if truthy (rr_expression resolved)
             then evaluateExpression rt (rr_expression resolved) ruleContext
             else Normal false);
  Normal (resolved, matched).

(** The body of the loop over the rules. *)
Definition ruleStep (ruleContext : EvaluationContext) (submissionId : Z)
    (submissionTime : string) (acc : RuleLoop) (rule : RuleSetRow)
  : handler RuleLoop :=
  r <~ hlift (ruleMatched ruleContext rule) ;;
  let '(resolved, matched) := r in
  let assigned :=
    if matched && String.eqb (rs_rule_type rule) "group_assignment"
    then rr_assignment resolved else None in
  let planned :=
    if matched && String.eqb (rs_rule_type rule) "scheduling"
       && negb (strict_equal rt (rr_plan resolved) VUndefined)
    then Some (rr_plan resolved) else None in
  let evaluationDetail :=
    {| ed_rule_set_id := rs_id rule; ed_rule_type := rs_rule_type rule;
       ed_name := rs_name rule; ed_matched := matched;
       ed_assignment := assigned; ed_plan := planned |} in
  _ <~ run (insert_rule_evaluation (fun id =>
         {| re_id := id; re_submission_id := submissionId;
            re_rule_set_id := rs_id rule;
            re_result_bool := if matched then 1 else 0;
            re_result_json := evaluationDetail;
            re_evaluated_at := submissionTime |})) ;;
  hret {| evaluations := evaluations acc ++ [evaluationDetail];
          loop_assignments :=
            loop_assignments acc ++
            match assigned with
            | Some (k, v) => [{| as_rule_set_id := rs_id rule; as_group_key := k;
                                 as_group_value := v |}]
            | None => []
            end;
          schedulePlans :=
            schedulePlans acc ++
            match planned with
            | Some plan => [{| pe_rule_set_id := rs_id rule; pe_plan := plan |}]
            | None => []
            end |}.

(** [handleIntakeSubmit] from the insertion of the submission on. *)
Definition submitValidated (studyId participantId : string) (body : IntakeBody)
    (submissionTime auditTime : string) : handler Envelope :=
  submissionId <~ run (insert_form_submission (fun id =>
    {| fs_id := id; fs_study_id := studyId; fs_participant_id := participantId;
       fs_form_template_id := form_template_id body;
       fs_answers_json := body_answers body; fs_submitted_at := submissionTime |})) ;;
  definitions <~ query (computeDefinitionsList studyId) ;;
  let metadata := intakeMetadata studyId participantId body submissionId submissionTime in
  let evaluationContext :=
    {| answers := body_answers body; computed := []; metadata := metadata |} in
  computedValues <~ hlift (computeDefinitions rt definitions evaluationContext) ;;
  _ <~ for_of definitions (fun _ definition =>
         _ <~ run (insert_computed_value (fun id =>
                {| cv_id := id; cv_submission_id := submissionId;
                   cv_key := cd_key definition;
                   cv_value_json := lookup rt (VObject computedValues) (cd_key definition);
                   cv_computed_at := submissionTime |})) ;;
         hret tt) tt ;;
  rules <~ query (publishedRules studyId) ;;
  let ruleContext :=
    {| answers := body_answers body; computed := computedValues;
       metadata := metadata |} in
  loop <~ for_of rules (ruleStep ruleContext submissionId submissionTime)
            {| evaluations := []; loop_assignments := []; schedulePlans := [] |} ;;
  _ <~ for_of (loop_assignments loop) (fun _ assignment =>
         _ <~ run (insert_participant_assignment (fun id =>
                {| pa_id := id; pa_participant_id := participantId;
                   pa_study_id := studyId;
                   pa_group_key := as_group_key assignment;
                   pa_group_value := as_group_value assignment;
                   pa_assigned_at := submissionTime |})) ;;
         hret tt) tt ;;
  schedulePlanPayload <~
    (if (0 <? List.length (schedulePlans loop))%nat
     then _ <~ run (insert_schedule_plan (fun id =>
                 {| sp_id := id; sp_participant_id := participantId;
                    sp_study_id := studyId; sp_plan_json := schedulePlans loop;
                    sp_created_at := submissionTime |})) ;;
          hret (Some (schedulePlans loop))
     else hret None) ;;
  _ <~ logAudit studyId participantId "intake_submitted" "form_submission"
         (Some submissionId)
         {| ad_form_template_id := form_template_id body;
            ad_computed_keys := List.map cd_key definitions;
            ad_rule_count := List.length (evaluations loop) |}
         auditTime ;;
  hret {| submission_id := submissionId;
          submission_study_id := studyId;
          submission_participant_id := participantId;
          submission_form_template_id := form_template_id body;
          submitted_at := submissionTime;
          env_answers := body_answers body;
          env_computed := computedValues;
          rule_evaluations_of := evaluations loop;
          assignments := loop_assignments loop;
          schedule_plan := schedulePlanPayload |}.

(** [handleIntakeSubmit]; the two clock readings ([submissionTime], and the
    [createdAt] of [logAudit]) are arguments. *)
Definition handleIntakeSubmit (request : Request) (env : Env)
    (studyId participantId : string) (submissionTime auditTime : string)
  : Response * Env :=
  match parseBody request with
  | Throw error => (jsonResponse (CaughtPayload error) 400, env)
  | Normal body =>
      match DB env with
      | None => (jsonResponse (ErrorPayload "Form template not found") 404, env)
      | Some db =>
          match findTemplate (form_template_id body) studyId db with
          | None => (jsonResponse (ErrorPayload "Form template not found") 404, env)
          | Some template =>
              let fields := templateFields (form_template_id body) db in
              let validation := validateAnswers rt fields (body_answers body) in
              if negb (valid validation)
              then (jsonResponse
                      (ValidationPayload "Validation failed" (errors validation)) 400,
                    env)
              else
                match submitValidated studyId participantId body
                        submissionTime auditTime db with
                | (Normal envelope, db') =>
                    (jsonResponse (EnvelopePayload envelope) 201, {| DB := Some db' |})
                | (Throw error, db') =>
                    (jsonResponse (CaughtPayload error) 400, {| DB := Some db' |})
                end
          end
      end
  end.

End WithRuntime.

End Handlers.

(** * A reference runtime

    One runtime the engine can run on, used to evaluate it on concrete
    inputs: [JSON.parse] in full (for text whose code units are below 256),
    [Date.parse] on the date-only ISO form, the property names of the
    standard prototypes, the default conversions of plain data, and the
    documented behaviour of the validation library.  Local time is UTC, two
    objects are never one object, and a field's own [pattern] is taken not to
    compile. *)

Module Reference.

Import JS.

(** ** [JSON.parse] *)

Definition json_ws (c : ascii) : bool :=
  let n := Str.code c in (n =? 32) || (n =? 9) || (n =? 10) || (n =? 13).

Fixpoint skip_ws (l : list ascii) : list ascii :=
  match l with
  | c :: l' => if json_ws c then skip_ws l' else l
  | [] => []
  end.

Definition dquote : ascii := ascii_of_N 34.

(** The characters of a string literal after its opening quote. *)
Fixpoint json_string (l : list ascii) (acc : list ascii)
  : option (string * list ascii) :=
  match l with
  | [] => None
  | "\"%char :: c :: rest =>
      let simple x := json_string rest (x :: acc) in
      if Ascii.eqb c dquote then simple dquote
      else if Ascii.eqb c "\" then simple "\"%char
      else if Ascii.eqb c "/" then simple "/"%char
      else if Ascii.eqb c "b" then simple (ascii_of_N 8)
      else if Ascii.eqb c "f" then simple (ascii_of_N 12)
      else if Ascii.eqb c "n" then simple (ascii_of_N 10)
      else if Ascii.eqb c "r" then simple (ascii_of_N 13)
      else if Ascii.eqb c "t" then simple (ascii_of_N 9)
      else if Ascii.eqb c "u" then
        match rest with
        | a :: b :: c' :: d :: rest' =>
            match Str.digits_value 16 [a; b; c'; d] with
            | Some n => if n <? 256
                        then json_string rest' (ascii_of_N (Z.to_N n) :: acc)
                        else None
            | None => None
            end
        | _ => None
        end
      else None
  | c :: rest =>
      if Ascii.eqb c dquote then Some (string_of_list_ascii (List.rev acc), rest)
      else if Str.code c <? 32 then None
      else json_string rest (c :: acc)
  end.

(** The longest prefix that can belong to a number, and the rest. *)
Fixpoint span_number (l : list ascii) : list ascii * list ascii :=
  match l with
  | c :: l' =>
      if Str.is_digit c || Ascii.eqb c "-" || Ascii.eqb c "+" || Ascii.eqb c "."
         || Ascii.eqb c "e" || Ascii.eqb c "E"
      then let '(ds, rest) := span_number l' in (c :: ds, rest)
      else ([], l)
  | [] => ([], [])
  end.

(** The grammar of a JSON number. *)
Definition json_number_ok (l : list ascii) : bool :=
  let unsigned := match l with "-"%char :: l' => l' | _ => l end in
  let '(ip, rest) := Str.span_digits unsigned in
  let int_ok := match ip with
                | [] => false
                | "0"%char :: _ :: _ => false
                | _ => true
                end in
  let '(frac_ok, rest) :=
    match rest with
    | "."%char :: rest' =>
        let '(fp, rest'') := Str.span_digits rest' in
        (negb (Nat.eqb (List.length fp) 0), rest'')
    | _ => (true, rest)
    end in
  let exp_ok :=
    match rest with
    | [] => true
    | c :: rest' =>
        (Ascii.eqb c "e" || Ascii.eqb c "E")
        && let digits := match rest' with
                         | "+"%char :: r | "-"%char :: r => r
                         | r => r
                         end in
           negb (Nat.eqb (List.length digits) 0) && forallb Str.is_digit digits
    end in
  int_ok && frac_ok && exp_ok.

Definition literal (name : string) (v : value) (l : list ascii)
  : option (value * list ascii) :=
  let n := String.length name in
  if String.eqb (string_of_list_ascii (firstn n l)) name
  then Some (v, skipn n l) else None.

Fixpoint json_value (fuel : nat) (l : list ascii) : option (value * list ascii) :=
  match fuel with
  | O => None
  | S fuel' =>
      match skip_ws l with
      | "{"%char :: rest =>
          match skip_ws rest with
          | "}"%char :: rest' => Some (VObject [], rest')
          | rest' => json_members fuel' rest' []
          end
      | "["%char :: rest =>
          match skip_ws rest with
          | "]"%char :: rest' => Some (VArray [], rest')
          | rest' => json_elements fuel' rest' []
          end
      | "t"%char :: _ => literal "true" (VBool true) (skip_ws l)
      | "f"%char :: _ => literal "false" (VBool false) (skip_ws l)
      | "n"%char :: _ => literal "null" VNull (skip_ws l)
      | c :: rest =>
          if Ascii.eqb c dquote
          then '(s, rest') ← json_string rest []; Some (VString s, rest')
          else
            let '(ds, rest') := span_number (c :: rest) in
            if json_number_ok ds
            then Some (VNumber (NumStr.StringToNumber (string_of_list_ascii ds)), rest')
            else None
      | [] => None
      end
  end
with json_elements (fuel : nat) (l : list ascii) (acc : list value)
  : option (value * list ascii) :=
  match fuel with
  | O => None
  | S fuel' =>
      '(v, rest) ← json_value fuel' l;
      match skip_ws rest with
      | ","%char :: rest' => json_elements fuel' rest' (v :: acc)
      | "]"%char :: rest' => Some (VArray (List.rev (v :: acc)), rest')
      | _ => None
      end
  end
with json_members (fuel : nat) (l : list ascii) (acc : list (string * value))
  : option (value * list ascii) :=
  match fuel with
  | O => None
  | S fuel' =>
      match skip_ws l with
      | c :: rest =>
          if negb (Ascii.eqb c dquote) then None
          else
            '(k, rest) ← json_string rest [];
            match skip_ws rest with
            | ":"%char :: rest =>
                '(v, rest) ← json_value fuel' rest;
                let acc' := assoc_set k v acc in
                match skip_ws rest with
                | ","%char :: rest' => json_members fuel' rest' acc'
                | "}"%char :: rest' => Some (VObject acc', rest')
                | _ => None
                end
            | _ => None
            end
      | [] => None
      end
  end.

(** JSON text written with ['] for its double quotes. *)
Definition json_text (s : string) : string :=
  string_of_list_ascii
    (List.map (fun c => if Ascii.eqb c "'" then dquote else c)
              (list_ascii_of_string s)).

Definition parse_json (text : string) : option value :=
  let l := list_ascii_of_string text in
  '(v, rest) ← json_value (S (List.length l)) l;
  match skip_ws rest with
  | [] => Some v
  | _ => None
  end.

(** ** [Date.parse] and local time *)

Definition days_in_month (y m : Z) : Z :=
  if (m =? 2) then
    (if ((y mod 4 =? 0) && negb (y mod 100 =? 0)) || (y mod 400 =? 0) then 29 else 28)
  else if (m =? 4) || (m =? 6) || (m =? 9) || (m =? 11) then 30 else 31.

(** [YYYY-MM-DD], a date that exists. *)
Definition parse_date (s : string) : float :=
  match list_ascii_of_string s with
  | [y1; y2; y3; y4; "-"%char; m1; m2; "-"%char; d1; d2] =>
      match Str.digits_value 10 [y1; y2; y3; y4], Str.digits_value 10 [m1; m2],
            Str.digits_value 10 [d1; d2] with
      | Some y, Some m, Some d =>
          if (1 <=? m) && (m <=? 12) && (1 <=? d) && (d <=? days_in_month y m)
          then Num.of_Z (Engine.days_from_civil y m d * Engine.msPerDay)
          else Num.NaN
      | _, _, _ => Num.NaN
      end
  | _ => Num.NaN
  end.

Definition utc_hours (t : float) : float :=
  Num.floor (Num.rem (Num.rem t 86400000 + 86400000) 86400000 / 3600000)%float.

Definition utc_minutes (t : float) : float :=
  Num.floor (Num.rem (Num.rem t 3600000 + 3600000) 3600000 / 60000)%float.

(** ** The standard prototypes *)

Definition proto_name (p : proto) : string :=
  match p with
  | ObjectPrototype => "Object.prototype"
  | ArrayPrototype => "Array.prototype"
  | DatePrototype => "Date.prototype"
  | StringPrototype => "String.prototype"
  | NumberPrototype => "Number.prototype"
  | BooleanPrototype => "Boolean.prototype"
  end.

Definition own_names (p : proto) : list string :=
  match p with
  | ObjectPrototype =>
      ["constructor"; "__defineGetter__"; "__defineSetter__"; "hasOwnProperty";
       "__lookupGetter__"; "__lookupSetter__"; "isPrototypeOf";
       "propertyIsEnumerable"; "toString"; "valueOf"; "__proto__";
       "toLocaleString"]
  | ArrayPrototype =>
      ["constructor"; "at"; "concat"; "copyWithin"; "fill"; "find"; "findIndex";
       "findLast"; "findLastIndex"; "lastIndexOf"; "pop"; "push"; "reverse";
       "shift"; "unshift"; "slice"; "sort"; "splice"; "includes"; "indexOf";
       "join"; "keys"; "entries"; "values"; "forEach"; "filter"; "flat";
       "flatMap"; "map"; "every"; "some"; "reduce"; "reduceRight";
       "toLocaleString"; "toString"; "toReversed"; "toSorted"; "toSpliced"; "with"]
  | DatePrototype =>
      ["constructor"; "toString"; "toDateString"; "toTimeString"; "toISOString";
       "toUTCString"; "toGMTString"; "getDate"; "setDate"; "getDay";
       "getFullYear"; "setFullYear"; "getHours"; "setHours"; "getMilliseconds";
       "setMilliseconds"; "getMinutes"; "setMinutes"; "getMonth"; "setMonth";
       "getSeconds"; "setSeconds"; "getTime"; "setTime"; "getTimezoneOffset";
       "getUTCDate"; "setUTCDate"; "getUTCDay"; "getUTCFullYear";
       "setUTCFullYear"; "getUTCHours"; "setUTCHours"; "getUTCMilliseconds";
       "setUTCMilliseconds"; "getUTCMinutes"; "setUTCMinutes"; "getUTCMonth";
       "setUTCMonth"; "getUTCSeconds"; "setUTCSeconds"; "valueOf"; "getYear";
       "setYear"; "toJSON"; "toLocaleString"; "toLocaleDateString";
       "toLocaleTimeString"]
  | StringPrototype =>
      ["constructor"; "anchor"; "at"; "big"; "blink"; "bold"; "charAt";
       "charCodeAt"; "codePointAt"; "concat"; "endsWith"; "fontcolor";
       "fontsize"; "fixed"; "includes"; "indexOf"; "isWellFormed"; "italics";
       "lastIndexOf"; "link"; "localeCompare"; "match"; "matchAll"; "normalize";
       "padEnd"; "padStart"; "repeat"; "replace"; "replaceAll"; "search";
       "slice"; "small"; "split"; "strike"; "sub"; "substr"; "substring"; "sup";
       "startsWith"; "toString"; "toWellFormed"; "trim"; "trimStart"; "trimLeft";
       "trimEnd"; "trimRight"; "toLocaleLowerCase"; "toLocaleUpperCase";
       "toLowerCase"; "toUpperCase"; "valueOf"]
  | NumberPrototype =>
      ["constructor"; "toExponential"; "toFixed"; "toPrecision"; "toString";
       "valueOf"; "toLocaleString"]
  | BooleanPrototype => ["constructor"; "toString"; "valueOf"]
  end.

Definition is_name (k : string) (names : list string) : bool :=
  existsb (String.eqb k) names.

(** A property found on a prototype: the prototype of the receiver for
    [__proto__], a method otherwise. *)
Definition inherited_name (p : proto) (k : string) : option string :=
  if String.eqb k "__proto__" then Some (proto_name p)
  else if is_name k (own_names p) then Some (proto_name p ++ "." ++ k)
  else if is_name k (own_names ObjectPrototype) then Some ("Object.prototype." ++ k)
  else None.

Definition protos : list proto :=
  [ObjectPrototype; ArrayPrototype; DatePrototype; StringPrototype;
   NumberPrototype; BooleanPrototype].

Definition proto_named (b : string) : option proto :=
  List.find (fun p => String.eqb (proto_name p) b) protos.

Definition builtin_property (b k : string) : option string :=
  match proto_named b with
  | Some ObjectPrototype =>
      if is_name k (own_names ObjectPrototype) && negb (String.eqb k "__proto__")
      then Some ("Object.prototype." ++ k) else None
  | Some p =>
      if String.eqb k "__proto__" then Some "Object.prototype"
      else if is_name k (own_names p) then Some (b ++ "." ++ k)
      else if is_name k (own_names ObjectPrototype)
      then Some ("Object.prototype." ++ k) else None
  | None => None
  end.

Definition is_callable (b : string) : bool :=
  negb (bool_decide (is_Some (proto_named b))).

(** ** Default conversions of plain data *)

Fixpoint join (sep : string) (parts : list string) : string :=
  match parts with
  | [] => ""
  | [s] => s
  | s :: parts' => s ++ sep ++ join sep parts'
  end.

(** The string of a value when its conversion cannot throw. *)
Fixpoint to_string (v : value) : option string :=
  match v with
  | VUndefined => Some "undefined"
  | VNull => Some "null"
  | VBool b => Some (if b then "true" else "false")
  | VNumber x => Some (NumStr.NumberToString x)
  | VString s => Some s
  | VArray items =>
      join "," <$> mapM (fun item =>
                           match item with
                           | VUndefined | VNull => Some ""
                           | _ => to_string item
                           end) items
  | VObject props =>
      match assoc "toString" props with
      | None => Some "[object Object]"
      | Some _ => None
      end
  | VDate t => if Num.isNaN t then Some "Invalid Date" else None
  | VBuiltin b =>
      if String.eqb b "Object.prototype" then Some "[object Object]"
      else if String.eqb b "Array.prototype" then Some ""
      else if is_callable b
      then Some ("function " ++ b ++ "() { [native code] }")
      else None
  end.

Definition object_to_number (v : value) : option float :=
  NumStr.StringToNumber <$> to_string v.

(** The runtime, but for the validation library. *)
Definition base (zod : ZodSchema -> value -> list string) : Runtime := {|
  Date_parse := parse_date;
  Date_getHours := utc_hours;
  Date_getMinutes := utc_minutes;
  JSON_parse := parse_json;
  inherited := inherited_name;
  builtin_prop := builtin_property;
  builtin_callable := is_callable;
  ObjectToNumber := object_to_number;
  ObjectToString := to_string;
  same_reference := fun _ _ => false;
  RegExp_compiles := fun _ => false;
  safeParse := zod;
|}.

(** ** The validation library *)

Definition parsedType (v : value) : string :=
  match v with
  | VUndefined => "undefined"
  | VNull => "null"
  | VBool _ => "boolean"
  | VNumber x => if Num.isNaN x then "nan" else "number"
  | VString _ => "string"
  | VArray _ => "array"
  | VObject _ => "object"
  | VDate _ => "date"
  | VBuiltin b => if is_callable b then "function" else "object"
  end.

Definition invalid_type (expected : string) (custom : option string) (v : value)
  : string :=
  match v with
  | VUndefined => "Required"
  | _ => default ("Expected " ++ expected ++ ", received " ++ parsedType v) custom
  end.

(** [options.includes(v)] *)
Definition includes (options : list value) (v : value) : bool :=
  existsb (fun o =>
             match o, v with
             | VNumber x, VNumber y => PrimFloat.eqb x y || (Num.isNaN x && Num.isNaN y)
             | VString s, VString t => String.eqb s t
             | VBool a, VBool b => Bool.eqb a b
             | VNull, VNull | VUndefined, VUndefined => true
             | _, _ => false
             end) options.

Definition refinement_holds (p : refinement) (v : value) : bool :=
  match p, v with
  | DateParses, VString s => negb (Num.isNaN (parse_date s))
  | OptionsInclude options, _ => includes options v
  | OptionsIncludeEvery options, VArray items => forallb (includes options) items
  | _, _ => false
  end.

Definition number_check (x : float) (c : ZodCheck) : list string :=
  match c with
  | ZMin n => if (x <? n)%float
              then ["Number must be greater than or equal to " ++ NumStr.NumberToString n]
              else []
  | ZMax n => if (n <? x)%float
              then ["Number must be less than or equal to " ++ NumStr.NumberToString n]
              else []
  | ZRegex _ _ => []
  | ZRefine p m => if refinement_holds p (VNumber x) then [] else [m]
  end.

Definition string_check (s : string) (c : ZodCheck) : list string :=
  let len := Num.of_Z (Z.of_nat (String.length s)) in
  match c with
  | ZMin n => if (len <? n)%float
              then ["String must contain at least " ++ NumStr.NumberToString n
                      ++ " character(s)"]
              else []
  | ZMax n => if (n <? len)%float
              then ["String must contain at most " ++ NumStr.NumberToString n
                      ++ " character(s)"]
              else []
  | ZRegex TIME_REGEX m =>
      if Engine.TIME_REGEX_test s then [] else [default "Invalid" m]
  | ZRegex (UserRegExp _) _ => []
  | ZRefine p m => if refinement_holds p (VString s) then [] else [m]
  end.

Definition safe_parse (schema : ZodSchema) (v : value) : list string :=
  match zbase schema with
  | ZCoerceNumber msg =>
      match ToNumber (base (fun _ _ => [])) v with
      | Normal x =>
          if Num.isNaN x then [msg]
          else concat (List.map (number_check x) (zchecks schema))
      | Throw _ => [msg]
      end
  | ZBoolean msg =>
      match v with
      | VBool _ => []
      | _ => [invalid_type "boolean" (Some msg) v]
      end
  | ZString =>
      match v with
      | VString s => concat (List.map (string_check s) (zchecks schema))
      | _ => [invalid_type "string" None v]
      end
  | ZArrayOfString =>
      match v with
      | VArray items =>
          match concat (List.map (fun item =>
                                    match item with
                                    | VString _ => []
                                    | _ => [invalid_type "string" None item]
                                    end) items) with
          | [] => concat (List.map (fun c =>
                                      match c with
                                      | ZRefine p m =>
                                          if refinement_holds p v then [] else [m]
                                      | _ => []
                                      end) (zchecks schema))
          | issues => issues
          end
      | _ => [invalid_type "array" None v]
      end
  end.

Definition runtime : Runtime := base safe_parse.

End Reference.

(** * Definitions used to state the properties *)

Module Spec.

Import JS Engine Handlers.

(** A value [resolvePath] can step into. *)
Definition walkable (rt : Runtime) (current : value) : bool :=
  truthy current && String.eqb (typeof rt current) "object".

(** The walk the path resolver makes: one property per segment, and
    [undefined] from the first value that is no object or lacks the segment. *)
Fixpoint walk (rt : Runtime) (current : value) (path : list string) : value :=
  match path with
  | [] => current
  | segment :: path' =>
      walk rt (if walkable rt current && has rt segment current
               then lookup rt current segment else VUndefined) path'
  end.

(** The scope a first segment selects. *)
Definition scope_of (context : EvaluationContext) (scope : string)
  : option (list (string * value)) :=
  if String.eqb scope "answers" then Some (answers context)
  else if String.eqb scope "computed" then Some (computed context)
  else if String.eqb scope "metadata" then Some (metadata context)
  else None.

(** The coercion ladder as the specification words it: a string goes to its
    numeric parse if finite, else to its date parse if parseable, else to the
    trimmed string. *)
Definition toComparable_as_specified (rt : Runtime) (v : value) : option comparable :=
  match v with
  | VNumber x => if Num.isFinite x then Some (CNumber x) else None
  | VString s =>
      if Num.isFinite (NumStr.StringToNumber s)
      then Some (CNumber (NumStr.StringToNumber s))
      else if negb (Num.isNaN (Date_parse rt s)) then Some (CNumber (Date_parse rt s))
      else Some (CString (Str.trim s))
  | VDate t => Some (CNumber t)
  | _ => None
  end.

(** The four ordering operators. *)
Definition ordering_op (op : string) : bool :=
  String.eqb op ">" || String.eqb op ">=" || String.eqb op "<" || String.eqb op "<=".

(** The whole numbers of minutes a time string without seconds can denote:
    [0 .. 99 * 60 + 99]. *)
Definition wholeMinutes : list float :=
  List.map (fun n => Num.of_Z (Z.of_nat n)) (seq 0 (Z.to_nat 6040)).

(** [x + y == 24 * 60] for every two different entries of a table. *)
Definition durations_add_up (table : list float) : bool :=
  forallb (fun x =>
    forallb (fun y =>
      PrimFloat.eqb x y
      || match (let diff := (y - x)%float in
                if (diff <? 0)%float then (diff + 24 * 60)%float else diff),
               (let diff := (x - y)%float in
                if (diff <? 0)%float then (diff + 24 * 60)%float else diff) with
         | d1, d2 => PrimFloat.eqb (d1 + d2) (24 * 60)
         end) table) table.

(** Every entry of a table of minutes is formatted as five characters that
    parse back to minutes below [24 * 60] with the same format. *)
Definition reformats (rt : Runtime) (table : list float) : bool :=
  forallb (fun x =>
    let formatted := formatMinutes x in
    match parseTimeToMinutes rt (VString formatted) with
    | Normal (Some y) =>
        String.eqb (formatMinutes y) formatted && (y <? 24 * 60)%float
        && (String.length formatted =? 5)%nat
    | _ => false
    end) table.

(** A scheduling rule that matched. *)
Definition schedulingMatched (rt : Runtime) (ruleContext : EvaluationContext)
    (rule : RuleSetRow) : bool :=
  String.eqb (rs_rule_type rule) "scheduling"
  && match ruleMatched rt ruleContext rule with
     | Normal (_, matched) => matched
     | Throw _ => false
     end.

(** A handler that leaves a part of the store as it found it, whether it
    returns or throws. *)
Definition preserves {T A} (part : D1Database -> T) (m : handler A) : Prop :=
  forall db o db', m db = (o, db') -> part db' = part db.

(** The row [handleIntakeSubmit] inserts for a submission. *)
Definition submissionRow (studyId participantId : string) (body : IntakeBody)
    (submissionTime : string) (db : D1Database) : FormSubmissionRow :=
  {| fs_id := Store.next_id fs_id (form_submissions db); fs_study_id := studyId;
     fs_participant_id := participantId;
     fs_form_template_id := form_template_id body;
     fs_answers_json := body_answers body; fs_submitted_at := submissionTime |}.

(** The errors the compute language raises by itself. *)
Definition languageError (e : exn) : Prop :=
  match e with
  | TypeError _ => True
  | RangeError what => what = "Invalid time value"
  | _ => False
  end.

(** What holds of the result of a computation that keeps [I] and throws
    only what [Q] allows. *)
Definition established {A} (I : ComputeState -> Prop) (Q : exn -> Prop)
    (r : outcome (A * ComputeState)) : Prop :=
  match r with
  | Normal (_, st') => I st'
  | Throw e => Q e
  end.

(** An outcome that throws only what [Q] allows. *)
Definition raises {A} (Q : exn -> Prop) (o : outcome A) : Prop :=
  match o with
  | Normal _ => True
  | Throw e => Q e
  end.

(** The keys a compute expression may hand to [resolveComputed]: those of
    its [computed.] variables, its own and those of its arguments. *)
Inductive mentions (rt : Runtime) : value -> string -> Prop :=
| mentions_var expression var :
    lookup rt expression "var" = VString var ->
    Str.startsWith "computed." var = true ->
    mentions rt expression (Str.slice_from (String.length "computed.") var)
| mentions_arg expression args arg key :
    lookup rt expression "args" = VArray args ->
    In arg args ->
    mentions rt arg key ->
    mentions rt expression key.

(** One definition refers to the key of another. *)
Definition refers (rt : Runtime) (definitions : list ComputeDefinition)
    (key key' : string) : Prop :=
  exists d, definitionMap definitions !! key = Some d
            /\ mentions rt (definition d) key'.

(** Every entry of [props] is an entry of [props']. *)
Definition extends (props props' : list (string * value)) : Prop :=
  forall k v, assoc k props = Some v -> assoc k props' = Some v.

Definition cycleMessage (key : string) : string :=
  "Circular compute dependency detected for " ++ key.

(** No key under evaluation has a value yet. *)
Definition unset (rt : Runtime) (st : ComputeState) : Prop :=
  forall k, k ∈ visiting st -> has rt k (VObject (computedValues st)) = false.

(** What [computeDefinitions] may throw: an error of the language, or the
    cycle error for a key that refers to itself through the definitions and
    that a definition of the list reaches. *)
Definition computeError (rt : Runtime) (definitions : list ComputeDefinition)
    (root : string) (e : exn) : Prop :=
  languageError e
  \/ exists key, e = Error (cycleMessage key)
                 /\ tc (refers rt definitions) key key
                 /\ rtc (refers rt definitions) root key.

(** The assignment a rule contributes: that of a [group_assignment] rule
    that matched and carries one. *)
Definition ruleAssignments (rt : Runtime) (ruleContext : EvaluationContext)
    (rule : RuleSetRow) : list Assignment :=
  match ruleMatched rt ruleContext rule with
  | Normal (resolved, true) =>
      if String.eqb (rs_rule_type rule) "group_assignment" then
        match rr_assignment resolved with
        | Some (k, v) => [{| as_rule_set_id := rs_id rule; as_group_key := k;
                             as_group_value := v |}]
        | None => []
        end
      else []
  | _ => []
  end.

(** A rule evaluation row that records the evaluation of a rule. *)
Definition records (rt : Runtime) (ruleContext : EvaluationContext)
    (submissionId : Z) (submissionTime : string)
    (rule : RuleSetRow) (row : RuleEvaluationRow) : Prop :=
  re_submission_id row = submissionId
  /\ re_rule_set_id row = rs_id rule
  /\ re_evaluated_at row = submissionTime
  /\ ed_rule_set_id (re_result_json row) = rs_id rule
  /\ ed_rule_type (re_result_json row) = rs_rule_type rule
  /\ ed_name (re_result_json row) = rs_name rule
  /\ exists resolved,
       ruleMatched rt ruleContext rule
       = Normal (resolved, ed_matched (re_result_json row))
       /\ re_result_bool row = (if ed_matched (re_result_json row) then 1 else 0).

(** No built-in object or prototype has a property named [not]. *)
Definition noInheritedNot (rt : Runtime) : Prop :=
  (forall p, inherited rt p "not" = None)
  /\ (forall b, builtin_prop rt b "not" = None).

(** The day of a 400-year era is split into a year of the era from 0 to 399
    and a day of the year from 0 to 365, of which [days_from_civil] makes the
    day of the era again. *)
Definition eraDay (doe : Z) : bool :=
  let yoe := (doe - doe / 1460 + doe / 36524 - doe / 146096) / 365 in
  let doy := doe - (365 * yoe + yoe / 4 - yoe / 100) in
  (0 <=? yoe) && (yoe <=? 399) && (0 <=? doy) && (doy <=? 365).

(** [start], [start + 1], ... : [n] integers. *)
Fixpoint zrange (n : nat) (start : Z) : list Z :=
  match n with
  | O => []
  | S n' => start :: zrange n' (start + 1)
  end.

Definition eraDays : list Z := zrange (Z.to_nat 146097) 0.

(** A [TypeError]. *)
Definition typeError (e : exn) : Prop :=
  match e with
  | TypeError _ => True
  | _ => False
  end.

(** The operators [evaluateExpression] knows. *)
Definition operators : list string :=
  ["exists"; "=="; "!="; ">"; ">="; "<"; "<="; "in"; "not_in"; "between"].

(** The text [H:MM] or, [padded], [HH:MM] of an hour and a minute. *)
Definition clockText (padded : bool) (h m : Z) : string :=
  (if padded then Str.padStart0 2 (Str.of_Z h) else Str.of_Z h)
  ++ ":" ++ Str.padStart0 2 (Str.of_Z m).

(** Every clock text of a table of hours and minutes parses to
    [h * 60 + m]. *)
Definition clockTexts (rt : Runtime) (hours minutes : list Z) : bool :=
  forallb (fun h =>
    forallb (fun m =>
      forallb (fun padded =>
        match parseTimeToMinutes rt (VString (clockText padded h m)) with
        | Normal (Some x) => PrimFloat.Leibniz.eqb x (Num.of_Z (h * 60 + m))
        | _ => false
        end) [true; false]) minutes) hours.

(** A variable that does not look into a computed value: it does not start
    with [computed.], or it is [computed.] and a key without a dot. *)
Definition simpleVar (var : string) : bool :=
  match Str.split "."%char var with
  | scope :: rest =>
      if String.eqb scope "computed"
      then Str.startsWith "computed." var
           && match rest with
              | [k] => String.eqb k (Str.slice_from (String.length "computed.") var)
              | _ => false
              end
      else negb (Str.startsWith "computed." var)
  | [] => negb (Str.startsWith "computed." var)
  end.

(** The expressions the evaluator comes to from an expression: itself and
    those of its arguments. *)
Inductive subexpression (rt : Runtime) : value -> value -> Prop :=
| subexpression_refl e : subexpression rt e e
| subexpression_arg e args arg e' :
    lookup rt e "args" = VArray args ->
    In arg args ->
    subexpression rt arg e' ->
    subexpression rt e e'.

Definition simpleRefs (rt : Runtime) (e : value) : Prop :=
  forall e' var,
    subexpression rt e e' -> lookup rt e' "var" = VString var ->
    simpleVar var = true.

(** [props'] has the properties of [props], with their values. *)
Definition grows (rt : Runtime) (props props' : list (string * value)) : Prop :=
  forall k, has rt k (VObject props) = true ->
    has rt k (VObject props') = true
    /\ lookup rt (VObject props') k = lookup rt (VObject props) k.

(** A computed map whose keys are those of the context and of definitions. *)
Definition closed (rt : Runtime) (definitions : list ComputeDefinition)
    (context : EvaluationContext) (result : list (string * value)) : Prop :=
  forall k, has rt k (VObject result) = true ->
    has rt k (VObject (computed context)) = true
    \/ is_Some (definitionMap definitions !! k).

(** [resolveComputed] by plain lookup in the computed values. *)
Definition lookupComputed (rt : Runtime) (key : string) : compute value :=
  fun st => Normal (lookup rt (VObject (computedValues st)) key, st).

(** The state that holds a finished computed map. *)
Definition finished (result : list (string * value)) : ComputeState :=
  {| computedValues := result; visiting := ∅ |}.

(** The value of a key in [result] is that of its definition over [result],
    whatever the depth the evaluator is given beyond that of the definition. *)
Definition satisfies (rt : Runtime) (definitions : list ComputeDefinition)
    (context : EvaluationContext) (result : list (string * value))
    (key : string) : Prop :=
  forall d m,
    definitionMap definitions !! key = Some d ->
    (depth (definition d) < m)%nat ->
    evaluateComputeExpression_fuel rt m (definition d) context (lookupComputed rt)
      (finished result)
    = Normal (lookup rt (VObject result) key, finished result).

(** What [resolveComputed] keeps of the computed values: the keys under
    evaluation are definition keys without a value, the values of the
    context stay, every key is one of the context or of a definition, and
    the value of a definition key that the context did not bring satisfies
    its definition over every later record of computed values. *)
Definition settled (rt : Runtime) (definitions : list ComputeDefinition)
    (context : EvaluationContext) (st : ComputeState) : Prop :=
  visiting st ⊆ dom (definitionMap definitions)
  /\ unset rt st
  /\ grows rt (computed context) (computedValues st)
  /\ closed rt definitions context (computedValues st)
  /\ forall k R,
       has rt k (VObject (computedValues st)) = true ->
       has rt k (VObject (computed context)) = false ->
       grows rt (computedValues st) R -> closed rt definitions context R ->
       satisfies rt definitions context R k.

(** The double of a small natural number, by the conversion of machine
    integers. *)
Definition machineFloat (z : Z) : float := PrimFloat.of_uint63 (Uint63.of_Z z).

(** On a table of integers the conversion agrees with rounding. *)
Definition machineFloats (table : list Z) : bool :=
  forallb (fun z => PrimFloat.Leibniz.eqb (Num.of_Z z) (machineFloat z)) table.

(** [startMinutes + normalizedDiff / 2] in [midpointTime]. *)
Definition halfway (startMinutes endMinutes : float) : float :=
  let diff := (endMinutes - startMinutes)%float in
  let normalizedDiff := if (diff <? 0)%float then (diff + 24 * 60)%float else diff in
  (startMinutes + normalizedDiff / 2)%float.

(** For every two minutes [s] and [e] of a table, that sum is half of
    [2 * s + gap], where [gap] is the way forward from [s] to [e] on the
    dial. *)
Definition halfwaySums (table : list Z) : bool :=
  forallb (fun s =>
    let fs := machineFloat s in
    forallb (fun e =>
      PrimFloat.Leibniz.eqb (halfway fs (machineFloat e))
        (machineFloat (2 * s + (e - s) mod 1440) / 2)%float) table) table.

(** For every [k] of a table, half of [k], taken modulo a day, is formatted
    as the hour and minute of [k / 2], the minute one more when [k] is odd. *)
Definition halfwayTexts (table : list Z) : bool :=
  forallb (fun k =>
    let t := (k / 2) mod 1440 in
    String.eqb (formatMinutes (Num.rem (machineFloat k / 2) (24 * 60)))
               (clockText true (t / 60) (t mod 60 + k mod 2))) table.

End Spec.

(** * Inputs used in the examples *)

Module Examples.

Import Reference.

(** A store with one template, [1], of study ["study-42"], whose form asks
    for a required number [age] of at least 18 and two required times. *)
Definition sleepStudy : D1Database := {|
  form_templates :=
    [{| ft_id := 1; ft_study_id := "study-42"; ft_name := "Baseline intake";
        ft_version := 1; ft_status := "published"; ft_created_at := "2026-01-01" |}];
  form_fields :=
    [{| ff_id := 1; ff_form_template_id := 1; ff_key := "age"; ff_label := "Age";
        ff_type := "number"; ff_required := 1; ff_options_json := None;
        ff_validation_json := Some (json_text "{'min':18}"); ff_order_index := 0 |};
     {| ff_id := 2; ff_form_template_id := 1; ff_key := "sleep_start";
        ff_label := "Sleep start"; ff_type := "time"; ff_required := 1;
        ff_options_json := None; ff_validation_json := None; ff_order_index := 1 |};
     {| ff_id := 3; ff_form_template_id := 1; ff_key := "sleep_end";
        ff_label := "Sleep end"; ff_type := "time"; ff_required := 1;
        ff_options_json := None; ff_validation_json := None; ff_order_index := 2 |}];
  compute_definitions :=
    [{| cdr_id := 1; cdr_study_id := "study-42"; cdr_key := "sleep_duration";
        cdr_type := "number";
        cdr_definition_json :=
          json_text "{'func':'duration','args':[{'var':'answers.sleep_start'},{'var':'answers.sleep_end'}]}";
        cdr_version := 1; cdr_status := "published" |}];
  rule_sets :=
    [{| rs_id := 1; rs_study_id := "study-42"; rs_rule_type := "eligibility";
        rs_name := "Age check"; rs_version := 1; rs_status := "published";
        rs_expression_json :=
          json_text "{'op':'>=','left':{'var':'answers.age'},'right':{'value':18}}";
        rs_created_at := "2026-01-01" |};
     {| rs_id := 2; rs_study_id := "study-42"; rs_rule_type := "group_assignment";
        rs_name := "Young adult cohort"; rs_version := 1; rs_status := "published";
        rs_expression_json :=
          json_text "{'when':{'op':'between','left':{'var':'answers.age'},'min':{'value':18},'max':{'value':30}},'assignment':{'key':'cohort','value':'young-adult'}}";
        rs_created_at := "2026-01-01" |};
     {| rs_id := 3; rs_study_id := "study-42"; rs_rule_type := "scheduling";
        rs_name := "Baseline schedule"; rs_version := 1; rs_status := "published";
        rs_expression_json :=
          json_text "{'when':{'op':'>=','left':{'var':'answers.age'},'right':{'value':18}},'plan':{'visit':'baseline','offset_days':7}}";
        rs_created_at := "2026-01-01" |}];
  form_submissions := []; computed_values := []; rule_evaluations := [];
  participant_assignments := []; schedule_plans := []; audit_logs := [];
|}.

(** A submission that passes validation, and one that is too young. *)
Definition adultRequest : Request :=
  {| body := json_text "{'form_template_id':1,'answers':{'age':24,'sleep_start':'22:00','sleep_end':'06:00'}}" |}.

Definition minorRequest : Request :=
  {| body := json_text "{'form_template_id':1,'answers':{'age':15,'sleep_start':'22:00','sleep_end':'06:00'}}" |}.

Definition emptyContext : EvaluationContext :=
  {| answers := []; computed := []; metadata := [] |}.

(** The sleep study with two compute definitions that refer to each other. *)
Definition cyclicStudy : D1Database := {|
  form_templates := form_templates sleepStudy;
  form_fields := form_fields sleepStudy;
  compute_definitions :=
    [{| cdr_id := 1; cdr_study_id := "study-42"; cdr_key := "a"; cdr_type := "number";
        cdr_definition_json := json_text "{'op':'add','args':[{'var':'computed.b'},1]}";
        cdr_version := 1; cdr_status := "published" |};
     {| cdr_id := 2; cdr_study_id := "study-42"; cdr_key := "b"; cdr_type := "number";
        cdr_definition_json := json_text "{'op':'add','args':[{'var':'computed.a'},1]}";
        cdr_version := 1; cdr_status := "published" |}];
  rule_sets := rule_sets sleepStudy;
  form_submissions := []; computed_values := []; rule_evaluations := [];
  participant_assignments := []; schedule_plans := []; audit_logs := [];
|}.

End Examples.

(** * Properties *)

Local Open Scope list_scope.

Section PathResolver.

Import JS Engine Spec.
Context (rt : Runtime).

Lemma walk_undefined path : walk rt VUndefined path = VUndefined.
Proof. induction path as [|segment path IH]; simpl; auto. Qed.

Lemma walkable_is_object current :
  walkable rt current = true -> is_object current = true.
Proof.
  unfold walkable. intros H. apply andb_true_iff in H as [Ht H].
  destruct current; simpl in *; try discriminate; reflexivity.
Qed.

Lemma resolvePath_walk path : forall target,
  resolvePath rt target path = Normal (walk rt target path).
Proof.
  unfold resolvePath.
  induction path as [|segment path IH]; intros target; simpl; [reflexivity|].
  fold (walkable rt target).
  destruct (walkable rt target) eqn:Hw; simpl.
  - unfold has_property. rewrite (walkable_is_object _ Hw). simpl.
    destruct (has rt segment target) eqn:Hh.
    + unfold get. destruct target; try discriminate Hw; apply IH.
    + apply IH.
  - apply IH.
Qed.

Lemma resolveScope_walk props pathParts :
  resolveScope rt props pathParts = Normal (walk rt (VObject props) pathParts).
Proof.
  destruct pathParts; [reflexivity|]. apply resolvePath_walk.
Qed.

Lemma array_index_not_length k i : array_index k = Some i -> String.eqb k "length" = false.
Proof.
  destruct (String.eqb k "length") eqn:E; [|reflexivity].
  apply String.eqb_eq in E. subst k. vm_compute. discriminate.
Qed.

(** C5, as the code has it.  The path resolver splits the variable on ['.'],
    selects the scope [answers], [computed] or [metadata] by the first
    segment, and walks the remaining segments through objects by property
    name; an unknown scope and a value that is no object or lacks the next
    segment give [undefined]; it never throws; and an array is an object
    like any other, so that a segment that is an index of an array yields
    the element at that index. *)
Theorem resolveVariable_walks (variable : string) (context : EvaluationContext) :
  (resolveVariable rt variable context =
     Normal match Str.split "."%char variable with
            | scope :: pathParts =>
                match scope_of context scope with
                | Some props => walk rt (VObject props) pathParts
                | None => VUndefined
                end
            | [] => VUndefined
            end)
  /\ (exists v, resolveVariable rt variable context = Normal v)
  /\ (forall current segment path,
        has rt segment current = false ->
        walk rt current (segment :: path) = VUndefined)
  /\ (forall current segment path,
        walkable rt current = false ->
        walk rt current (segment :: path) = VUndefined)
  /\ (forall items k i x path,
        array_index k = Some i ->
        items !! i = Some x ->
        walk rt (VArray items) (k :: path) = walk rt x path).
Proof.
  assert (Heq : resolveVariable rt variable context =
     Normal match Str.split "."%char variable with
            | scope :: pathParts =>
                match scope_of context scope with
                | Some props => walk rt (VObject props) pathParts
                | None => VUndefined
                end
            | [] => VUndefined
            end).
  { unfold resolveVariable, scope_of.
    destruct (Str.split "."%char variable) as [|scope pathParts]; [reflexivity|].
    repeat (case_match; [apply resolveScope_walk|]). reflexivity. }
  split; [exact Heq|]. split; [eauto|].
  repeat split.
  - intros current segment path Hh. simpl. rewrite Hh, andb_false_r.
    apply walk_undefined.
  - intros current segment path Hw. simpl. rewrite Hw. apply walk_undefined.
  - intros items k i x path Hk Hx. simpl.
    assert (Hown : get_own (VArray items) k = Some x).
    { simpl. rewrite (array_index_not_length _ _ Hk), Hk. simpl. exact Hx. }
    unfold has, lookup. rewrite Hown. simpl. reflexivity.
Qed.

End PathResolver.

(** C5, as the specification words it, fails: a segment that addresses an
    array element yields the element.  With [answers = { items: [10, 20] }],
    the path [answers.items.0] resolves to [10]. *)
Lemma resolveVariable_indexes_arrays :
  Engine.resolveVariable Reference.runtime "answers.items.0"
    {| answers := [("items", VArray [VNumber 10; VNumber 20])];
       computed := []; metadata := [] |}
  = Normal (VNumber 10).
Proof. vm_compute. reflexivity. Qed.

Section Comparison.

Import JS Engine Spec.
Context (rt : Runtime).

Lemma length_zero_empty (s : string) : (String.length s =? 0)%nat = true <-> s = "".
Proof.
  destruct s; simpl; split; intros H; try reflexivity; discriminate.
Qed.

Lemma ordering_op_cases op :
  ordering_op op = true -> op = ">" \/ op = ">=" \/ op = "<" \/ op = "<=".
Proof.
  unfold ordering_op. rewrite !orb_true_iff, !String.eqb_eq. tauto.
Qed.

(** C4, as the code has it.  Each operand of [>], [>=], [<], [<=] is
    coerced by this ladder: a finite number to itself; a string that is
    empty once trimmed to [null]; any other string to the numeric parse of
    its trimmed text if that is finite, else to its date parse in epoch
    milliseconds if it parses, else to the trimmed text; a valid date to its
    epoch milliseconds; anything else (a number that is not finite, an
    invalid date, any other value) to [null].  If either side coerces to
    [null] the comparison is false. *)
Theorem toComparable_ladder :
  (forall x, toComparable rt (VNumber x)
             = if Num.isFinite x then Some (CNumber x) else None)
  /\ (forall s, Str.trim s = "" -> toComparable rt (VString s) = None)
  /\ (forall s, Str.trim s <> "" ->
        toComparable rt (VString s)
        = Some (let trimmed := Str.trim s in
                if Num.isFinite (NumStr.StringToNumber trimmed)
                then CNumber (NumStr.StringToNumber trimmed)
                else if Num.isNaN (Date_parse rt trimmed) then CString trimmed
                else CNumber (Date_parse rt trimmed)))
  /\ (forall t, toComparable rt (VDate t)
               = if Num.isNaN t then None else Some (CNumber t))
  /\ (forall v, match v with
                | VNumber _ | VString _ | VDate _ => True
                | _ => toComparable rt v = None
                end)
  /\ (forall expression context op leftValue rightValue,
        is_object expression = true ->
        has rt "all" expression = false ->
        has rt "any" expression = false ->
        has rt "not" expression = false ->
        lookup rt expression "op" = VString op ->
        ordering_op op = true ->
        resolveOperand rt (nullish (lookup rt expression "left")
                                   (lookup rt expression "value")) context
          = Normal leftValue ->
        resolveOperand rt (lookup rt expression "right") context = Normal rightValue ->
        toComparable rt leftValue = None \/ toComparable rt rightValue = None ->
        evaluateExpression rt expression context = Normal false).
Proof.
  repeat split.
  - intros s Hs. simpl. rewrite Hs. reflexivity.
  - intros s Hs. simpl.
    destruct (String.length (Str.trim s) =? 0)%nat eqn:E.
    + apply length_zero_empty in E. contradiction.
    + destruct (Num.isFinite _); [reflexivity|].
      destruct (Num.isNaN _); reflexivity.
  - intros t. simpl. destruct (Num.isNaN t); reflexivity.
  - intros v. destruct v; auto.
  - intros expression context op leftValue rightValue
      Hobj Hall Hany Hnot Hop Hord Hl Hr Hnull.
    unfold evaluateExpression. simpl.
    unfold has_property. rewrite Hobj, Hall, Hany, Hnot. simpl.
    assert (Hget : forall k, get rt expression k = Normal (lookup rt expression k)).
    { intros k. unfold get. destruct expression; try discriminate Hobj; reflexivity. }
    rewrite !Hget. simpl. rewrite Hl. simpl. rewrite Hr. simpl. rewrite Hop.
    unfold op_is, strict_equal.
    destruct (ordering_op_cases _ Hord) as [-> | [-> | [-> | ->]]];
      cbn [String.eqb Ascii.eqb Bool.eqb orb andb];
      destruct Hnull as [-> | ->]; try reflexivity;
      destruct (toComparable rt leftValue); reflexivity.
Qed.

End Comparison.

(** C4, as the specification words it, fails on a string that is blank once
    trimmed: the code coerces it to [null], where the worded ladder gives the
    numeric parse [0]; so [" " <= 5] is false, not true. *)
Lemma toComparable_blank_string_is_null :
  Engine.toComparable Reference.runtime (VString " ") = None
  /\ Spec.toComparable_as_specified Reference.runtime (VString " ") = Some (CNumber 0)
  /\ Engine.evaluateExpression Reference.runtime
       (VObject [("op", VString "<="); ("left", VObject [("value", VString " ")]);
                 ("right", VObject [("value", VNumber 5)])])
       {| answers := []; computed := []; metadata := [] |}
     = Normal false.
Proof. vm_compute. auto. Qed.

(** The ladder at work: [" " < 5] is false because the left side is [null]. *)
Lemma toComparable_ladder_witness :
  Engine.evaluateExpression Reference.runtime
    (VObject [("op", VString "<"); ("left", VObject [("value", VString " ")]);
              ("right", VObject [("value", VNumber 5)])])
    {| answers := []; computed := []; metadata := [] |}
  = Normal false.
Proof.
  apply (proj2 (proj2 (proj2 (proj2 (proj2
           (toComparable_ladder Reference.runtime))))))
    with (op := "<") (leftValue := VString " ") (rightValue := VNumber 5);
    try reflexivity.
  left. reflexivity.
Defined.

(** C3 at the failing input: [add(null, 5)] is [5], not [null], because
    [Number(null)] is [0]; and through the compute language,
    [multiply(duration("x", "y"), 2)], whose first argument is [null], is [0]. *)
Lemma applyArithmetic_null_is_zero :
  Engine.applyArithmetic Reference.runtime (VString "add") [VNull; VNumber 5]
  = Normal (VNumber 5)
  /\ Engine.computeDefinitions Reference.runtime
       [{| cd_key := "double"; cd_type := "number";
           definition :=
             VObject [("op", VString "multiply");
                      ("args", VArray [VObject [("func", VString "duration");
                                                ("args", VArray [VString "x"; VString "y"])];
                                       VNumber 2])] |}]
       {| answers := []; computed := []; metadata := [] |}
     = Normal [("double", VNumber 0)].
Proof. vm_compute. auto. Qed.

(** C6 at the failing input: [normalize_time("10:59:30")] is ["10:60"], and
    [normalize_time("10:60")] is ["11:00"]. *)
Lemma normalizeTime_not_idempotent :
  Engine.normalizeTime Reference.runtime (VString "10:59:30") = Normal (Some "10:60")
  /\ Engine.normalizeTime Reference.runtime (VString "10:60") = Normal (Some "11:00").
Proof. vm_compute. auto. Qed.

Section Duration.

Import JS Engine Spec.
Context (rt : Runtime).

Lemma wholeMinutes_add_up : durations_add_up wholeMinutes = true.
Proof. vm_compute. reflexivity. Qed.

Lemma durations_add_up_spec (table : list float) (x y : float) :
  durations_add_up table = true ->
  In x table -> In y table -> PrimFloat.eqb x y = false ->
  PrimFloat.eqb
    ((if (y - x <? 0)%float then (y - x + 24 * 60)%float else (y - x)%float)
     + (if (x - y <? 0)%float then (x - y + 24 * 60)%float else (x - y)%float))
    (24 * 60) = true.
Proof.
  unfold durations_add_up. intros H Hx Hy Hne.
  rewrite forallb_forall in H. specialize (H x Hx).
  rewrite forallb_forall in H. specialize (H y Hy).
  rewrite Hne in H. exact H.
Qed.


End Duration.



Section Validator.

Import JS Engine Spec.
Context (rt : Runtime).

Lemma foldl_app_concat {A B} (f : A -> list B) (items : list A) : forall acc,
  foldl (fun acc x => (acc ++ f x)%list) acc items = (acc ++ concat (List.map f items))%list.
Proof.
  induction items as [|x items IH]; intros acc; simpl.
  - rewrite app_nil_r. reflexivity.
  - rewrite IH, <- app_assoc. reflexivity.
Qed.

Lemma strict_equal_undefined v : strict_equal rt v VUndefined = true <-> v = VUndefined.
Proof.
  destruct v; simpl; split; intros H; try discriminate; try reflexivity;
    rewrite ?andb_false_r in H; discriminate.
Qed.

Lemma strict_equal_null v : strict_equal rt v VNull = true <-> v = VNull.
Proof.
  destruct v; simpl; split; intros H; try discriminate; try reflexivity;
    rewrite ?andb_false_r in H; discriminate.
Qed.

Lemma strict_equal_empty_string v :
  strict_equal rt v (VString "") = true <-> v = VString "".
Proof.
  destruct v; simpl; split; intros H; try discriminate;
    rewrite ?andb_false_r in H; try discriminate.
  - apply String.eqb_eq in H. subst. reflexivity.
  - injection H as ->. reflexivity.
Qed.

(** [absent] holds of [undefined], [null] and the empty string, and of
    nothing else. *)
Lemma absent_spec v :
  absent rt v = true <-> v = VUndefined \/ v = VNull \/ v = VString "".
Proof.
  unfold absent. rewrite !orb_true_iff, strict_equal_undefined, strict_equal_null,
    strict_equal_empty_string. tauto.
Qed.


End Validator.


Section StoreFrames.

Import Handlers Spec.

Lemma preserves_hret {T A} (part : D1Database -> T) (a : A) : preserves part (hret a).
Proof. intros db o db' H. injection H as _ <-. reflexivity. Qed.

Lemma preserves_hlift {T A} (part : D1Database -> T) (o : outcome A) :
  preserves part (hlift o).
Proof. intros db o' db' H. injection H as _ <-. reflexivity. Qed.

Lemma preserves_query {T A} (part : D1Database -> T) (q : D1Database -> A) :
  preserves part (query q).
Proof. intros db o db' H. injection H as _ <-. reflexivity. Qed.

Lemma preserves_hbind {T A B} (part : D1Database -> T) (m : handler A)
    (f : A -> handler B) :
  preserves part m -> (forall a, preserves part (f a)) -> preserves part (hbind m f).
Proof.
  intros Hm Hf db o db' H. unfold hbind in H.
  destruct (m db) as [[a|e] db1] eqn:E.
  - rewrite (Hf a _ _ _ H). exact (Hm _ _ _ E).
  - injection H as _ <-. exact (Hm _ _ _ E).
Qed.

Lemma preserves_for_of {T A S} (part : D1Database -> T) (items : list A)
    (body : S -> A -> handler S) :
  (forall s x, preserves part (body s x)) -> forall s, preserves part (for_of items body s).
Proof.
  intros Hbody. induction items as [|x items IH]; intros s; simpl.
  - apply preserves_hret.
  - apply preserves_hbind; auto.
Qed.

Lemma preserves_run {T A} (part : D1Database -> T) (call : D1Database -> A * D1Database) :
  (forall db, part (snd (call db)) = part db) -> preserves part (run call).
Proof.
  intros Hcall db o db' H. unfold run in H. specialize (Hcall db).
  destruct (call db) as [a db1]. injection H as _ <-. exact Hcall.
Qed.

Lemma hbind_normal {A B} (m : handler A) (f : A -> handler B) db b db' :
  hbind m f db = (Normal b, db') ->
  exists a db1, m db = (Normal a, db1) /\ f a db1 = (Normal b, db').
Proof.
  unfold hbind. destruct (m db) as [[a|e] db1]; intros H; [eauto|discriminate].
Qed.

End StoreFrames.

Create HintDb store discriminated.
#[global] Hint Resolve preserves_hret preserves_hlift preserves_query : store.
#[global] Hint Extern 1 (Spec.preserves _ (Handlers.hbind _ _)) =>
  apply preserves_hbind; [|intros ?] : store.
#[global] Hint Extern 1 (Spec.preserves _ (Handlers.for_of _ _ _)) =>
  apply preserves_for_of; intros ? ? : store.
#[global] Hint Extern 1 (Spec.preserves _ (Handlers.run _)) =>
  apply preserves_run; intros ?; reflexivity : store.
#[global] Hint Extern 2 (Spec.preserves _ (if ?c then _ else _)) => destruct c : store.
#[global] Hint Extern 2 (Spec.preserves _ (let '(_, _) := ?p in _)) => destruct p : store.
#[global] Hint Unfold Handlers.logAudit Handlers.ruleStep : store.

(** Discharges [preserves part m] for a handler built from store calls that
    leave [part] alone. *)
Ltac frame := intros; cbv beta; autounfold with store; auto 10 with store.

Section Intake.

Import JS Engine Store Handlers Spec.
Context (rt : Runtime).

Lemma submitValidated_submission studyId participantId body submissionTime auditTime
    db o db' :
  submitValidated rt studyId participantId body submissionTime auditTime db = (o, db') ->
  form_submissions db'
  = form_submissions db ++ [submissionRow studyId participantId body submissionTime db].
Proof.
  unfold submitValidated. intros H.
  unfold hbind at 1 in H. unfold run at 1 in H. simpl in H.
  match type of H with
  | ?m ?db1 = _ =>
      assert (Hp : preserves form_submissions m);
      [|exact (Hp _ _ _ H)]
  end.
  frame.
Qed.

End Intake.

Section IntakeGate.

Import JS Engine Store Handlers Spec.
Context (rt : Runtime).


End IntakeGate.


Section SchedulePlan.

Import JS Engine Store Handlers Spec.
Context (rt : Runtime).

Lemma nullish_defined a b : b <> VUndefined -> nullish a b <> VUndefined.
Proof. destruct a; simpl; intros Hb; try exact Hb; discriminate. Qed.

(** The plan of a scheduling rule is never [undefined]: it is the payload
    itself when the payload has neither [plan] nor [schedule]. *)
Lemma scheduling_plan_defined ruleType payload resolved :
  resolveRuleExpression rt ruleType payload = Normal resolved ->
  String.eqb ruleType "scheduling" = true ->
  strict_equal rt (rr_plan resolved) VUndefined = false.
Proof.
  intros H Ht. apply String.eqb_eq in Ht. subst ruleType.
  assert (Hp : payload <> VUndefined) by (intros ->; discriminate H).
  assert (Hplan : rr_plan resolved <> VUndefined).
  { unfold resolveRuleExpression in H. cbn [String.eqb Ascii.eqb Bool.eqb] in H.
    destruct payload; try discriminate H; injection H as <-; simpl;
      repeat apply nullish_defined; discriminate. }
  destruct (strict_equal rt (rr_plan resolved) VUndefined) eqn:E; [|reflexivity].
  apply strict_equal_undefined in E. contradiction.
Qed.

Lemma publishedRules_ext studyId db1 db2 :
  rule_sets db1 = rule_sets db2 -> publishedRules studyId db1 = publishedRules studyId db2.
Proof. unfold publishedRules. intros ->. reflexivity. Qed.

(** What the rule loop adds to [schedulePlans]: one entry per scheduling rule
    that matched, in the order of the rules. *)
Lemma ruleLoop_schedulePlans ruleContext submissionId submissionTime rules :
  forall acc db loop db',
    for_of rules (ruleStep rt ruleContext submissionId submissionTime) acc db
      = (Normal loop, db') ->
    exists added,
      schedulePlans loop = schedulePlans acc ++ added
      /\ List.map pe_rule_set_id added
         = List.map rs_id (List.filter (schedulingMatched rt ruleContext) rules).
Proof.
  induction rules as [|rule rules IH]; intros acc db loop db' H; simpl in H.
  - injection H as <- _. exists []. rewrite app_nil_r. auto.
  - apply hbind_normal in H as (acc' & db1 & Hstep & Hrest).
    destruct (IH _ _ _ _ Hrest) as (added & Hadded & Hids).
    unfold ruleStep in Hstep.
    apply hbind_normal in Hstep as ([resolved matched] & db0 & Hm & Hstep).
    injection Hm as Hm <-.
    apply hbind_normal in Hstep as (u & db2 & _ & Hstep).
    injection Hstep as <- _. simpl in Hadded.
    unfold schedulingMatched at 1. simpl. rewrite Hm.
    destruct (String.eqb (rs_rule_type rule) "scheduling") eqn:Et.
    + unfold ruleMatched in Hm.
      destruct (resolveRuleExpression rt _ _) as [resolved'|] eqn:Er; [|discriminate Hm].
      simpl in Hm.
      assert (resolved' = resolved) as ->.
      { destruct (if truthy (rr_expression resolved') then _ else _);
          simpl in Hm; [injection Hm as <- _; reflexivity|discriminate]. }
      rewrite (scheduling_plan_defined _ _ _ Er Et) in Hadded.
      rewrite andb_true_r in Hadded. simpl.
      destruct matched; simpl in *.
      * eexists. rewrite <- app_assoc in Hadded. split; [exact Hadded|].
        simpl. rewrite Hids. reflexivity.
      * rewrite app_nil_r in Hadded. eauto.
    + rewrite andb_false_r in Hadded. simpl in *.
      rewrite app_nil_r in Hadded. eauto.
Qed.


End SchedulePlan.


(** ** The compute engine *)

Section Outcomes.

Import JS Engine Spec.
Context (rt : Runtime) (Q : exn -> Prop).
Hypothesis Q_type : forall what, Q (TypeError what).
Hypothesis Q_range : Q (RangeError "Invalid time value").

Lemma raises_bind {A B} (m : outcome A) (f : A -> outcome B) :
  raises Q m -> (forall a, m = Normal a -> raises Q (f a)) -> raises Q (m ≫= f).
Proof. destruct m; simpl; auto. Qed.

Lemma raises_fmap {A B} (m : outcome A) (f : A -> B) :
  raises Q m -> raises Q (f <$> m).
Proof. destruct m; simpl; auto. Qed.

Lemma raises_get v k : raises Q (get rt v k).
Proof. destruct v; simpl; auto. Qed.

Lemma raises_has_property k v : raises Q (has_property rt k v).
Proof. unfold has_property. destruct (is_object v); simpl; auto. Qed.

Lemma raises_as_array v : raises Q (as_array v).
Proof. destruct v; simpl; auto. Qed.

Lemma raises_as_string v : raises Q (as_string v).
Proof. destruct v; simpl; auto. Qed.

Lemma raises_converted {A} (o : option A) : raises Q (converted o).
Proof. destruct o; simpl; auto. Qed.

Lemma raises_ToNumber v : raises Q (ToNumber rt v).
Proof. destruct v; simpl; auto; apply raises_converted. Qed.

Lemma raises_mapM {A B} (f : A -> outcome B) items :
  (forall x, raises Q (f x)) -> raises Q (mapM f items).
Proof.
  intros Hf. induction items as [|x items IH]; simpl; [exact I|].
  apply raises_bind; [apply Hf|]. intros y _.
  apply raises_bind; [exact IH|]. intros ys _. exact I.
Qed.

Lemma raises_applyArithmetic op values : raises Q (applyArithmetic rt op values).
Proof.
  unfold applyArithmetic. apply raises_bind.
  - apply raises_mapM. intros v. destruct v; try apply raises_ToNumber.
    destruct (Num.isFinite _); [exact I|apply raises_ToNumber].
  - intros numericValues _. repeat case_match; exact I.
Qed.

Lemma raises_minutesProperty v : raises Q (minutesProperty rt v).
Proof.
  unfold minutesProperty. case_match; [|exact I].
  apply raises_bind; [apply raises_has_property|]. intros found _.
  destruct found; [|exact I].
  apply raises_bind; [apply raises_get|]. intros minutes _.
  repeat case_match; exact I.
Qed.

Lemma raises_parseTimeToMinutes v : raises Q (parseTimeToMinutes rt v).
Proof.
  destruct v; simpl; try apply raises_minutesProperty;
    repeat case_match; try exact I; apply raises_minutesProperty.
Qed.

Lemma raises_normalizeTime v : raises Q (normalizeTime rt v).
Proof.
  unfold normalizeTime. apply raises_bind; [apply raises_parseTimeToMinutes|].
  intros [m|] _; exact I.
Qed.

Lemma raises_midpointTime a b : raises Q (midpointTime rt a b).
Proof.
  unfold midpointTime. apply raises_bind; [apply raises_parseTimeToMinutes|].
  intros x _. apply raises_bind; [apply raises_parseTimeToMinutes|].
  intros y _. destruct x, y; exact I.
Qed.

Lemma raises_durationMinutes a b : raises Q (durationMinutes rt a b).
Proof.
  unfold durationMinutes. apply raises_bind; [apply raises_parseTimeToMinutes|].
  intros x _. apply raises_bind; [apply raises_parseTimeToMinutes|].
  intros y _. destruct x, y; exact I.
Qed.

Lemma raises_addDaysToDate a b : raises Q (addDaysToDate rt a b).
Proof.
  unfold addDaysToDate.
  repeat first
    [ case_match
    | match goal with
      | |- context [civil_from_days ?x] => destruct (civil_from_days x) as [[? ?] ?]
      end ]; try exact I; exact Q_range.
Qed.

End Outcomes.

Section Depth.

Import JS Engine Spec.
Context (rt : Runtime).

Lemma list_max_In {A} (f : A -> nat) (x : A) (items : list A) :
  In x items -> (f x <= list_max (List.map f items))%nat.
Proof.
  induction items as [|y items IH]; simpl; [tauto|].
  intros [->|H]; [lia|]. specialize (IH H). lia.
Qed.

Lemma depth_item arg items : In arg items -> (depth arg < depth (VArray items))%nat.
Proof. intros H. simpl. pose proof (list_max_In depth arg items H). lia. Qed.

Lemma depth_assoc k props v :
  assoc k props = Some v -> (depth v < depth (VObject props))%nat.
Proof.
  intros H. simpl.
  enough (depth v <= list_max (List.map (fun p => depth (snd p)) props))%nat by lia.
  induction props as [|[k' v'] props IH]; simpl in *; [discriminate|].
  destruct (String.eqb k k').
  - injection H as ->. lia.
  - specialize (IH H). lia.
Qed.

Lemma lookup_array_depth expression k items :
  lookup rt expression k = VArray items ->
  (depth (VArray items) < depth expression)%nat.
Proof.
  unfold lookup. destruct (get_own expression k) as [x|] eqn:Hown.
  - intros ->. destruct expression; simpl in Hown; try discriminate.
    + destruct (String.eqb k "length"); [discriminate|].
      destruct (array_index k) as [i|]; simpl in Hown; [|discriminate].
      destruct (String.get i s); discriminate.
    + destruct (String.eqb k "length"); [discriminate|].
      destruct (array_index k) as [i|]; simpl in Hown; [|discriminate].
      apply list_elem_of_lookup_2, list_elem_of_In in Hown.
      apply (depth_item _ _ Hown).
    + apply (depth_assoc _ _ _ Hown).
  - destruct (get_inherited rt expression k) as [x|] eqn:Hin; simpl; [|discriminate].
    intros ->. unfold get_inherited in Hin.
    destruct expression; simpl in Hin;
      repeat match type of Hin with
             | context [builtin_prop ?a ?b ?c] => destruct (builtin_prop a b c)
             | context [inherited ?a ?b ?c] => destruct (inherited a b c)
             end; simpl in Hin; discriminate.
Qed.

End Depth.

Section Evaluate.

Import JS Engine Spec.
Context (rt : Runtime) (context : EvaluationContext) (rc : string -> compute value).
Context (I : ComputeState -> Prop) (Q : exn -> Prop).
Hypothesis Q_language : forall e, languageError e -> Q e.

Lemma established_cret {A} (a : A) st : I st -> established I Q (cret a st).
Proof. auto. Qed.

Lemma established_lift {A} (o : outcome A) st :
  raises Q o -> I st -> established I Q (lift o st).
Proof. destruct o; simpl; auto. Qed.

Lemma established_cbind {A B} (m : compute A) (f : A -> compute B) st :
  established I Q (m st) ->
  (forall a st', m st = Normal (a, st') -> I st' -> established I Q (f a st')) ->
  established I Q (cbind m f st).
Proof.
  unfold cbind. destruct (m st) as [[a st']|e]; simpl; auto.
Qed.

Lemma lift_normal {A} (o : outcome A) st a st' :
  lift o st = Normal (a, st') -> o = Normal a /\ st' = st.
Proof. destruct o; simpl; intros H; inversion H; auto. Qed.

Lemma established_cmap {A B} (f : A -> compute B) items : forall st,
  (forall x, In x items -> forall st, I st -> established I Q (f x st)) ->
  I st -> established I Q (cmap f items st).
Proof.
  induction items as [|x items IH]; intros st Hf HI; simpl; [exact HI|].
  apply established_cbind; [apply Hf; simpl; auto|].
  intros y st' _ HI'. apply established_cbind.
  - apply IH; [|exact HI']. intros x' Hx'. apply Hf. simpl; auto.
  - intros ys st'' _ HI''. exact HI''.
Qed.

Lemma get_as_array expression k items :
  get rt expression k ≫= as_array = Normal items ->
  lookup rt expression k = VArray items.
Proof.
  destruct expression; simpl; try discriminate;
    match goal with |- context [lookup ?r ?e ?k] => destruct (lookup r e k) end;
    simpl; intros H; inversion H; reflexivity.
Qed.

Lemma get_as_string expression k s :
  get rt expression k ≫= as_string = Normal s ->
  lookup rt expression k = VString s.
Proof.
  destruct expression; simpl; try discriminate;
    match goal with |- context [lookup ?r ?e ?k] => destruct (lookup r e k) end;
    simpl; intros H; inversion H; reflexivity.
Qed.

Lemma resolveVariable_returns variable ctx :
  exists v, resolveVariable rt variable ctx = Normal v.
Proof.
  unfold resolveVariable.
  destruct (Str.split "."%char variable) as [|scope pathParts]; [eauto|].
  repeat (case_match; [rewrite resolveScope_walk; eauto|]). eauto.
Qed.

Lemma evaluateComputeExpression_established fuel : forall expression st,
  (depth expression < fuel)%nat ->
  (forall key, mentions rt expression key ->
     forall st, I st -> established I Q (rc key st)) ->
  I st ->
  established I Q (evaluateComputeExpression_fuel rt fuel expression context rc st).
Proof.
  assert (Q_type : forall what, Q (TypeError what))
    by (intros what; apply Q_language; exact Logic.I).
  assert (Q_range : Q (RangeError "Invalid time value"))
    by (apply Q_language; reflexivity).
  induction fuel as [|fuel IH]; intros expression st Hd Hrc HI; [lia|].
  revert st HI.
  assert (Hargs : forall st, I st -> established I Q
    (cbind (lift (get rt expression "args" ≫= as_array))
       (fun args => cmap (fun arg =>
          evaluateComputeExpression_fuel rt fuel arg context rc) args) st)).
  { intros st HI. apply established_cbind.
    - apply established_lift; [|exact HI].
      apply raises_bind; [apply raises_get; exact Q_type|].
      intros v _. apply raises_as_array; exact Q_type.
    - intros args st' Hl HI'. apply lift_normal in Hl as [Hl _].
      apply get_as_array in Hl.
      apply established_cmap; [|exact HI'].
      intros arg Harg st'' HI''. apply IH; [| |exact HI''].
      + pose proof (lookup_array_depth rt _ _ _ Hl).
        pose proof (depth_item _ _ Harg). lia.
      + intros key Hm. apply Hrc. eapply mentions_arg; eauto. }
  assert (Hafter : forall st, I st -> established I Q
    (cbind (lift (has_property rt "op" expression))
       (fun hasOp : bool =>
          if hasOp then
            cbind (cbind (lift (get rt expression "args" ≫= as_array))
                     (fun args => cmap (fun arg =>
                        evaluateComputeExpression_fuel rt fuel arg context rc) args))
              (fun args => cbind (lift (get rt expression "op"))
                 (fun op => lift (applyArithmetic rt op args)))
          else cret expression) st)).
  { intros st HI. apply established_cbind.
    - apply established_lift; [apply raises_has_property; exact Q_type|exact HI].
    - intros hasOp st0 _ HI0.
      destruct hasOp; [|exact HI0].
      apply established_cbind; [exact (Hargs _ HI0)|].
      intros args st' _ HI'. apply established_cbind.
      + apply established_lift; [apply raises_get; exact Q_type|exact HI'].
      + intros op st'' _ HI''. apply established_lift; [|exact HI''].
        apply raises_applyArithmetic; exact Q_type. }
  intros st HI. cbn [evaluateComputeExpression_fuel]. cbv zeta.
  destruct (strict_equal rt expression VNull
            || negb (String.eqb (typeof rt expression) "object")); [exact HI|].
  apply established_cbind.
  { apply established_lift; [apply raises_has_property; exact Q_type|exact HI]. }
  intros hasVar st1 _ HI1. destruct hasVar.
  { apply established_cbind.
    { apply established_lift; [|exact HI1].
      apply raises_bind; [apply raises_get; exact Q_type|].
      intros v _. apply raises_as_string; exact Q_type. }
    intros var st2 Hvar HI2. apply lift_normal in Hvar as [Hvar _].
    apply get_as_string in Hvar.
    apply established_cbind; [exact HI2|].
    intros live st3 _ HI3. apply established_cbind.
    { apply established_lift; [|exact HI3].
      destruct (resolveVariable_returns var live) as [v ->]. exact Logic.I. }
    intros value st4 _ HI4.
    destruct (Str.startsWith "computed." var) eqn:Hs; simpl; [|exact HI4].
    destruct (strict_equal rt value VUndefined); [|exact HI4].
    apply Hrc; [|exact HI4]. apply mentions_var; assumption. }
  apply established_cbind.
  { apply established_lift; [apply raises_has_property; exact Q_type|exact HI1]. }
  intros hasValue st2 _ HI2. destruct hasValue.
  { apply established_lift; [apply raises_get; exact Q_type|exact HI2]. }
  apply established_cbind.
  { apply established_lift; [apply raises_has_property; exact Q_type|exact HI2]. }
  intros hasFunc st3 _ HI3. destruct hasFunc; [|exact (Hafter _ HI3)].
  apply established_cbind; [exact (Hargs _ HI3)|].
  intros args st4 _ HI4. apply established_cbind.
  { apply established_lift; [apply raises_get; exact Q_type|exact HI4]. }
  intros func st5 _ HI5.
  repeat case_match; try exact (Hafter _ HI5);
    (apply established_lift; [|exact HI5]).
  - apply raises_fmap, raises_normalizeTime; exact Q_type.
  - apply raises_fmap, raises_midpointTime; exact Q_type.
  - apply raises_fmap, raises_durationMinutes; exact Q_type.
  - apply raises_addDaysToDate; assumption.
Qed.

End Evaluate.

Section ComputeEngine.

Import JS Engine Spec.
Context (rt : Runtime).

Lemma assoc_set_eq k v props : assoc k (assoc_set k v props) = Some v.
Proof.
  induction props as [|[k' v'] props IH]; simpl.
  - rewrite String.eqb_refl. reflexivity.
  - destruct (String.eqb k k') eqn:E; simpl; rewrite ?String.eqb_refl, ?E; auto.
Qed.

Lemma assoc_set_ne k k' v props :
  k <> k' -> assoc k (assoc_set k' v props) = assoc k props.
Proof.
  intros Hne. apply String.eqb_neq in Hne.
  induction props as [|[k'' v''] props IH]; simpl.
  - rewrite Hne. reflexivity.
  - destruct (String.eqb k' k'') eqn:E; simpl.
    + apply String.eqb_eq in E. subst k''. rewrite Hne. reflexivity.
    + rewrite IH. reflexivity.
Qed.

Lemma has_object k props :
  has rt k (VObject props)
  = bool_decide (is_Some (assoc k props))
    || bool_decide (is_Some (get_inherited rt (VObject []) k)).
Proof. reflexivity. Qed.

Lemma has_false_assoc k props :
  has rt k (VObject props) = false -> assoc k props = None.
Proof.
  rewrite has_object. intros H. apply orb_false_iff in H as [H _].
  apply bool_decide_eq_false in H. destruct (assoc k props); [|reflexivity].
  exfalso. apply H. eauto.
Qed.

Lemma has_assoc_set_eq k v props : has rt k (VObject (assoc_set k v props)) = true.
Proof.
  rewrite has_object, assoc_set_eq. apply orb_true_iff. left.
  apply bool_decide_eq_true. eauto.
Qed.

Lemma has_assoc_set_ne k k' v props :
  k <> k' ->
  has rt k (VObject (assoc_set k' v props)) = has rt k (VObject props).
Proof. intros Hne. rewrite !has_object, assoc_set_ne by exact Hne. reflexivity. Qed.

Lemma has_extends k props props' :
  extends props props' ->
  has rt k (VObject props) = true -> has rt k (VObject props') = true.
Proof.
  intros Hext. rewrite !has_object, !orb_true_iff, !bool_decide_eq_true.
  intros [[v Hv]|H]; [left|right; exact H]. rewrite (Hext _ _ Hv). eauto.
Qed.

Lemma lookup_has_false k props :
  has rt k (VObject props) = false -> lookup rt (VObject props) k = VUndefined.
Proof.
  unfold has, lookup. intros H. apply orb_false_iff in H as [H1 H2].
  apply bool_decide_eq_false in H1, H2.
  destruct (get_own _ _); [exfalso; apply H1; eauto|].
  destruct (get_inherited _ _ _); [exfalso; apply H2; eauto|]. reflexivity.
Qed.

Lemma lookup_assoc_set k v props : lookup rt (VObject (assoc_set k v props)) k = v.
Proof. unfold lookup. simpl. rewrite assoc_set_eq. reflexivity. Qed.

Lemma extends_refl props : extends props props.
Proof. intros k v H. exact H. Qed.

Lemma extends_trans a b c : extends a b -> extends b c -> extends a c.
Proof. intros H1 H2 k v H. apply H2, H1, H. Qed.

Lemma definitionMap_lookup definitions d :
  In d definitions -> is_Some (definitionMap definitions !! cd_key d).
Proof.
  unfold definitionMap. generalize (∅ : gmap string ComputeDefinition).
  induction definitions as [|d' definitions IH]; intros m; simpl; [tauto|].
  intros [->|H]; [|apply IH; exact H].
  assert (Hkeep : forall l (m : gmap string ComputeDefinition) k,
            is_Some (m !! k) ->
            is_Some (foldl (fun m d => <[cd_key d := d]> m) m l !! k)).
  { clear. induction l as [|d l IH]; intros m k H; simpl; [exact H|].
    apply IH. destruct (decide (cd_key d = k)) as [->|Hne].
    - rewrite lookup_insert_eq. eauto.
    - rewrite lookup_insert_ne by exact Hne. exact H. }
  apply Hkeep. rewrite lookup_insert_eq. eauto.
Qed.

Section Resolve.
Context (definitions : list ComputeDefinition) (context : EvaluationContext).
Context (root : string).

Let dm := definitionMap definitions.
Let R := refers rt definitions.

Lemma resolveComputed_fuel_sound fuel : forall key st,
  visiting st ⊆ dom dm ->
  (size dm < fuel + size (visiting st))%nat ->
  unset rt st ->
  (forall k, k ∈ visiting st -> tc R k key) ->
  rtc R root key ->
  match resolveComputed_fuel rt definitions context fuel key st with
  | Normal (v, st') =>
      visiting st' = visiting st
      /\ unset rt st'
      /\ extends (computedValues st) (computedValues st')
      /\ v = lookup rt (VObject (computedValues st')) key
      /\ (is_Some (dm !! key) -> has rt key (VObject (computedValues st')) = true)
  | Throw e => computeError rt definitions root e
  end.
Proof.
  induction fuel as [|fuel IH]; intros key st Hsub Hsize Hunset Hreach Hroot.
  { apply subseteq_size in Hsub. rewrite size_dom in Hsub. lia. }
  cbn [resolveComputed_fuel]. cbn [has_property is_object mbind outcome_bind].
  destruct (has rt key (VObject (computedValues st))) eqn:Hfound.
  { cbn. repeat split; auto using extends_refl. }
  fold dm. destruct (dm !! key) as [d|] eqn:Hd.
  2:{ repeat split; auto using extends_refl.
      - symmetry. apply lookup_has_false, Hfound.
      - intros [? ?]; discriminate. }
  destruct (bool_decide (key ∈ visiting st)) eqn:Hvis.
  { apply bool_decide_eq_true in Hvis. right. exists key. auto. }
  apply bool_decide_eq_false in Hvis.
  set (V := visiting st) in *.
  set (I := fun st1 => visiting st1 = {[key]} ∪ V /\ unset rt st1
                       /\ extends (computedValues st) (computedValues st1)).
  assert (Hkey : key ∈ dom dm) by (apply elem_of_dom; eauto).
  assert (Hsub' : {[key]} ∪ V ⊆ dom dm).
  { apply union_subseteq. split; [apply singleton_subseteq_l, Hkey|exact Hsub]. }
  assert (Hsize' : (size dm < fuel + size ({[key]} ∪ V))%nat).
  { rewrite size_union, size_singleton by (apply disjoint_singleton_l, Hvis). lia. }
  assert (Hin : key ∈ {[key]} ∪ V) by (apply elem_of_union_l, elem_of_singleton; reflexivity).
  assert (Hrc : forall key', mentions rt (definition d) key' ->
            forall st1, I st1 ->
            established I (computeError rt definitions root)
              (resolveComputed_fuel rt definitions context fuel key' st1)).
  { intros key' Hm st1 (Hv1 & Hu1 & He1).
    assert (Hstep : R key key') by (exists d; auto).
    assert (Hpre := IH key' st1). rewrite Hv1 in Hpre.
    specialize (Hpre Hsub' Hsize' Hu1).
    destruct (resolveComputed_fuel rt definitions context fuel key' st1)
      as [[v st2]|e]; simpl.
    - destruct Hpre as (Hv2 & Hu2 & He2 & _).
      + intros k Hk. apply elem_of_union in Hk as [Hk|Hk].
        * apply elem_of_singleton in Hk as ->. apply tc_once, Hstep.
        * eapply tc_r; [apply Hreach, Hk|exact Hstep].
      + eapply rtc_r; [exact Hroot|exact Hstep].
      + repeat split; [congruence|exact Hu2|].
        eapply extends_trans; eassumption.
    - apply Hpre.
      + intros k Hk. apply elem_of_union in Hk as [Hk|Hk].
        * apply elem_of_singleton in Hk as ->. apply tc_once, Hstep.
        * eapply tc_r; [apply Hreach, Hk|exact Hstep].
      + eapply rtc_r; [exact Hroot|exact Hstep]. }
  pose proof (evaluateComputeExpression_established rt context
                (resolveComputed_fuel rt definitions context fuel) I
                (computeError rt definitions root)
                (fun e H => or_introl H)
                (S (depth (definition d))) (definition d)
                {| computedValues := computedValues st;
                   visiting := {[key]} ∪ V |}
                (Nat.lt_succ_diag_r _) Hrc) as Heval.
  unfold evaluateComputeExpression.
  destruct (evaluateComputeExpression_fuel _ _ _ _ _ _) as [[value st']|e];
    cbn in Heval |- *.
  2:{ apply Heval. repeat split; auto using extends_refl.
      intros k Hk. cbn in Hk |- *. apply elem_of_union in Hk as [Hk|Hk].
      - apply elem_of_singleton in Hk as ->. exact Hfound.
      - apply Hunset, Hk. }
  destruct Heval as (Hv' & Hu' & He').
  { repeat split; auto using extends_refl.
    intros k Hk. cbn in Hk |- *. apply elem_of_union in Hk as [Hk|Hk].
    - apply elem_of_singleton in Hk as ->. exact Hfound.
    - apply Hunset, Hk. }
  assert (Hnone : assoc key (computedValues st') = None).
  { apply has_false_assoc, Hu'. rewrite Hv'. exact Hin. }
  repeat split.
  - cbn. rewrite Hv'. apply set_eq. intros k.
    rewrite elem_of_difference, elem_of_union, elem_of_singleton. split.
    + intros [[->|Hk] Hne]; [exfalso; apply Hne; reflexivity|exact Hk].
    + intros Hk. split; [right; exact Hk|]. intros ->. exact (Hvis Hk).
  - intros k Hk. cbn in Hk |- *.
    apply elem_of_difference in Hk as [Hk Hne]. rewrite elem_of_singleton in Hne.
    rewrite has_assoc_set_ne by exact Hne. apply Hu', Hk.
  - intros k v Hk. cbn. specialize (He' _ _ Hk).
    rewrite assoc_set_ne; [exact He'|]. congruence.
  - cbn. symmetry. apply lookup_assoc_set.
  - intros _. cbn. apply has_assoc_set_eq.
Qed.

End Resolve.

Lemma forEach_resolveComputed definitions context : forall items st,
  incl items definitions ->
  visiting st = ∅ ->
  match forEach (fun d => resolveComputed rt definitions context (cd_key d)) items st with
  | Normal (_, st') =>
      visiting st' = ∅
      /\ extends (computedValues st) (computedValues st')
      /\ (forall d, In d items ->
            has rt (cd_key d) (VObject (computedValues st')) = true)
  | Throw e =>
      exists d, In d items /\ computeError rt definitions (cd_key d) e
  end.
Proof.
  induction items as [|d items IH]; intros st Hincl Hvis; simpl.
  { repeat split; auto using extends_refl. }
  unfold cbind at 1, resolveComputed.
  pose proof (resolveComputed_fuel_sound definitions context (cd_key d)
                (S (size (definitionMap definitions))) (cd_key d) st) as Hd.
  rewrite Hvis in Hd.
  destruct (resolveComputed_fuel _ _ _ _ _ _) as [[v st1]|e].
  2:{ exists d. split; [simpl; auto|]. apply Hd.
      - apply empty_subseteq.
      - rewrite size_empty. lia.
      - intros k Hk. rewrite Hvis in Hk. apply elem_of_empty in Hk as [].
      - intros k Hk. apply elem_of_empty in Hk as [].
      - apply rtc_refl. }
  destruct Hd as (Hv1 & Hu1 & He1 & _ & Hh1).
  { apply empty_subseteq. }
  { rewrite size_empty. lia. }
  { intros k Hk. rewrite Hvis in Hk. apply elem_of_empty in Hk as []. }
  { intros k Hk. apply elem_of_empty in Hk as []. }
  { apply rtc_refl. }
  specialize (IH st1 (fun x Hx => Hincl x (or_intror Hx)) Hv1).
  fold (resolveComputed rt definitions context) in IH |- *.
  destruct (forEach _ items st1) as [[u st2]|e].
  - destruct IH as (Hv2 & He2 & Hh2). repeat split; [exact Hv2| |].
    + eapply extends_trans; eassumption.
    + intros d' [<-|Hd']; [|apply Hh2, Hd'].
      eapply has_extends; [exact He2|]. apply Hh1.
      apply definitionMap_lookup, Hincl. simpl; auto.
  - destruct IH as (d' & Hd' & He). exists d'. split; [simpl; auto|exact He].
Qed.

Lemma computeDefinitions_outcome definitions context :
  match computeDefinitions rt definitions context with
  | Normal result =>
      extends (computed context) result
      /\ (forall d, In d definitions -> has rt (cd_key d) (VObject result) = true)
  | Throw e =>
      exists d, In d definitions /\ computeError rt definitions (cd_key d) e
  end.
Proof.
  unfold computeDefinitions.
  pose proof (forEach_resolveComputed definitions context definitions
                {| computedValues := computed context; visiting := ∅ |}
                (incl_refl _) eq_refl) as H.
  destruct (forEach _ _ _) as [[u st]|e]; simpl; [|exact H].
  destruct H as (_ & He & Hh). auto.
Qed.

End ComputeEngine.

(** The frame of [computeDefinitions].  When it returns, its result keeps
    every entry of the context's computed map with its value, and every
    definition key is [in] the result: it has an entry of its own unless it
    is a name that objects inherit. *)
Theorem computeDefinitions_frame (rt : Runtime)
    (definitions : list ComputeDefinition) (context : EvaluationContext)
    (result : list (string * value)) :
  Engine.computeDefinitions rt definitions context = Normal result ->
  Spec.extends (computed context) result
  /\ (forall d, In d definitions -> JS.has rt (cd_key d) (VObject result) = true)
  /\ (forall d, In d definitions ->
        JS.get_inherited rt (VObject []) (cd_key d) = None ->
        is_Some (JS.assoc (cd_key d) result)).
Proof.
  intros Hrun. pose proof (computeDefinitions_outcome rt definitions context) as H.
  rewrite Hrun in H. destruct H as [Hext Hhas].
  repeat split; [exact Hext|exact Hhas|].
  intros d Hd Hinh. specialize (Hhas d Hd).
  rewrite has_object, Hinh in Hhas. apply orb_true_iff in Hhas as [Hown|Hno].
  - apply bool_decide_eq_true in Hown. exact Hown.
  - apply bool_decide_eq_true in Hno. destruct Hno; discriminate.
Qed.

(** A body-mass index that the context brings is kept beside the sleep
    duration that is computed. *)
Lemma computeDefinitions_frame_witness :
  Spec.extends [("bmi", VNumber 22)]
    [("bmi", VNumber 22); ("sleep_duration", VNumber 480)]
  /\ (forall d,
        In d [{| cd_key := "sleep_duration"; cd_type := "number";
                 definition :=
                   VObject [("func", VString "duration");
                            ("args", VArray [VString "22:00"; VString "06:00"])] |}] ->
        JS.has Reference.runtime (cd_key d)
          (VObject [("bmi", VNumber 22); ("sleep_duration", VNumber 480)]) = true)
  /\ (forall d,
        In d [{| cd_key := "sleep_duration"; cd_type := "number";
                 definition :=
                   VObject [("func", VString "duration");
                            ("args", VArray [VString "22:00"; VString "06:00"])] |}] ->
        JS.get_inherited Reference.runtime (VObject []) (cd_key d) = None ->
        is_Some (JS.assoc (cd_key d)
                   [("bmi", VNumber 22); ("sleep_duration", VNumber 480)])).
Proof.
  apply (computeDefinitions_frame Reference.runtime _
           {| answers := []; computed := [("bmi", VNumber 22)]; metadata := [] |}).
  vm_compute. reflexivity.
Defined.

(** What [computeDefinitions] throws.  It is an error of an operation of the
    language (a [TypeError], or the [RangeError] of a date out of range), or
    the cycle error; and the key the cycle error names refers to itself
    through the [computed.] variables of the definitions, and is reached in
    that way from a definition of the list. *)
Theorem computeDefinitions_throws (rt : Runtime)
    (definitions : list ComputeDefinition) (context : EvaluationContext)
    (e : exn) :
  Engine.computeDefinitions rt definitions context = Throw e ->
  Spec.languageError e
  \/ exists key d,
       e = Error (Spec.cycleMessage key)
       /\ In d definitions
       /\ rtc (Spec.refers rt definitions) (cd_key d) key
       /\ tc (Spec.refers rt definitions) key key.
Proof.
  intros Hrun. pose proof (computeDefinitions_outcome rt definitions context) as H.
  rewrite Hrun in H. destruct H as (d & Hd & [Hl|(key & -> & Hcycle & Hreach)]).
  - left. exact Hl.
  - right. exists key, d. auto.
Qed.

(** The cycle between [a] and [b]: the error names [a], which refers to
    itself through [b]. *)
Lemma computeDefinitions_throws_witness :
  Spec.languageError (Error "Circular compute dependency detected for a")
  \/ exists key d,
       Error "Circular compute dependency detected for a"
         = Error (Spec.cycleMessage key)
       /\ In d [{| cd_key := "a"; cd_type := "number";
                   definition := VObject [("var", VString "computed.b")] |};
                {| cd_key := "b"; cd_type := "number";
                   definition := VObject [("var", VString "computed.a")] |}]
       /\ rtc (Spec.refers Reference.runtime
                 [{| cd_key := "a"; cd_type := "number";
                     definition := VObject [("var", VString "computed.b")] |};
                  {| cd_key := "b"; cd_type := "number";
                     definition := VObject [("var", VString "computed.a")] |}])
              (cd_key d) key
       /\ tc (Spec.refers Reference.runtime
                [{| cd_key := "a"; cd_type := "number";
                    definition := VObject [("var", VString "computed.b")] |};
                 {| cd_key := "b"; cd_type := "number";
                    definition := VObject [("var", VString "computed.a")] |}])
             key key.
Proof.
  apply (computeDefinitions_throws Reference.runtime _ Examples.emptyContext).
  vm_compute. reflexivity.
Defined.

(** [computeDefinitions] stays within the bound the model puts on the
    nesting of its calls, which is the number of definitions for
    [resolveComputed] and the depth of the expression for the evaluator:
    the only [RangeError] it throws is that of a date out of range. *)
Theorem computeDefinitions_bounded (rt : Runtime)
    (definitions : list ComputeDefinition) (context : EvaluationContext) :
  match Engine.computeDefinitions rt definitions context with
  | Throw (RangeError what) => what = "Invalid time value"
  | _ => True
  end.
Proof.
  pose proof (computeDefinitions_outcome rt definitions context) as H.
  destruct (Engine.computeDefinitions rt definitions context) as [result|e];
    [exact I|].
  destruct H as (d & _ & [Hl|(key & -> & _)]); [|exact I].
  destruct e; try exact I. exact Hl.
Qed.

Section IntakeCompute.

Import JS Engine Store Handlers Spec.
Context (rt : Runtime).

(** An intake whose compute phase throws.  Once the answers have passed
    validation, if [computeDefinitions] throws on the published definitions
    of the study, the request is answered once, 400 with the message of that
    error; the submission row stays written, and no computed value, rule
    evaluation, assignment, schedule plan or audit record is. *)
Theorem intake_compute_failure (request : Request) (env : Env)
    (studyId participantId submissionTime auditTime : string)
    (body : IntakeBody) (db : D1Database) (template : FormTemplateRow) (e : exn) :
  parseBody rt request = Normal body ->
  DB env = Some db ->
  findTemplate (form_template_id body) studyId db = Some template ->
  valid (validateAnswers rt (templateFields (form_template_id body) db)
           (body_answers body)) = true ->
  computeDefinitions rt (computeDefinitionsList rt studyId db)
    {| answers := body_answers body; computed := [];
       metadata := intakeMetadata studyId participantId body
                     (next_id fs_id (form_submissions db)) submissionTime |}
  = Throw e ->
  exists db',
    handleIntakeSubmit rt request env studyId participantId submissionTime auditTime
    = (jsonResponse (CaughtPayload e) 400, {| DB := Some db' |})
    /\ form_submissions db'
       = form_submissions db
         ++ [submissionRow studyId participantId body submissionTime db]
    /\ computed_values db' = computed_values db
    /\ rule_evaluations db' = rule_evaluations db
    /\ participant_assignments db' = participant_assignments db
    /\ schedule_plans db' = schedule_plans db
    /\ audit_logs db' = audit_logs db.
Proof.
  intros Hbody Hdb Htemplate Hvalid Hthrow.
  unfold handleIntakeSubmit. rewrite Hbody, Hdb, Htemplate. cbv zeta.
  rewrite Hvalid. cbn [negb].
  unfold submitValidated. unfold hbind at 1, run at 1. cbn [insert_form_submission].
  unfold hbind at 1, query at 1. cbv zeta.
  unfold hbind at 1, hlift at 1.
  change (computeDefinitionsList rt studyId _)
    with (computeDefinitionsList rt studyId db).
  rewrite Hthrow.
  eexists. split; [reflexivity|]. repeat split.
Qed.

End IntakeCompute.

(** The study whose definitions [a] and [b] refer to each other: the intake
    of an adult is answered 400 with the cycle error, and no computed value
    is written. *)
Lemma intake_compute_failure_witness :
  exists db',
    Handlers.handleIntakeSubmit Reference.runtime Examples.adultRequest
      {| DB := Some Examples.cyclicStudy |} "study-42" "participant-007"
      "2026-02-13T08:00:00.000Z" "2026-02-13T08:00:00.001Z"
    = (Handlers.jsonResponse
         (CaughtPayload (Error "Circular compute dependency detected for a")) 400,
       {| DB := Some db' |})
    /\ computed_values db' = [].
Proof.
  destruct (intake_compute_failure Reference.runtime Examples.adultRequest
              {| DB := Some Examples.cyclicStudy |} "study-42" "participant-007"
              "2026-02-13T08:00:00.000Z" "2026-02-13T08:00:00.001Z"
              {| form_template_id := 1;
                 body_answers := [("age", VNumber 24); ("sleep_start", VString "22:00");
                                  ("sleep_end", VString "06:00")];
                 body_metadata := None |}
              Examples.cyclicStudy
              {| ft_id := 1; ft_study_id := "study-42"; ft_name := "Baseline intake";
                 ft_version := 1; ft_status := "published";
                 ft_created_at := "2026-01-01" |}
              (Error "Circular compute dependency detected for a"))
    as (db' & Hrun & _ & Hcv & _); try (vm_compute; reflexivity).
  exists db'. split; [exact Hrun|exact Hcv].
Defined.

Section Arithmetic.

Import JS Engine Spec.
Context (rt : Runtime).

Lemma mapM_ext {A B} (f g : A -> outcome B) items :
  (forall x, f x = g x) -> mapM f items = mapM g items.
Proof.
  intros H. induction items as [|x items IH]; simpl; [reflexivity|].
  rewrite H, IH. reflexivity.
Qed.

Lemma existsb_negb_forallb {A} (p : A -> bool) items :
  forallb p items = true -> existsb (fun x => negb (p x)) items = false.
Proof.
  induction items as [|x items IH]; simpl; [reflexivity|].
  intros H. apply andb_true_iff in H as [-> H]. simpl. apply IH, H.
Qed.

Lemma forallb_existsb_negb {A} (p : A -> bool) items :
  forallb p items = false -> existsb (fun x => negb (p x)) items = true.
Proof.
  induction items as [|x items IH]; simpl; [discriminate|].
  destruct (p x); simpl; auto.
Qed.


End Arithmetic.


Section TimeFormat.

Import JS Engine Spec.
Context (rt : Runtime).

Lemma wholeMinutes_reformat : reformats Reference.runtime wholeMinutes = true.
Proof. vm_compute. reflexivity. Qed.

Lemma reformats_spec (table : list float) (x : float) :
  reformats Reference.runtime table = true ->
  In x table ->
  match parseTimeToMinutes rt (VString (formatMinutes x)) with
  | Normal (Some y) =>
      String.eqb (formatMinutes y) (formatMinutes x) && (y <? 24 * 60)%float
      && (String.length (formatMinutes x) =? 5)%nat
  | _ => false
  end = true.
Proof.
  unfold reformats. intros H Hx. rewrite forallb_forall in H.
  exact (H x Hx).
Qed.

(** [normalize_time] on whole minutes.  For an input whose parsed minutes
    are a whole number from 0 to 6039, the result is a text of five
    characters that parses to minutes below [24 * 60], and normalising it
    again gives it back. *)
Theorem normalizeTime_idempotent_whole_minutes (v : value) (x : float) :
  parseTimeToMinutes rt v = Normal (Some x) ->
  In x wholeMinutes ->
  exists s y,
    normalizeTime rt v = Normal (Some s)
    /\ String.length s = 5%nat
    /\ parseTimeToMinutes rt (VString s) = Normal (Some y)
    /\ (y <? 24 * 60)%float = true
    /\ normalizeTime rt (VString s) = Normal (Some s).
Proof.
  intros Hv Hx.
  pose proof (reformats_spec wholeMinutes x wholeMinutes_reformat Hx) as H.
  destruct (parseTimeToMinutes rt (VString (formatMinutes x)))
    as [[y|]|] eqn:Hy; try discriminate.
  apply andb_true_iff in H as [H Hlen]. apply andb_true_iff in H as [Hfmt Hlt].
  apply String.eqb_eq in Hfmt. apply Nat.eqb_eq in Hlen.
  exists (formatMinutes x), y. unfold normalizeTime. rewrite Hv, Hy. simpl.
  rewrite Hfmt. auto.
Qed.

End TimeFormat.

(** ["7:05"] is normalised to ["07:05"], which is its own normal form. *)
Lemma normalizeTime_idempotent_whole_minutes_witness :
  exists s y,
    Engine.normalizeTime Reference.runtime (VString "7:05") = Normal (Some s)
    /\ String.length s = 5%nat
    /\ Engine.parseTimeToMinutes Reference.runtime (VString s) = Normal (Some y)
    /\ (y <? 24 * 60)%float = true
    /\ Engine.normalizeTime Reference.runtime (VString s) = Normal (Some s).
Proof.
  apply (normalizeTime_idempotent_whole_minutes Reference.runtime
           (VString "7:05") 425).
  - reflexivity.
  - apply (in_map (fun n => Num.of_Z (Z.of_nat n)) _ 425%nat), in_seq. lia.
Defined.

Section Recompute.

Import JS Engine Spec.
Context (rt : Runtime).

Lemma forEach_found definitions context items st :
  (forall d, In d items ->
     has rt (cd_key d) (VObject (computedValues st)) = true) ->
  forEach (fun d => resolveComputed rt definitions context (cd_key d)) items st
  = Normal (tt, st).
Proof.
  induction items as [|d items IH]; intros Hhas; simpl; [reflexivity|].
  unfold cbind at 1, resolveComputed. cbn [resolveComputed_fuel].
  cbn [has_property is_object mbind outcome_bind].
  rewrite (Hhas d) by (simpl; auto). cbn.
  apply IH. intros d' Hd'. apply Hhas. simpl; auto.
Qed.

(** [computeDefinitions] run again.  On the context whose computed map is
    the result of a first run, a second run returns that result unchanged. *)
Theorem computeDefinitions_idempotent (definitions : list ComputeDefinition)
    (context : EvaluationContext) (result : list (string * value)) :
  computeDefinitions rt definitions context = Normal result ->
  computeDefinitions rt definitions
    {| answers := answers context; computed := result;
       metadata := metadata context |}
  = Normal result.
Proof.
  intros Hrun. pose proof (computeDefinitions_outcome rt definitions context) as H.
  rewrite Hrun in H. destruct H as [_ Hhas].
  unfold computeDefinitions. rewrite forEach_found by exact Hhas. reflexivity.
Qed.

End Recompute.

(** The sleep duration, computed once, is kept by a second run. *)
Lemma computeDefinitions_idempotent_witness :
  Engine.computeDefinitions Reference.runtime
    [{| cd_key := "sleep_duration"; cd_type := "number";
        definition :=
          VObject [("func", VString "duration");
                   ("args", VArray [VString "22:00"; VString "06:00"])] |}]
    {| answers := []; computed := [("sleep_duration", VNumber 480)]; metadata := [] |}
  = Normal [("sleep_duration", VNumber 480)].
Proof.
  apply (computeDefinitions_idempotent Reference.runtime _ Examples.emptyContext).
  vm_compute. reflexivity.
Defined.

(** ** The rows an intake writes *)

(** [keep part H]: the stage [H] of a handler run leaves [part] alone;
    [stage H] records this for every table it holds of. *)
Ltac keep part H :=
  let K := fresh "K" in
  match type of H with
  | ?m ?d = (?o, ?d') =>
      assert (K : part d' = part d)
        by (let Hq := fresh in
            assert (Hq : Spec.preserves part m) by frame; exact (Hq _ _ _ H))
  end.

Ltac stage H :=
  try keep form_templates H; try keep form_fields H;
  try keep compute_definitions H; try keep rule_sets H;
  try keep form_submissions H; try keep computed_values H;
  try keep rule_evaluations H; try keep participant_assignments H;
  try keep schedule_plans H; try keep audit_logs H.

Section IntakeRows.

Import JS Engine Store Handlers Spec.
Context (rt : Runtime).

Lemma computedLoop_rows (row : ComputeDefinition -> Z -> ComputedValueRow)
    (definitions : list ComputeDefinition) : forall db o db',
  for_of definitions
    (fun _ definition =>
       _ <~ run (insert_computed_value (row definition)) ;; hret tt) tt db
  = (o, db') ->
  o = Normal tt
  /\ exists ids,
       computed_values db'
       = computed_values db
         ++ List.map (fun p => row (fst p) (snd p)) (combine definitions ids)
       /\ List.length ids = List.length definitions.
Proof.
  induction definitions as [|d definitions IH]; intros db o db' H; simpl in H.
  - injection H as <- <-. split; [reflexivity|]. exists []. rewrite app_nil_r. auto.
  - unfold hbind at 1 in H. unfold hbind at 1, run at 1 in H.
    cbn [insert_computed_value] in H. cbn [hret] in H.
    apply IH in H as (-> & ids & Hrows & Hlen). split; [reflexivity|].
    exists (next_id cv_id (computed_values db) :: ids). cbn in Hrows |- *.
    rewrite Hrows, <- app_assoc. split; [reflexivity|]. lia.
Qed.

Lemma ruleLoop_rows ruleContext submissionId submissionTime rules :
  forall acc db loop db',
    for_of rules (ruleStep rt ruleContext submissionId submissionTime) acc db
      = (Normal loop, db') ->
    exists rows,
      rule_evaluations db' = rule_evaluations db ++ rows
      /\ Forall2 (records rt ruleContext submissionId submissionTime) rules rows
      /\ evaluations loop = evaluations acc ++ List.map re_result_json rows
      /\ loop_assignments loop
         = loop_assignments acc ++ flat_map (ruleAssignments rt ruleContext) rules.
Proof.
  induction rules as [|rule rules IH]; intros acc db loop db' H; simpl in H.
  - injection H as <- <-. exists []. rewrite !app_nil_r. auto.
  - apply hbind_normal in H as (acc' & db1 & Hstep & Hrest).
    destruct (IH _ _ _ _ Hrest) as (rows & Hrows & Hrec & Hev & Has).
    unfold ruleStep in Hstep.
    apply hbind_normal in Hstep as ([resolved matched] & db0 & Hm & Hstep).
    injection Hm as Hm <-.
    apply hbind_normal in Hstep as (u & db2 & Hins & Hstep).
    injection Hstep as <- <-. injection Hins as _ <-.
    cbn in Hrows, Hev, Has.
    eexists (_ :: rows). split; [|split; [|split]].
    + rewrite Hrows, <- app_assoc. reflexivity.
    + constructor; [|exact Hrec]. repeat split; cbn. exists resolved. auto.
    + rewrite Hev, <- app_assoc. reflexivity.
    + rewrite Has, <- app_assoc. f_equal. cbn [flat_map]. f_equal.
      unfold ruleAssignments. rewrite Hm. destruct matched; cbn; [|reflexivity].
      destruct (String.eqb (rs_rule_type rule) "group_assignment");
        [|reflexivity].
      destruct (rr_assignment resolved) as [[k v]|]; reflexivity.
Qed.

Lemma assignmentLoop_rows (row : Assignment -> Z -> ParticipantAssignmentRow)
    (items : list Assignment) : forall db o db',
  for_of items
    (fun _ assignment =>
       _ <~ run (insert_participant_assignment (row assignment)) ;; hret tt) tt db
  = (o, db') ->
  o = Normal tt
  /\ exists ids,
       participant_assignments db'
       = participant_assignments db
         ++ List.map (fun p => row (fst p) (snd p)) (combine items ids)
       /\ List.length ids = List.length items.
Proof.
  induction items as [|x items IH]; intros db o db' H; simpl in H.
  - injection H as <- <-. split; [reflexivity|]. exists []. rewrite app_nil_r. auto.
  - unfold hbind at 1 in H. unfold hbind at 1, run at 1 in H.
    cbn [insert_participant_assignment] in H. cbn [hret] in H.
    apply IH in H as (-> & ids & Hrows & Hlen). split; [reflexivity|].
    exists (next_id pa_id (participant_assignments db) :: ids). cbn in Hrows |- *.
    rewrite Hrows, <- app_assoc. split; [reflexivity|]. lia.
Qed.

Lemma submitValidated_rows studyId participantId body submissionTime auditTime
    db envelope db' :
  submitValidated rt studyId participantId body submissionTime auditTime db
    = (Normal envelope, db') ->
  let sid := next_id fs_id (form_submissions db) in
  let definitions := computeDefinitionsList rt studyId db in
  let metadata := intakeMetadata studyId participantId body sid submissionTime in
  let ruleContext :=
    {| answers := body_answers body; computed := env_computed envelope;
       metadata := metadata |} in
  let rules := publishedRules studyId db in
  submission_id envelope = sid
  /\ computeDefinitions rt definitions
       {| answers := body_answers body; computed := []; metadata := metadata |}
     = Normal (env_computed envelope)
  /\ (form_templates db' = form_templates db
      /\ form_fields db' = form_fields db
      /\ compute_definitions db' = compute_definitions db
      /\ rule_sets db' = rule_sets db)
  /\ form_submissions db'
     = form_submissions db
       ++ [submissionRow studyId participantId body submissionTime db]
  /\ (exists ids,
        computed_values db'
        = computed_values db
          ++ List.map (fun p =>
               {| cv_id := snd p; cv_submission_id := sid;
                  cv_key := cd_key (fst p);
                  cv_value_json :=
                    lookup rt (VObject (env_computed envelope)) (cd_key (fst p));
                  cv_computed_at := submissionTime |}) (combine definitions ids)
        /\ List.length ids = List.length definitions)
  /\ (exists rows,
        rule_evaluations db' = rule_evaluations db ++ rows
        /\ Forall2 (records rt ruleContext sid submissionTime) rules rows
        /\ rule_evaluations_of envelope = List.map re_result_json rows)
  /\ assignments envelope = flat_map (ruleAssignments rt ruleContext) rules
  /\ (exists ids,
        participant_assignments db'
        = participant_assignments db
          ++ List.map (fun p =>
               {| pa_id := snd p; pa_participant_id := participantId;
                  pa_study_id := studyId;
                  pa_group_key := as_group_key (fst p);
                  pa_group_value := as_group_value (fst p);
                  pa_assigned_at := submissionTime |})
               (combine (assignments envelope) ids)
        /\ List.length ids = List.length (assignments envelope))
  /\ audit_logs db'
     = audit_logs db
       ++ [{| al_id := next_id al_id (audit_logs db);
              al_study_id := Some studyId;
              al_participant_id := Some participantId;
              al_action := "intake_submitted";
              al_entity_type := "form_submission";
              al_entity_id := Some (Str.of_Z sid);
              al_detail_json :=
                {| ad_form_template_id := form_template_id body;
                   ad_computed_keys := List.map cd_key definitions;
                   ad_rule_count := List.length rules |};
              al_created_at := auditTime |}].
Proof.
  intros E sid definitions metadata ruleContext rules.
  unfold submitValidated in E.
  apply hbind_normal in E as (sid0 & db1 & H1 & E).
  apply hbind_normal in E as (defs & db2 & H2 & E).
  apply hbind_normal in E as (cvs & db3 & H3 & E).
  apply hbind_normal in E as (u4 & db4 & H4 & E).
  apply hbind_normal in E as (rules0 & db5 & H5 & E).
  apply hbind_normal in E as (loop & db6 & H6 & E).
  apply hbind_normal in E as (u7 & db7 & H7 & E).
  apply hbind_normal in E as (spp & db8 & H8 & E).
  apply hbind_normal in E as (u9 & db9 & H9 & E).
  injection E as <- <-. cbn [submission_id env_computed rule_evaluations_of assignments] in *.
  stage H1. stage H2. stage H3. stage H4. stage H5. stage H6. stage H7.
  stage H8. stage H9.
  assert (Hsid : sid0 = sid) by (injection H1 as <- _; reflexivity).
  assert (Hsub : form_submissions db1
                 = form_submissions db
                   ++ [submissionRow studyId participantId body submissionTime db])
    by (injection H1 as _ <-; reflexivity).
  assert (Hdefs : defs = definitions).
  { injection H2 as <- _. unfold definitions, computeDefinitionsList.
    match goal with K : compute_definitions db1 = _ |- _ => rewrite K end.
    reflexivity. }
  assert (Hcvs : computeDefinitions rt defs
                   {| answers := body_answers body; computed := [];
                      metadata := intakeMetadata studyId participantId body sid0
                                    submissionTime |} = Normal cvs)
    by (injection H3 as -> _; reflexivity).
  apply computedLoop_rows in H4 as (_ & cids & Hcv & Hclen).
  assert (Hrules : rules0 = rules).
  { injection H5 as <- _. apply publishedRules_ext. congruence. }
  apply ruleLoop_rows in H6 as (rows & Hre & Hrec & Hev & Has).
  apply assignmentLoop_rows in H7 as (_ & aids & Hpa & Halen).
  assert (Haudit : audit_logs db9
                   = audit_logs db8
                     ++ [{| al_id := next_id al_id (audit_logs db8);
                            al_study_id := Some studyId;
                            al_participant_id := Some participantId;
                            al_action := "intake_submitted";
                            al_entity_type := "form_submission";
                            al_entity_id := Some (Str.of_Z sid0);
                            al_detail_json :=
                              {| ad_form_template_id := form_template_id body;
                                 ad_computed_keys := List.map cd_key defs;
                                 ad_rule_count := List.length (evaluations loop) |};
                            al_created_at := auditTime |}]).
  { unfold logAudit in H9. unfold hbind at 1, run at 1 in H9.
    cbn [insert_audit_log hret] in H9. injection H9 as _ <-. reflexivity. }
  subst sid0 defs rules0. cbn [evaluations loop_assignments app] in Hev, Has.
  fold metadata in Hcvs, Hrec, Has. fold ruleContext in Hrec, Has.
  assert (Hcount : List.length (evaluations loop) = List.length rules).
  { rewrite Hev, length_map. symmetry. exact (Forall2_length _ _ _ Hrec). }
  split; [reflexivity|]. split; [exact Hcvs|].
  split; [repeat split; congruence|].
  split; [congruence|].
  split; [exists cids; split; [congruence|exact Hclen]|].
  split; [exists rows; split; [congruence|split; [exact Hrec|exact Hev]]|].
  split; [exact Has|].
  split; [exists aids; split; [congruence|exact Halen]|].
  assert (Hlogs : audit_logs db8 = audit_logs db) by congruence.
  rewrite Haudit, Hcount, Hlogs. reflexivity.
Qed.

Lemma handleIntakeSubmit_envelope request env env' studyId participantId
    submissionTime auditTime body db envelope :
  parseBody rt request = Normal body ->
  DB env = Some db ->
  handleIntakeSubmit rt request env studyId participantId submissionTime auditTime
    = (jsonResponse (EnvelopePayload envelope) 201, env') ->
  exists db',
    env' = {| DB := Some db' |}
    /\ submitValidated rt studyId participantId body submissionTime auditTime db
       = (Normal envelope, db').
Proof.
  intros Hbody Hdb H. unfold handleIntakeSubmit in H. rewrite Hbody, Hdb in H.
  destruct (findTemplate _ _ _); [|discriminate H].
  destruct (negb _); [discriminate H|].
  destruct (submitValidated rt _ _ _ _ _ db) as [[envelope0|error] db'];
    [|discriminate H].
  injection H as <- <-. eauto.
Qed.





End IntakeRows.

Section IntakeGuard.

Import JS Engine Store Handlers Spec.
Context (rt : Runtime).

(** An intake writes only after validation.  If [handleIntakeSubmit] leaves
    the store other than it found it, then the body parsed, the template it
    names is one of the study, and the answers passed validation. *)
Theorem intake_writes_only_when_valid (request : Request) (env : Env)
    (studyId participantId submissionTime auditTime : string) :
  snd (handleIntakeSubmit rt request env studyId participantId submissionTime
         auditTime) <> env ->
  exists body db template,
    parseBody rt request = Normal body
    /\ DB env = Some db
    /\ In template (form_templates db)
    /\ ft_study_id template = studyId
    /\ Num.to_Z (form_template_id body) = Some (ft_id template)
    /\ valid (validateAnswers rt (templateFields (form_template_id body) db)
               (body_answers body)) = true.
Proof.
  unfold handleIntakeSubmit. intros H.
  destruct (parseBody rt request) as [body|e]; [|contradiction].
  destruct (DB env) as [db|] eqn:Hdb; [|contradiction].
  destruct (findTemplate (form_template_id body) studyId db) as [template|] eqn:Ht;
    [|contradiction].
  cbv zeta in H.
  destruct (valid _) eqn:Hv; [|contradiction].
  exists body, db, template. unfold findTemplate in Ht.
  apply find_some in Ht as [Hin Ht]. apply andb_true_iff in Ht as [Hid Hs].
  apply bool_decide_eq_true in Hid. apply String.eqb_eq in Hs. auto 10.
Qed.

End IntakeGuard.

(** The intake of an adult into the sleep study writes, and it is valid. *)
Lemma intake_writes_only_when_valid_witness :
  exists body db template,
    Handlers.parseBody Reference.runtime Examples.adultRequest = Normal body
    /\ DB {| DB := Some Examples.sleepStudy |} = Some db
    /\ In template (form_templates db)
    /\ ft_study_id template = "study-42"
    /\ Num.to_Z (form_template_id body) = Some (ft_id template)
    /\ Engine.valid
         (Engine.validateAnswers Reference.runtime
            (Handlers.templateFields (form_template_id body) db)
            (body_answers body)) = true.
Proof.
  apply (intake_writes_only_when_valid Reference.runtime Examples.adultRequest
           {| DB := Some Examples.sleepStudy |} "study-42" "participant-007"
           "2026-02-13T08:00:00.000Z" "2026-02-13T08:00:00.001Z").
  vm_compute. discriminate.
Defined.





Section Connectives.

Import JS Engine Spec.
Context (rt : Runtime) (context : EvaluationContext).
Hypothesis Hplain : noInheritedNot rt.

Lemma every_ext_in {A} (f g : A -> outcome bool) items :
  (forall x, In x items -> f x = g x) -> every f items = every g items.
Proof.
  induction items as [|x items IH]; intros H; simpl; [reflexivity|].
  rewrite (H x) by (simpl; auto). destruct (g x) as [[|]|]; simpl; auto.
  apply IH. intros y Hy. apply H. simpl; auto.
Qed.

Lemma some_ext_in {A} (f g : A -> outcome bool) items :
  (forall x, In x items -> f x = g x) -> some f items = some g items.
Proof.
  induction items as [|x items IH]; intros H; simpl; [reflexivity|].
  rewrite (H x) by (simpl; auto). destruct (g x) as [[|]|]; simpl; auto.
  apply IH. intros y Hy. apply H. simpl; auto.
Qed.

Lemma has_not_own expression :
  has rt "not" expression = true ->
  exists props child,
    expression = VObject props /\ assoc "not" props = Some child
    /\ lookup rt expression "not" = child.
Proof.
  destruct Hplain as [Hp Hb].
  unfold has, lookup. intros H. apply orb_true_iff in H as [H|H];
    apply bool_decide_eq_true in H; destruct H as [x H].
  - destruct expression as [| | b | y | s | items | props | t | b];
      cbn [get_own] in H |- *; try discriminate.
    exists props, x. rewrite H. auto.
  - exfalso. unfold get_inherited in H.
    destruct expression; simpl in H; rewrite ?Hp, ?Hb in H; discriminate.
Qed.

Lemma evaluateExpression_fuel_stable n : forall m expression,
  (depth expression < n)%nat -> (depth expression < m)%nat ->
  evaluateExpression_fuel rt n expression context
  = evaluateExpression_fuel rt m expression context.
Proof.
  induction n as [|n IH]; intros m expression Hn Hm; [lia|].
  destruct m as [|m]; [lia|].
  cbn [evaluateExpression_fuel].
  assert (Hchildren : forall k children child,
            get rt expression k ≫= as_array = Normal children ->
            In child children ->
            evaluateExpression_fuel rt n child context
            = evaluateExpression_fuel rt m child context).
  { intros k children child Hget Hin. apply get_as_array in Hget.
    pose proof (lookup_array_depth rt _ _ _ Hget).
    pose proof (depth_item _ _ Hin). apply IH; lia. }
  destruct (has_property rt "all" expression) as [[|]|]; cbn; [| |reflexivity].
  { destruct (get rt expression "all" ≫= as_array) as [children|] eqn:E;
      cbn; [|reflexivity].
    apply every_ext_in. intros child Hin. exact (Hchildren _ _ _ E Hin). }
  destruct (has_property rt "any" expression) as [[|]|]; cbn; [| |reflexivity].
  { destruct (get rt expression "any" ≫= as_array) as [children|] eqn:E;
      cbn; [|reflexivity].
    apply some_ext_in. intros child Hin. exact (Hchildren _ _ _ E Hin). }
  destruct (has_property rt "not" expression) as [[|]|] eqn:Hnot; cbn;
    [| reflexivity | reflexivity].
  unfold has_property in Hnot. destruct (is_object expression); [|discriminate].
  injection Hnot as Hnot.
  destruct (has_not_own _ Hnot) as (props & child & -> & Hassoc & Hlook).
  cbn [get]. rewrite Hlook. cbn.
  pose proof (depth_assoc _ _ _ Hassoc). rewrite (IH m child) by lia. reflexivity.
Qed.

Lemma evaluateExpression_child child fuel :
  (depth child < fuel)%nat ->
  evaluateExpression_fuel rt fuel child context = evaluateExpression rt child context.
Proof.
  intros H. unfold evaluateExpression. apply evaluateExpression_fuel_stable; lia.
Qed.

(** The connectives of the expression evaluator.  An object with an [all]
    array is true when every child is, evaluated left to right up to the
    first that is false; one without [all] and with an [any] array is true
    when some child is, up to the first that is true; one with neither and
    with a [not] is the negation of its child.  [all] has precedence over
    [any], and [any] over [not]. *)
Theorem evaluateExpression_all_any_not (expression : value) :
  is_object expression = true ->
  (has rt "all" expression = true ->
   forall children,
     lookup rt expression "all" = VArray children ->
     evaluateExpression rt expression context
     = every (fun child => evaluateExpression rt child context) children)
  /\ (has rt "all" expression = false ->
      has rt "any" expression = true ->
      forall children,
        lookup rt expression "any" = VArray children ->
        evaluateExpression rt expression context
        = some (fun child => evaluateExpression rt child context) children)
  /\ (has rt "all" expression = false ->
      has rt "any" expression = false ->
      has rt "not" expression = true ->
      evaluateExpression rt expression context
      = negb <$> evaluateExpression rt (lookup rt expression "not") context).
Proof.
  intros Hobj.
  assert (Hget : forall k, get rt expression k = Normal (lookup rt expression k)).
  { intros k. destruct expression; try discriminate Hobj; reflexivity. }
  split; [|split].
  - intros Hall children Hl. unfold evaluateExpression at 1.
    cbn [evaluateExpression_fuel]. unfold has_property. rewrite Hobj, Hall. cbn.
    rewrite Hget, Hl. cbn. apply every_ext_in. intros child Hin.
    apply evaluateExpression_child.
    pose proof (lookup_array_depth rt _ _ _ Hl). pose proof (depth_item _ _ Hin). lia.
  - intros Hall Hany children Hl. unfold evaluateExpression at 1.
    cbn [evaluateExpression_fuel]. unfold has_property. rewrite Hobj, Hall. cbn.
    rewrite Hany. cbn. rewrite Hget, Hl. cbn. apply some_ext_in. intros child Hin.
    apply evaluateExpression_child.
    pose proof (lookup_array_depth rt _ _ _ Hl). pose proof (depth_item _ _ Hin). lia.
  - intros Hall Hany Hnot. unfold evaluateExpression at 1.
    cbn [evaluateExpression_fuel]. unfold has_property. rewrite Hobj, Hall. cbn.
    rewrite Hany. cbn. rewrite Hnot. cbn. rewrite Hget. cbn.
    destruct (has_not_own _ Hnot) as (props & child & -> & Hassoc & ->).
    rewrite evaluateExpression_child; [reflexivity|].
    pose proof (depth_assoc _ _ _ Hassoc). lia.
Qed.

Lemma every_false {A} (f : A -> outcome bool) before x after :
  Forall (fun y => f y = Normal true) before ->
  f x = Normal false ->
  every f (before ++ x :: after) = Normal false.
Proof.
  intros Hb Hx. induction Hb as [|y before Hy Hb IH]; simpl.
  - rewrite Hx. reflexivity.
  - rewrite Hy. simpl. exact IH.
Qed.

Lemma some_true {A} (f : A -> outcome bool) before x after :
  Forall (fun y => f y = Normal false) before ->
  f x = Normal true ->
  some f (before ++ x :: after) = Normal true.
Proof.
  intros Hb Hx. induction Hb as [|y before Hy Hb IH]; simpl.
  - rewrite Hx. reflexivity.
  - rewrite Hy. simpl. exact IH.
Qed.

Lemma every_true {A} (f : A -> outcome bool) items :
  Forall (fun y => f y = Normal true) items -> every f items = Normal true.
Proof.
  intros H. induction H as [|y items Hy H IH]; simpl; [reflexivity|].
  rewrite Hy. simpl. exact IH.
Qed.

Lemma some_false {A} (f : A -> outcome bool) items :
  Forall (fun y => f y = Normal false) items -> some f items = Normal false.
Proof.
  intros H. induction H as [|y items Hy H IH]; simpl; [reflexivity|].
  rewrite Hy. simpl. exact IH.
Qed.

(** The connectives stop at the first child that decides.  An [all] whose
    children are true up to one that is false is false, and an [any] whose
    children are false up to one that is true is true, whatever comes after:
    the later children are not evaluated, so that one that would throw does
    not. *)
Theorem evaluateExpression_short_circuit (expression : value)
    (before : list value) (child : value) (after : list value) :
  is_object expression = true ->
  (has rt "all" expression = true ->
   lookup rt expression "all" = VArray (before ++ child :: after) ->
   Forall (fun c => evaluateExpression rt c context = Normal true) before ->
   evaluateExpression rt child context = Normal false ->
   evaluateExpression rt expression context = Normal false)
  /\ (has rt "all" expression = false ->
      has rt "any" expression = true ->
      lookup rt expression "any" = VArray (before ++ child :: after) ->
      Forall (fun c => evaluateExpression rt c context = Normal false) before ->
      evaluateExpression rt child context = Normal true ->
      evaluateExpression rt expression context = Normal true).
Proof.
  intros Hobj.
  assert (Hget : forall k, get rt expression k = Normal (lookup rt expression k)).
  { intros k. destruct expression; try discriminate Hobj; reflexivity. }
  assert (Hchild : forall k children c,
            lookup rt expression k = VArray children -> In c children ->
            evaluateExpression_fuel rt (depth expression) c context
            = evaluateExpression rt c context).
  { intros k children c Hl Hin. apply evaluateExpression_child.
    pose proof (lookup_array_depth rt _ _ _ Hl). pose proof (depth_item _ _ Hin). lia. }
  split.
  - intros Hall Hl Hb Hc. unfold evaluateExpression at 1.
    cbn [evaluateExpression_fuel]. unfold has_property. rewrite Hobj, Hall. cbn.
    rewrite Hget, Hl. cbn.
    rewrite (every_ext_in _ (fun c => evaluateExpression rt c context))
      by (intros c Hin; exact (Hchild _ _ _ Hl Hin)).
    apply every_false; assumption.
  - intros Hall Hany Hl Hb Hc. unfold evaluateExpression at 1.
    cbn [evaluateExpression_fuel]. unfold has_property. rewrite Hobj, Hall. cbn.
    rewrite Hany. cbn. rewrite Hget, Hl. cbn.
    rewrite (some_ext_in _ (fun c => evaluateExpression rt c context))
      by (intros c Hin; exact (Hchild _ _ _ Hl Hin)).
    apply some_true; assumption.
Qed.

End Connectives.

Lemma reference_noInheritedNot : Spec.noInheritedNot Reference.runtime.
Proof.
  split.
  - intros p. destruct p; reflexivity.
  - intros b. cbn. unfold Reference.builtin_property.
    destruct (Reference.proto_named b) as [p|]; [|reflexivity].
    destruct p; reflexivity.
Qed.


(** [{ not: { any: [] } }] is the negation of [{ any: [] }]. *)
Lemma evaluateExpression_all_any_not_witness :
  Engine.evaluateExpression Reference.runtime
    (VObject [("not", VObject [("any", VArray [])])]) Examples.emptyContext
  = negb <$> Engine.evaluateExpression Reference.runtime
               (VObject [("any", VArray [])]) Examples.emptyContext.
Proof.
  apply (proj2 (proj2 (evaluateExpression_all_any_not Reference.runtime
                         Examples.emptyContext reference_noInheritedNot
                         (VObject [("not", VObject [("any", VArray [])])])
                         eq_refl)));
    reflexivity.
Defined.

(** [{ all: [1 == 2, null] }] is false: [null], which is no expression, is
    not looked at. *)
Lemma evaluateExpression_short_circuit_witness :
  Engine.evaluateExpression Reference.runtime
    (VObject [("all", VArray [VObject [("op", VString "==");
                                       ("left", VObject [("value", VNumber 1)]);
                                       ("right", VObject [("value", VNumber 2)])];
                              VNull])])
    Examples.emptyContext
  = Normal false.
Proof.
  apply (proj1 (evaluateExpression_short_circuit Reference.runtime
                  Examples.emptyContext reference_noInheritedNot
                  (VObject [("all", VArray [VObject [("op", VString "==");
                                       ("left", VObject [("value", VNumber 1)]);
                                       ("right", VObject [("value", VNumber 2)])];
                              VNull])])
                  []
                  (VObject [("op", VString "==");
                            ("left", VObject [("value", VNumber 1)]);
                            ("right", VObject [("value", VNumber 2)])])
                  [VNull] eq_refl)); try reflexivity.
  constructor.
Defined.

Section AddDays.

Import JS Engine Spec.
Context (rt : Runtime).

Lemma eraDays_ok : forallb eraDay eraDays = true.
Proof. vm_compute. reflexivity. Qed.

Lemma zrange_In n : forall start z,
  start <= z < start + Z.of_nat n -> In z (zrange n start).
Proof.
  induction n as [|n IH]; intros start z H; [lia|].
  cbn [zrange]. destruct (Z.eq_dec start z) as [->|Hne]; [left; reflexivity|].
  right. apply IH. lia.
Qed.

Lemma forallb_zrange (p : Z -> bool) (n : nat) (start z : Z) :
  forallb p (zrange n start) = true ->
  start <= z < start + Z.of_nat n -> p z = true.
Proof.
  intros Hall H. rewrite forallb_forall in Hall. apply Hall, zrange_In, H.
Qed.

Lemma eraDay_spec doe : 0 <= doe < 146097 -> eraDay doe = true.
Proof.
  intros H. apply (forallb_zrange eraDay (Z.to_nat 146097) 0 doe eraDays_ok). lia.
Qed.

Lemma civil_round_trip z :
  let '(y, m, d) := civil_from_days z in days_from_civil y m d = z.
Proof.
  unfold civil_from_days.
  set (z0 := z + 719468).
  set (era := z0 / 146097).
  set (doe := z0 - era * 146097).
  assert (Hdoe : 0 <= doe < 146097).
  { unfold doe, era. pose proof (Z.mod_pos_bound z0 146097 eq_refl).
    rewrite Z.mod_eq in H by lia. lia. }
  pose proof (eraDay_spec doe Hdoe) as He. unfold eraDay in He.
  set (yoe := (doe - doe / 1460 + doe / 36524 - doe / 146096) / 365) in *.
  set (doy := doe - (365 * yoe + yoe / 4 - yoe / 100)) in *.
  cbv zeta in He.
  apply andb_true_iff in He as [He Hd2]. apply andb_true_iff in He as [He Hd1].
  apply andb_true_iff in He as [Hy1 Hy2].
  apply Z.leb_le in Hy1, Hy2, Hd1, Hd2.
  set (mp := (5 * doy + 2) / 153).
  assert (Hmp : 0 <= mp <= 11).
  { unfold mp. split; [apply Z.div_pos; lia|].
    enough (mp < 12) by lia. apply Z.div_lt_upper_bound; lia. }
  unfold days_from_civil.
  assert (Hera : forall yy, yy = yoe + era * 400 -> yy / 400 = era).
  { intros yy ->. rewrite Z.div_add by lia. rewrite Z.div_small by lia. lia. }
  destruct (mp <? 10) eqn:E10.
  - apply Z.ltb_lt in E10.
    replace (mp + 3 <=? 2) with false by (symmetry; apply Z.leb_gt; lia).
    replace (2 <? mp + 3) with true by (symmetry; apply Z.ltb_lt; lia).
    rewrite (Hera _ eq_refl).
    replace (mp + 3 - 3) with mp by lia.
    replace (yoe + era * 400 - era * 400) with yoe by lia.
    clearbody mp yoe era. unfold doy, doe, z0. lia.
  - apply Z.ltb_ge in E10.
    replace (mp - 9 <=? 2) with true by (symmetry; apply Z.leb_le; lia).
    replace (2 <? mp - 9) with false by (symmetry; apply Z.ltb_ge; lia).
    replace (yoe + era * 400 + 1 - 1) with (yoe + era * 400) by lia.
    rewrite (Hera _ eq_refl).
    replace (mp - 9 + 9) with mp by lia.
    replace (yoe + era * 400 - era * 400) with yoe by lia.
    clearbody mp yoe era. unfold doy, doe, z0. lia.
Qed.

(** [add_days].  The result is [null] when the days are no finite number and
    when the date is no text that parses to a date (a [Date] object and a
    number are no text).  Otherwise the date is taken at its UTC calendar
    day, the time of day dropped, the days are truncated towards zero, and
    the result is the first ten characters of the ISO form of the day that
    many days later; it throws a [RangeError] when that day is beyond the
    range of dates.  A date of the years 0 to 99 is first moved to the same
    day of the year 1900 later. *)
Theorem addDaysToDate_shifts (dateValue daysValue : value) :
  ((forall days, daysValue = VNumber days -> Num.isFinite days = false) ->
   addDaysToDate rt dateValue daysValue = Normal VNull)
  /\ ((forall s, dateValue = VString s -> TimeClip (Date_parse rt s) = None) ->
      addDaysToDate rt dateValue daysValue = Normal VNull)
  /\ (forall s days parsed k,
        dateValue = VString s ->
        daysValue = VNumber days ->
        TimeClip (Date_parse rt s) = Some parsed ->
        Num.isFinite days = true ->
        Num.to_Z (Num.trunc days) = Some k ->
        let day := parsed / msPerDay in
        let year := fst (fst (civil_from_days day)) in
        let start :=
          if (0 <=? year) && (year <=? 99)
          then days_from_civil (1900 + year) (snd (fst (civil_from_days day)))
                 (snd (civil_from_days day))
          else day in
        addDaysToDate rt dateValue daysValue
        = if Z.abs ((start + k) * msPerDay) <=? 8640000000000000
          then Normal (VString (isoDatePrefix (start + k)))
          else Throw (RangeError "Invalid time value")).
Proof.
  split; [|split].
  - intros H. unfold addDaysToDate.
    destruct daysValue; try reflexivity. rewrite (H _ eq_refl). reflexivity.
  - intros H. unfold addDaysToDate.
    destruct daysValue; try reflexivity. destruct (negb _); [reflexivity|].
    destruct dateValue; try reflexivity. rewrite (H _ eq_refl). reflexivity.
  - intros s days parsed k -> -> Hparsed Hfinite Hk day year start.
    unfold addDaysToDate. rewrite Hfinite, Hparsed, Hk. cbn [negb default].
    fold day. pose proof (civil_round_trip day) as Hround.
    unfold start, year. destruct (civil_from_days day) as [[y m] d].
    cbn [fst snd]. destruct ((0 <=? y) && (y <=? 99)); [reflexivity|].
    rewrite Hround. reflexivity.
Qed.

End AddDays.

(** A week and a half after 13 February 2026 is counted as seven days. *)
Lemma addDaysToDate_shifts_witness :
  Engine.addDaysToDate Reference.runtime (VString "2026-02-13") (VNumber 7.5)
  = Normal (VString "2026-02-20").
Proof.
  rewrite (proj2 (proj2 (addDaysToDate_shifts Reference.runtime
                           (VString "2026-02-13") (VNumber 7.5)))
             "2026-02-13" 7.5%float 1770940800000 7);
    reflexivity.
Defined.

Section ValidatorFrame.

Import JS Engine Spec.
Context (rt : Runtime).

Lemma foldl_validate_ext (f g : FormFieldDefinition -> list ValidationIssue)
    (fields : list FormFieldDefinition) : forall acc,
  (forall field, In field fields -> f field = g field) ->
  foldl (fun errors field => errors ++ f field) acc fields
  = foldl (fun errors field => errors ++ g field) acc fields.
Proof.
  induction fields as [|field fields IH]; intros acc H; simpl; [reflexivity|].
  rewrite (H field) by (simpl; auto). apply IH. intros f' Hf'. apply H. simpl; auto.
Qed.

(** The answers [validateAnswers] reads.  The result depends on the answers
    only through the values under the keys of the fields: answers under
    other keys are neither checked nor reported. *)
Theorem validateAnswers_reads_field_answers (fields : list FormFieldDefinition)
    (answers answers' : list (string * value)) :
  (forall field, In field fields ->
     lookup rt (VObject answers) (key field)
     = lookup rt (VObject answers') (key field)) ->
  validateAnswers rt fields answers = validateAnswers rt fields answers'.
Proof.
  intros H. unfold validateAnswers.
  rewrite (foldl_validate_ext (validateField rt answers) (validateField rt answers'));
    [reflexivity|].
  intros field Hin. unfold validateField. rewrite (H field Hin). reflexivity.
Qed.

End ValidatorFrame.

(** An answer that no field asks for changes nothing. *)
Lemma validateAnswers_reads_field_answers_witness :
  Engine.validateAnswers Reference.runtime
    [{| key := "age"; type := "number"; required := VNumber 1;
        options_json := VNull; validation_json := VNull |}]
    [("age", VNumber 24)]
  = Engine.validateAnswers Reference.runtime
      [{| key := "age"; type := "number"; required := VNumber 1;
          options_json := VNull; validation_json := VNull |}]
      [("age", VNumber 24); ("shoe_size", VString "not a number")].
Proof.
  apply validateAnswers_reads_field_answers.
  intros field [<-|[]]. reflexivity.
Defined.

Section Metadata.

Import JS Engine Store Handlers Spec.

Lemma assoc_foldl_set_other k extra : forall props,
  assoc k extra = None ->
  assoc k (foldl (fun props p => assoc_set (fst p) (snd p) props) props extra)
  = assoc k props.
Proof.
  induction extra as [|[k' v'] extra IH]; intros props H; simpl; [reflexivity|].
  simpl in H. destruct (String.eqb k k') eqn:E; [discriminate|].
  rewrite IH by exact H. apply assoc_set_ne. apply String.eqb_neq, E.
Qed.

Lemma assoc_foldl_set k v extra : forall props,
  List.NoDup (List.map fst extra) ->
  assoc k extra = Some v ->
  assoc k (foldl (fun props p => assoc_set (fst p) (snd p) props) props extra)
  = Some v.
Proof.
  induction extra as [|[k' v'] extra IH]; intros props Hnd H; simpl; [discriminate|].
  simpl in H, Hnd. apply NoDup_cons_iff in Hnd as [Hnotin Hnd].
  destruct (String.eqb k k') eqn:E.
  - apply String.eqb_eq in E. subst k'. injection H as ->.
    rewrite assoc_foldl_set_other; [apply assoc_set_eq|].
    clear -Hnotin. induction extra as [|[k2 v2] extra IH]; simpl; [reflexivity|].
    simpl in Hnotin. destruct (String.eqb k k2) eqn:E.
    + apply String.eqb_eq in E. subst. tauto.
    + apply IH. tauto.
  - apply IH; assumption.
Qed.

(** The metadata of an intake.  What the body gives as [metadata] comes
    last in the object: under a key the body gives, the context holds the
    value of the body, also under [study_id], [participant_id],
    [form_template_id], [submission_id] and [submitted_at]; under the other
    keys it holds these five values of the request. *)
Theorem intakeMetadata_client_overrides (studyId participantId : string)
    (body : IntakeBody) (submissionId : Z) (submissionTime : string)
    (extra : list (string * value)) :
  body_metadata body = Some extra ->
  List.NoDup (List.map fst extra) ->
  forall k,
    assoc k (intakeMetadata studyId participantId body submissionId submissionTime)
    = match assoc k extra with
      | Some v => Some v
      | None =>
          assoc k [("study_id", VString studyId);
                   ("participant_id", VString participantId);
                   ("form_template_id", VNumber (form_template_id body));
                   ("submission_id", VNumber (Num.of_Z submissionId));
                   ("submitted_at", VString submissionTime)]
      end.
Proof.
  intros Hextra Hnd k. unfold intakeMetadata. rewrite Hextra. cbn [default].
  destruct (assoc k extra) as [v|] eqn:E.
  - apply assoc_foldl_set; assumption.
  - apply assoc_foldl_set_other, E.
Qed.

End Metadata.

(** A body that gives its own [study_id]. *)
Lemma intakeMetadata_client_overrides_witness :
  JS.assoc "study_id"
    (Handlers.intakeMetadata "study-42" "participant-007"
       {| form_template_id := 1; body_answers := [];
          body_metadata := Some [("study_id", VString "study-1")] |}
       7 "2026-02-13T08:00:00.000Z")
  = Some (VString "study-1").
Proof.
  rewrite (intakeMetadata_client_overrides "study-42" "participant-007"
             {| form_template_id := 1; body_answers := [];
                body_metadata := Some [("study_id", VString "study-1")] |}
             7 "2026-02-13T08:00:00.000Z" [("study_id", VString "study-1")]
             eq_refl).
  - reflexivity.
  - repeat constructor. simpl. tauto.
Defined.

Section RuleShapes.

Import JS Engine Store Handlers Spec.
Context (rt : Runtime).

(** The assignment of a [group_assignment] rule.  A rule without an
    [assignment] always carries one: the texts of its [group_key] and
    [group_value], which are ["undefined"] where the rule has none.  A rule
    whose [assignment] is an object with a [key] and a [value] carries their
    texts.  A rule whose [assignment] is anything else carries none. *)
Theorem resolveRuleExpression_assignment (props : list (string * value)) :
  let payload := VObject props in
  let expression := first_of rt payload ["when"; "expression"; "criteria"] in
  (forall k v,
     nullish (lookup rt payload "assignment") VNull = VNull ->
     ToString rt (lookup rt payload "group_key") = Normal k ->
     ToString rt (lookup rt payload "group_value") = Normal v ->
     resolveRuleExpression rt "group_assignment" payload
     = Normal {| rr_expression := expression; rr_assignment := Some (k, v);
                 rr_plan := VUndefined |})
  /\ (forall assignment k v,
        lookup rt payload "assignment" = VObject assignment ->
        has rt "key" (VObject assignment) = true ->
        has rt "value" (VObject assignment) = true ->
        ToString rt (lookup rt (VObject assignment) "key") = Normal k ->
        ToString rt (lookup rt (VObject assignment) "value") = Normal v ->
        resolveRuleExpression rt "group_assignment" payload
        = Normal {| rr_expression := expression; rr_assignment := Some (k, v);
                    rr_plan := VUndefined |})
  /\ (forall assignment,
        lookup rt payload "assignment" = assignment ->
        assignment <> VUndefined -> assignment <> VNull ->
        truthy assignment && String.eqb (typeof rt assignment) "object"
        && has rt "key" assignment && has rt "value" assignment = false ->
        resolveRuleExpression rt "group_assignment" payload
        = Normal {| rr_expression := expression; rr_assignment := None;
                    rr_plan := VUndefined |}).
Proof.
  intros payload expression. unfold resolveRuleExpression.
  cbn [String.eqb Ascii.eqb Bool.eqb]. fold payload. cbv zeta. fold expression.
  split; [|split].
  - intros k v Hnull Hk Hv.
    assert (Hfall : nullish (lookup rt payload "assignment")
                      (VObject [("key", lookup rt payload "group_key");
                                ("value", lookup rt payload "group_value")])
                    = VObject [("key", lookup rt payload "group_key");
                               ("value", lookup rt payload "group_value")]).
    { destruct (lookup rt payload "assignment"); try discriminate Hnull; reflexivity. }
    unfold payload in *. rewrite Hfall.
    change (truthy (VObject ?x)) with true.
    assert (Hhk : forall a b, has rt "key" (VObject [("key", a); ("value", b)]) = true)
      by reflexivity.
    assert (Hhv : forall a b, has rt "value" (VObject [("key", a); ("value", b)]) = true)
      by reflexivity.
    rewrite Hhk, Hhv. cbn [typeof String.eqb Ascii.eqb Bool.eqb andb].
    change (lookup rt (VObject [("key", ?a); ("value", ?b)]) "key") with a.
    change (lookup rt (VObject [("key", ?a); ("value", ?b)]) "value") with b.
    rewrite Hk, Hv. reflexivity.
  - intros assignment k v Ha Hhk Hhv Hk Hv. unfold payload in *. rewrite Ha.
    cbn [nullish truthy typeof String.eqb Ascii.eqb Bool.eqb andb].
    rewrite Hhk, Hhv, Hk, Hv. reflexivity.
  - intros assignment Ha Hu Hn Hh. unfold payload in *. rewrite Ha.
    assert (Hkeep : forall b, nullish assignment b = assignment)
      by (intros b; destruct assignment; try reflexivity; contradiction).
    rewrite Hkeep, Hh. reflexivity.
Qed.

End RuleShapes.

(** A rule that only says when: its assignment is ["undefined"] to
    ["undefined"]. *)
Lemma resolveRuleExpression_assignment_witness :
  Handlers.resolveRuleExpression Reference.runtime "group_assignment"
    (VObject [("when", VObject [("op", VString "exists");
                                ("left", VObject [("var", VString "answers.age")])])])
  = Normal {| rr_expression :=
                VObject [("op", VString "exists");
                         ("left", VObject [("var", VString "answers.age")])];
              rr_assignment := Some ("undefined", "undefined");
              rr_plan := VUndefined |}.
Proof.
  apply (proj1 (resolveRuleExpression_assignment Reference.runtime
    [("when", VObject [("op", VString "exists");
                       ("left", VObject [("var", VString "answers.age")])])]));
    reflexivity.
Defined.

Section EvaluatorErrors.

Import JS Engine Spec.
Context (rt : Runtime) (context : EvaluationContext).
Hypothesis Hplain : noInheritedNot rt.

Lemma raises_every {A} (Q : exn -> Prop) (f : A -> outcome bool) items :
  (forall x, In x items -> raises Q (f x)) -> raises Q (every f items).
Proof.
  induction items as [|x items IH]; intros H; simpl; [exact I|].
  apply raises_bind; [apply H; simpl; auto|].
  intros [|] _; [|exact I]. apply IH. intros y Hy. apply H. simpl; auto.
Qed.

Lemma raises_some {A} (Q : exn -> Prop) (f : A -> outcome bool) items :
  (forall x, In x items -> raises Q (f x)) -> raises Q (some f items).
Proof.
  induction items as [|x items IH]; intros H; simpl; [exact I|].
  apply raises_bind; [apply H; simpl; auto|].
  intros [|] _; [exact I|]. apply IH. intros y Hy. apply H. simpl; auto.
Qed.

Lemma raises_resolveOperand operand : raises typeError (resolveOperand rt operand context).
Proof.
  assert (Ht : forall what, typeError (TypeError what)) by (intros; exact I).
  unfold resolveOperand.
  destruct operand; try exact I;
    (destruct (_ && _); [|exact I];
     apply raises_bind; [apply raises_has_property, Ht|];
     intros [|] _;
     [ apply raises_bind; [apply raises_get, Ht|]; intros v _;
       apply raises_bind; [apply raises_as_string, Ht|]; intros variable _;
       destruct (resolveVariable_returns rt variable context) as [x ->]; exact I
     | apply raises_bind; [apply raises_has_property, Ht|];
       intros [|] _; [apply raises_get, Ht|exact I] ]).
Qed.

Lemma evaluateExpression_fuel_raises n : forall expression,
  (depth expression < n)%nat ->
  raises typeError (evaluateExpression_fuel rt n expression context).
Proof.
  assert (Ht : forall what, typeError (TypeError what)) by (intros; exact I).
  induction n as [|n IH]; intros expression Hn; [lia|].
  cbn [evaluateExpression_fuel].
  assert (Hchildren : forall k children child,
            get rt expression k ≫= as_array = Normal children ->
            In child children ->
            raises typeError (evaluateExpression_fuel rt n child context)).
  { intros k children child Hget Hin. apply get_as_array in Hget.
    pose proof (lookup_array_depth rt _ _ _ Hget).
    pose proof (depth_item _ _ Hin). apply IH; lia. }
  apply raises_bind; [apply raises_has_property, Ht|]. intros [|] _.
  { apply raises_bind.
    - apply raises_bind; [apply raises_get, Ht|]. intros v _. apply raises_as_array, Ht.
    - intros children E. apply raises_every. intros child Hin.
      exact (Hchildren _ _ _ E Hin). }
  apply raises_bind; [apply raises_has_property, Ht|]. intros [|] _.
  { apply raises_bind.
    - apply raises_bind; [apply raises_get, Ht|]. intros v _. apply raises_as_array, Ht.
    - intros children E. apply raises_some. intros child Hin.
      exact (Hchildren _ _ _ E Hin). }
  apply raises_bind; [apply raises_has_property, Ht|]. intros [|] Hnot.
  { unfold has_property in Hnot. destruct (is_object expression); [|discriminate].
    injection Hnot as Hnot.
    destruct (has_not_own rt Hplain _ Hnot) as (props & child & -> & Hassoc & Hlook).
    cbn [get]. rewrite Hlook. cbn [mbind outcome_bind].
    apply raises_fmap. apply IH. pose proof (depth_assoc _ _ _ Hassoc). lia. }
  repeat (apply raises_bind; [apply raises_get, Ht|]; intros ? _).
  apply raises_bind; [apply raises_resolveOperand|]. intros leftValue _.
  apply raises_bind; [apply raises_resolveOperand|]. intros rightValue _.
  repeat first
    [ exact I
    | match goal with
      | |- raises _ (if ?c then _ else _) => destruct c
      | |- raises _ (match ?c with _ => _ end) => destruct c
      | |- raises _ (_ ≫= _) => apply raises_bind; [|intros ? _]
      | |- raises _ (get _ _ _) => apply raises_get, Ht
      | |- raises _ (resolveOperand _ _ _) => apply raises_resolveOperand
      end ].
Qed.

(** What [evaluateExpression] throws.  It returns a boolean or throws a
    [TypeError] (an expression that is no object, an [all] or [any] that is
    no array, a [var] that is no text): it throws nothing else, and the
    nesting of its calls stays within the depth of the expression. *)
Theorem evaluateExpression_throws_type_errors (expression : value) :
  match evaluateExpression rt expression context with
  | Normal _ | Throw (TypeError _) => True
  | Throw _ => False
  end.
Proof.
  pose proof (evaluateExpression_fuel_raises (S (depth expression)) expression
                (Nat.lt_succ_diag_r _)) as H.
  unfold evaluateExpression.
  destruct (evaluateExpression_fuel _ _ _ _) as [b|e]; [exact I|].
  destruct e; try contradiction. exact I.
Qed.

End EvaluatorErrors.

(** [null] is no expression: a [TypeError]. *)
Lemma evaluateExpression_throws_type_errors_witness :
  match Engine.evaluateExpression Reference.runtime VNull Examples.emptyContext with
  | Normal _ | Throw (TypeError _) => True
  | Throw _ => False
  end.
Proof.
  exact (evaluateExpression_throws_type_errors Reference.runtime
           Examples.emptyContext reference_noInheritedNot VNull).
Defined.

Section LeafOperators.

Import JS Engine Spec.
Context (rt : Runtime) (context : EvaluationContext).

Lemma has_cons_op k v rest :
  String.eqb k "op" = false ->
  has rt k (VObject (("op", v) :: rest)) = has rt k (VObject rest).
Proof. intros H. unfold has. cbn [get_own assoc]. rewrite H. reflexivity. Qed.

Lemma lookup_cons_op k v rest :
  String.eqb k "op" = false ->
  lookup rt (VObject (("op", v) :: rest)) k = lookup rt (VObject rest) k.
Proof. intros H. unfold lookup. cbn [get_own assoc]. rewrite H. reflexivity. Qed.

Lemma leaf_unfold op rest :
  has rt "all" (VObject rest) = false ->
  has rt "any" (VObject rest) = false ->
  has rt "not" (VObject rest) = false ->
  evaluateExpression rt (VObject (("op", op) :: rest)) context
  = evaluateExpression_fuel rt 1 (VObject (("op", op) :: rest)) context.
Proof.
  intros Hall Hany Hnot. unfold evaluateExpression.
  change (depth (VObject (("op", op) :: rest)))
    with (S (Nat.max (depth op) (list_max (List.map (fun p => depth (snd p)) rest)))).
  cbn [evaluateExpression_fuel]. unfold has_property. cbn [is_object].
  rewrite !has_cons_op by reflexivity. rewrite Hall, Hany, Hnot. reflexivity.
Qed.


End LeafOperators.


Section Clock.
Import JS Engine Spec.
Context (rt : Runtime).

Lemma clockTexts_all : clockTexts Reference.runtime (zrange 100 0) (zrange 100 0) = true.
Proof. vm_compute. reflexivity. Qed.

Lemma clockTexts_spec hours minutes padded h m :
  clockTexts Reference.runtime hours minutes = true ->
  In h hours -> In m minutes ->
  parseTimeToMinutes rt (VString (clockText padded h m))
  = Normal (Some (Num.of_Z (h * 60 + m))).
Proof.
  unfold clockTexts. intros H Hh Hm.
  rewrite forallb_forall in H. specialize (H h Hh).
  rewrite forallb_forall in H. specialize (H m Hm).
  rewrite forallb_forall in H.
  assert (Hp : In padded [true; false]) by (destruct padded; simpl; auto).
  specialize (H padded Hp).
  change (parseTimeToMinutes Reference.runtime (VString (clockText padded h m)))
    with (parseTimeToMinutes rt (VString (clockText padded h m))) in H.
  destruct (parseTimeToMinutes rt (VString (clockText padded h m))) as [[x|]|];
    try discriminate.
  apply FloatAxioms.Leibniz.eqb_spec in H. rewrite H. reflexivity.
Qed.

(** The minutes of a clock text.  A text [H:MM] or [HH:MM] parses to
    [hours * 60 + minutes] for every hour and minute from 0 to 99: neither is
    checked against 23 or 59, so that ["24:00"] is 1440 and ["25:70"] is
    1570. *)
Theorem parseTimeToMinutes_clock (padded : bool) (h m : Z) :
  0 <= h < 100 -> 0 <= m < 100 ->
  parseTimeToMinutes rt (VString (clockText padded h m))
  = Normal (Some (Num.of_Z (h * 60 + m))).
Proof.
  intros Hh Hm.
  apply (clockTexts_spec (zrange 100 0) (zrange 100 0) padded h m clockTexts_all);
    apply zrange_In; lia.
Qed.

End Clock.

(** ["25:70"] is 1570 minutes. *)
Lemma parseTimeToMinutes_clock_witness :
  Engine.parseTimeToMinutes Reference.runtime (VString "25:70")
  = Normal (Some 1570%float).
Proof.
  exact (parseTimeToMinutes_clock Reference.runtime true 25 70
           ltac:(lia) ltac:(lia)).
Defined.

Section Grows.

Import JS Engine Spec.
Context (rt : Runtime).

Lemma grows_refl props : grows rt props props.
Proof. intros k H. auto. Qed.

Lemma grows_trans a b c : grows rt a b -> grows rt b c -> grows rt a c.
Proof.
  intros H1 H2 k Hk. destruct (H1 k Hk) as [Hb E1].
  destruct (H2 k Hb) as [Hc E2]. split; [exact Hc|congruence].
Qed.

Lemma grows_assoc_set key v props :
  has rt key (VObject props) = false -> grows rt props (assoc_set key v props).
Proof.
  intros Hkey k Hk. assert (k <> key) by (intros ->; congruence).
  split.
  - rewrite has_assoc_set_ne by assumption. exact Hk.
  - unfold lookup. cbn [get_own]. rewrite assoc_set_ne by assumption. reflexivity.
Qed.

Lemma resolveVariable_simple var a cv md :
  simpleVar var = true ->
  resolveVariable rt var {| answers := a; computed := cv; metadata := md |}
  = Normal (if Str.startsWith "computed." var
            then lookup rt (VObject cv)
                   (Str.slice_from (String.length "computed.") var)
            else match resolveVariable rt var
                         {| answers := a; computed := []; metadata := md |} with
                 | Normal x => x
                 | Throw _ => VUndefined
                 end).
Proof.
  unfold simpleVar, resolveVariable. cbn [answers computed metadata].
  destruct (Str.split "."%char var) as [|scope rest].
  { intros H. apply negb_true_iff in H. rewrite H. reflexivity. }
  destruct (String.eqb scope "computed") eqn:Es.
  - apply String.eqb_eq in Es. subst scope. intros H.
    apply andb_true_iff in H as [Hs H]. rewrite Hs.
    destruct rest as [|k [|]]; try discriminate. apply String.eqb_eq in H. subst k.
    cbn [String.eqb Ascii.eqb Bool.eqb]. rewrite resolveScope_walk. f_equal.
    cbn [walk]. destruct (has rt _ (VObject cv)) eqn:Hh.
    + reflexivity.
    + rewrite andb_false_r. symmetry. apply lookup_has_false, Hh.
  - intros H. apply negb_true_iff in H. rewrite H.
    destruct (String.eqb scope "answers").
    { rewrite !resolveScope_walk. reflexivity. }
    destruct (String.eqb scope "metadata").
    { rewrite !resolveScope_walk. reflexivity. }
    reflexivity.
Qed.

Lemma definitionMap_In definitions key d :
  definitionMap definitions !! key = Some d -> In d definitions /\ cd_key d = key.
Proof.
  unfold definitionMap.
  enough (H : forall l (m : gmap string ComputeDefinition),
            foldl (fun m d => <[cd_key d := d]> m) m l !! key = Some d ->
            m !! key = Some d \/ (In d l /\ cd_key d = key)).
  { intros Hd. destruct (H _ _ Hd) as [H0|H0]; [|exact H0].
    rewrite lookup_empty in H0. discriminate. }
  induction l as [|d' l IH]; intros m Hd; simpl in *; [auto|].
  destruct (IH _ Hd) as [H0|[Hin Hk]]; [|right; auto].
  destruct (decide (cd_key d' = key)) as [Heq|Hne].
  - rewrite Heq, lookup_insert_eq in H0. injection H0 as ->. right. auto.
  - rewrite lookup_insert_ne in H0 by exact Hne. auto.
Qed.

End Grows.

Section Pure.

Import JS Engine Spec.
Context (rt : Runtime) (definitions : list ComputeDefinition)
        (context : EvaluationContext).
Context (rc : string -> compute value) (P : ComputeState -> Prop).

Hypothesis P_grows : forall st, P st -> grows rt (computed context) (computedValues st).
Hypothesis rc_spec : forall key st,
  P st ->
  match rc key st with
  | Normal (v, st') =>
      P st'
      /\ grows rt (computedValues st) (computedValues st')
      /\ v = lookup rt (VObject (computedValues st')) key
      /\ (has rt key (VObject (computedValues st')) = true
          \/ definitionMap definitions !! key = None)
  | Throw _ => True
  end.

Lemma cbind_normal {A B} (m : compute A) (f : A -> compute B) st b st' :
  cbind m f st = Normal (b, st') ->
  exists a st1, m st = Normal (a, st1) /\ f a st1 = Normal (b, st').
Proof.
  unfold cbind. destruct (m st) as [[a st1]|]; [eauto|discriminate].
Qed.

(** The run keeps [P] and only adds to the computed values. *)
Lemma evaluate_grows fuel expression st v st' :
  (depth expression < fuel)%nat ->
  P st ->
  evaluateComputeExpression_fuel rt fuel expression context rc st = Normal (v, st') ->
  P st' /\ grows rt (computedValues st) (computedValues st').
Proof.
  intros Hd HP Hrun.
  pose proof (evaluateComputeExpression_established rt context rc
                (fun st1 => P st1 /\ grows rt (computedValues st) (computedValues st1))
                (fun _ => True) (fun _ _ => I) fuel expression st Hd) as H.
  rewrite Hrun in H. apply H.
  - intros key _ st1 [HP1 Hg1]. pose proof (rc_spec key st1 HP1) as Hrc.
    destruct (rc key st1) as [[v1 st1']|]; [|exact I].
    destruct Hrc as (HP' & Hg' & _). split; [exact HP'|].
    eapply grows_trans; eassumption.
  - split; [exact HP|apply grows_refl].
Qed.

Lemma cmap_grows fuel args : forall st vs st',
  (forall arg, In arg args -> (depth arg < fuel)%nat) ->
  P st ->
  cmap (fun arg => evaluateComputeExpression_fuel rt fuel arg context rc) args st
  = Normal (vs, st') ->
  P st' /\ grows rt (computedValues st) (computedValues st').
Proof.
  induction args as [|arg args IH]; intros st vs st' Hd HP Hrun; cbn [cmap] in Hrun.
  - injection Hrun as _ <-. split; [exact HP|apply grows_refl].
  - apply cbind_normal in Hrun as (va & st1 & Ha & Hrun).
    apply cbind_normal in Hrun as (vs' & st2 & Hrest & Hrun).
    injection Hrun as _ <-.
    destruct (evaluate_grows _ _ _ _ _ (Hd arg (or_introl eq_refl)) HP Ha) as [HP1 Hg1].
    destruct (IH _ _ _ (fun a Ha' => Hd a (or_intror Ha')) HP1 Hrest) as [HP2 Hg2].
    split; [exact HP2|]. eapply grows_trans; eassumption.
Qed.

Lemma cbind_lift {A B} (o : outcome A) (f : A -> compute B) st :
  cbind (lift o) f st = match o with Normal a => f a st | Throw e => Throw e end.
Proof. unfold cbind, lift. destruct o; reflexivity. Qed.

Lemma lift_finished {A} (o : outcome A) st a st' R :
  lift o st = Normal (a, st') -> st' = st /\ lift o (finished R) = Normal (a, finished R).
Proof. unfold lift. destruct o; intros H; inversion H; auto. Qed.

Lemma simpleRefs_arg e args arg :
  simpleRefs rt e -> lookup rt e "args" = VArray args -> In arg args ->
  simpleRefs rt arg.
Proof.
  intros H Hl Hin e' var Hsub. apply H. eapply subexpression_arg; eassumption.
Qed.

Definition pureAt (fuel : nat) : Prop :=
  forall e st v st' R m,
    (depth e < fuel)%nat -> P st -> simpleRefs rt e ->
    evaluateComputeExpression_fuel rt fuel e context rc st = Normal (v, st') ->
    grows rt (computedValues st') R -> closed rt definitions context R ->
    (depth e < m)%nat ->
    evaluateComputeExpression_fuel rt m e context (lookupComputed rt) (finished R)
    = Normal (v, finished R).

Lemma cmap_pure fuel m (IH : pureAt fuel) args : forall st vs st' R,
  (forall arg, In arg args ->
     (depth arg < fuel)%nat /\ (depth arg < m)%nat /\ simpleRefs rt arg) ->
  P st ->
  cmap (fun arg => evaluateComputeExpression_fuel rt fuel arg context rc) args st
  = Normal (vs, st') ->
  grows rt (computedValues st') R -> closed rt definitions context R ->
  cmap (fun arg => evaluateComputeExpression_fuel rt m arg context (lookupComputed rt))
    args (finished R)
  = Normal (vs, finished R).
Proof.
  induction args as [|arg args IHargs]; intros st vs st' R Hargs HP Hrun Hg Hc;
    cbn [cmap] in Hrun |- *.
  - injection Hrun as <- _. reflexivity.
  - apply cbind_normal in Hrun as (va & st1 & Ha & Hrun).
    apply cbind_normal in Hrun as (vs' & st2 & Hrest & Hrun).
    injection Hrun as <- <-.
    destruct (Hargs arg (or_introl eq_refl)) as (Hd & Hm & Hs).
    destruct (evaluate_grows _ _ _ _ _ Hd HP Ha) as [HP1 Hg1].
    destruct (cmap_grows fuel args st1 vs' st2
                (fun a Ha' => proj1 (Hargs a (or_intror Ha'))) HP1 Hrest) as [HP2 Hg2].
    unfold cbind at 1.
    rewrite (IH arg st va st1 R m Hd HP Hs Ha (grows_trans _ _ _ _ Hg2 Hg) Hc Hm).
    unfold cbind at 1.
    rewrite (IHargs st1 vs' st2 R (fun a Ha' => Hargs a (or_intror Ha')) HP1 Hrest Hg Hc).
    reflexivity.
Qed.

Lemma evaluate_pure fuel : pureAt fuel.
Proof.
  induction fuel as [|fuel IH]; intros e st v st' R m Hd HP Hs Hrun Hg Hc Hm; [lia|].
  destruct m as [|m]; [lia|].
  (* the arguments, evaluated in both runs *)
  assert (Hargs : forall st0 vs st1,
    P st0 ->
    cbind (lift (get rt e "args" ≫= as_array))
      (fun args => cmap (fun arg =>
         evaluateComputeExpression_fuel rt fuel arg context rc) args) st0
    = Normal (vs, st1) ->
    P st1 /\ grows rt (computedValues st0) (computedValues st1)
    /\ forall R, grows rt (computedValues st1) R -> closed rt definitions context R ->
       cbind (lift (get rt e "args" ≫= as_array))
         (fun args => cmap (fun arg =>
            evaluateComputeExpression_fuel rt m arg context (lookupComputed rt)) args)
         (finished R)
       = Normal (vs, finished R)).
  { intros st0 vs st1 HP0 Hrun0. rewrite cbind_lift in Hrun0.
    setoid_rewrite cbind_lift.
    destruct (get rt e "args" ≫= as_array) as [args|] eqn:Eargs; [|discriminate].
    apply get_as_array in Eargs.
    assert (Hall : forall arg, In arg args ->
              (depth arg < fuel)%nat /\ (depth arg < m)%nat /\ simpleRefs rt arg).
    { intros arg Harg. pose proof (lookup_array_depth rt _ _ _ Eargs).
      pose proof (depth_item _ _ Harg).
      repeat split; [lia|lia|]. eapply simpleRefs_arg; eassumption. }
    destruct (cmap_grows fuel args st0 vs st1 (fun a Ha => proj1 (Hall a Ha)) HP0 Hrun0)
      as [HP1 Hg1].
    split; [exact HP1|]. split; [exact Hg1|].
    intros R0 Hg0 Hc0. exact (cmap_pure fuel m IH args st0 vs st1 R0 Hall HP0 Hrun0 Hg0 Hc0). }
  assert (Hafter : forall st0 v st1,
    P st0 ->
    cbind (lift (has_property rt "op" e))
       (fun hasOp : bool =>
          if hasOp then
            cbind (cbind (lift (get rt e "args" ≫= as_array))
                     (fun args => cmap (fun arg =>
                        evaluateComputeExpression_fuel rt fuel arg context rc) args))
              (fun args => cbind (lift (get rt e "op"))
                 (fun op => lift (applyArithmetic rt op args)))
          else cret e) st0 = Normal (v, st1) ->
    grows rt (computedValues st1) R ->
    cbind (lift (has_property rt "op" e))
       (fun hasOp : bool =>
          if hasOp then
            cbind (cbind (lift (get rt e "args" ≫= as_array))
                     (fun args => cmap (fun arg =>
                        evaluateComputeExpression_fuel rt m arg context
                          (lookupComputed rt)) args))
              (fun args => cbind (lift (get rt e "op"))
                 (fun op => lift (applyArithmetic rt op args)))
          else cret e) (finished R) = Normal (v, finished R)).
  { intros st0 v0 st1 HP0 Hrun0 Hg0. rewrite cbind_lift in Hrun0 |- *.
    destruct (has_property rt "op" e) as [[|]|]; try discriminate.
    2:{ injection Hrun0 as <- _. reflexivity. }
    apply cbind_normal in Hrun0 as (args & st2 & Ha & Hrun0).
    rewrite cbind_lift in Hrun0.
    destruct (get rt e "op") as [op|] eqn:Eop; [|discriminate].
    apply lift_normal in Hrun0 as [Hrun0 ->].
    destruct (Hargs _ _ _ HP0 Ha) as (_ & _ & Hpure).
    unfold cbind at 1. rewrite (Hpure R Hg0 Hc). rewrite cbind_lift.
    unfold lift. rewrite Hrun0. reflexivity. }
  cbn [evaluateComputeExpression_fuel] in Hrun |- *. cbv zeta in Hrun |- *.
  destruct (strict_equal rt e VNull || negb (String.eqb (typeof rt e) "object")).
  { injection Hrun as <- _. reflexivity. }
  rewrite cbind_lift in Hrun |- *.
  destruct (has_property rt "var" e) as [[|]|]; try discriminate.
  { rewrite cbind_lift in Hrun |- *.
    destruct (get rt e "var" ≫= as_string) as [var|] eqn:Evar; [|discriminate].
    apply get_as_string in Evar.
    assert (Hsimple : simpleVar var = true).
    { apply (Hs e var); [apply subexpression_refl|exact Evar]. }
    unfold cbind at 1 in Hrun. unfold cbind at 1. unfold liveContext in Hrun |- *.
    rewrite cbind_lift in Hrun |- *.
    rewrite resolveVariable_simple in Hrun |- * by exact Hsimple.
    cbn [finished computedValues] in Hrun |- *.
    destruct (Str.startsWith "computed." var) eqn:Hstart.
    2:{ cbn [andb] in Hrun |- *. injection Hrun as <- _. reflexivity. }
    cbn [andb] in Hrun |- *.
    set (key := Str.slice_from (String.length "computed.") var) in *.
    assert (Hkey : v = lookup rt (VObject R) key).
    { destruct (strict_equal rt (lookup rt (VObject (computedValues st)) key) VUndefined)
        eqn:Hundef.
      - pose proof (rc_spec key st HP) as Hrc. rewrite Hrun in Hrc.
        destruct Hrc as (_ & _ & -> & [Hhas|Hnone]).
        + symmetry. apply Hg, Hhas.
        + destruct (has rt key (VObject (computedValues st'))) eqn:Hh.
          { symmetry. apply Hg, Hh. }
          rewrite (lookup_has_false rt _ _ Hh).
          destruct (has rt key (VObject R)) eqn:HR.
          * destruct (Hc key HR) as [H0|[d Hd']]; [|congruence].
            pose proof (rc_spec key st HP) as Hrc. rewrite Hrun in Hrc.
            destruct Hrc as (HP' & _).
            destruct (P_grows st' HP' key H0) as [Hh' _]. congruence.
          * symmetry. apply lookup_has_false, HR.
      - injection Hrun as <- <-.
        destruct (has rt key (VObject (computedValues st))) eqn:Hh.
        + symmetry. apply Hg, Hh.
        + rewrite (lookup_has_false rt _ _ Hh) in Hundef. discriminate. }
    subst v. destruct (strict_equal rt (lookup rt (VObject R) key) VUndefined);
      reflexivity. }
  rewrite cbind_lift in Hrun |- *.
  destruct (has_property rt "value" e) as [[|]|]; try discriminate.
  { apply lift_finished with (R := R) in Hrun as [_ Hrun]. exact Hrun. }
  rewrite cbind_lift in Hrun |- *.
  destruct (has_property rt "func" e) as [[|]|]; try discriminate.
  2:{ eapply Hafter; eassumption. }
  apply cbind_normal in Hrun as (args & st1 & Ha & Hrun).
  rewrite cbind_lift in Hrun.
  destruct (get rt e "func") as [func|] eqn:Efunc; [|discriminate].
  destruct (Hargs _ _ _ HP Ha) as (HP1 & _ & Hpure).
  assert (Hg1 : grows rt (computedValues st1) R).
  { repeat case_match;
      try (apply lift_normal in Hrun as [_ ->]; exact Hg).
    rewrite cbind_lift in Hrun.
    destruct (has_property rt "op" e) as [[|]|]; try discriminate.
    2:{ injection Hrun as _ <-. exact Hg. }
    apply cbind_normal in Hrun as (args' & st2 & Ha' & Hrun).
    rewrite cbind_lift in Hrun.
    destruct (get rt e "op") as [op|]; [|discriminate].
    apply lift_normal in Hrun as [_ ->].
    destruct (Hargs _ _ _ HP1 Ha') as (_ & Hg2 & _).
    eapply grows_trans; eassumption. }
  unfold cbind at 1. rewrite (Hpure R Hg1 Hc). rewrite cbind_lift.
  repeat case_match;
    try (apply lift_finished with (R := R) in Hrun as [_ Hrun]; exact Hrun).
  eapply Hafter; eassumption.
Qed.


End Pure.

Section Settled.

Import JS Engine Spec.
Context (rt : Runtime) (definitions : list ComputeDefinition)
        (context : EvaluationContext).
Hypothesis simple : forall key d,
  definitionMap definitions !! key = Some d -> simpleRefs rt (definition d).

Let dm := definitionMap definitions.

Lemma resolveComputed_fuel_settled fuel : forall key st,
  settled rt definitions context st ->
  (size dm < fuel + size (visiting st))%nat ->
  match resolveComputed_fuel rt definitions context fuel key st with
  | Normal (v, st') =>
      (settled rt definitions context st' /\ visiting st' = visiting st)
      /\ grows rt (computedValues st) (computedValues st')
      /\ v = lookup rt (VObject (computedValues st')) key
      /\ (has rt key (VObject (computedValues st')) = true \/ dm !! key = None)
  | Throw _ => True
  end.
Proof.
  induction fuel as [|fuel IH]; intros key st Hst Hsize.
  { destruct Hst as (Hsub & _). apply subseteq_size in Hsub.
    rewrite size_dom in Hsub. fold dm in Hsub. lia. }
  cbn [resolveComputed_fuel]. cbn [has_property is_object mbind outcome_bind].
  destruct (has rt key (VObject (computedValues st))) eqn:Hfound.
  { cbn. split; [split; [exact Hst|reflexivity]|].
    split; [apply grows_refl|]. split; [reflexivity|left; exact Hfound]. }
  fold dm. destruct (dm !! key) as [d|] eqn:Hd.
  2:{ split; [split; [exact Hst|reflexivity]|].
      split; [apply grows_refl|]. split; [|right; reflexivity].
      symmetry. apply lookup_has_false, Hfound. }
  destruct (bool_decide (key ∈ visiting st)) eqn:Hvis; [exact I|].
  apply bool_decide_eq_false in Hvis.
  destruct Hst as (Hsub & Hunset & Hgrows & Hclosed & Hfix).
  set (V := visiting st) in *.
  set (P := fun st1 => settled rt definitions context st1 /\ visiting st1 = {[key]} ∪ V).
  assert (Hkey : key ∈ dom dm) by (apply elem_of_dom; eauto).
  assert (Hsize' : (size dm < fuel + size ({[key]} ∪ V))%nat).
  { rewrite size_union, size_singleton by (apply disjoint_singleton_l, Hvis). lia. }
  assert (P_grows : forall st1, P st1 ->
            grows rt (computed context) (computedValues st1)).
  { intros st1 [(_ & _ & H & _) _]. exact H. }
  assert (rc_spec : forall key' st1, P st1 ->
            match resolveComputed_fuel rt definitions context fuel key' st1 with
            | Normal (v, st') =>
                P st'
                /\ grows rt (computedValues st1) (computedValues st')
                /\ v = lookup rt (VObject (computedValues st')) key'
                /\ (has rt key' (VObject (computedValues st')) = true
                    \/ definitionMap definitions !! key' = None)
            | Throw _ => True
            end).
  { intros key' st1 [Hs1 Hv1]. specialize (IH key' st1 Hs1).
    rewrite Hv1 in IH. specialize (IH Hsize').
    destruct (resolveComputed_fuel rt definitions context fuel key' st1)
      as [[v st2]|]; [|exact I].
    destruct IH as ([Hs2 Hv2] & Hg2 & Hval & Hhas).
    split; [split; [exact Hs2|congruence]|]. auto. }
  set (st0 := {| computedValues := computedValues st; visiting := {[key]} ∪ V |}).
  assert (HP0 : P st0).
  { split; [|reflexivity]. unfold settled. cbn.
    split. { apply union_subseteq. split; [apply singleton_subseteq_l, Hkey|exact Hsub]. }
    split. { intros k Hk. cbn in Hk |- *. apply elem_of_union in Hk as [Hk|Hk].
             - apply elem_of_singleton in Hk as ->. exact Hfound.
             - apply Hunset, Hk. }
    auto. }
  unfold evaluateComputeExpression.
  destruct (evaluateComputeExpression_fuel rt (S (depth (definition d)))
              (definition d) context (resolveComputed_fuel rt definitions context fuel)
              st0) as [[value st']|] eqn:Hrun; cbn; [|exact I].
  destruct (evaluate_grows rt definitions context _ P rc_spec _ _ _ _ _
              (Nat.lt_succ_diag_r _) HP0 Hrun) as [[Hs' Hv'] Hg'].
  destruct Hs' as (Hsub' & Hunset' & Hgrows' & Hclosed' & Hfix').
  assert (Hnew : has rt key (VObject (computedValues st')) = false).
  { apply Hunset'. rewrite Hv'. apply elem_of_union_l, elem_of_singleton. reflexivity. }
  pose proof (grows_assoc_set rt key value _ Hnew) as Hset.
  split; [split|].
  - unfold settled. cbn.
    split. { rewrite Hv'. intros k Hk. apply elem_of_difference in Hk as [Hk _].
             apply elem_of_union in Hk as [Hk|Hk]; [|apply Hsub, Hk].
             apply elem_of_singleton in Hk as ->. exact Hkey. }
    split. { intros k Hk. cbn in Hk |- *.
             apply elem_of_difference in Hk as [Hk Hne]. rewrite elem_of_singleton in Hne.
             rewrite has_assoc_set_ne by exact Hne. apply Hunset', Hk. }
    split. { eapply grows_trans; eassumption. }
    split. { intros k Hk. destruct (decide (k = key)) as [->|Hne].
             - right. eauto.
             - rewrite has_assoc_set_ne in Hk by exact Hne. apply Hclosed', Hk. }
    intros k R Hk Hfresh HgR HcR. destruct (decide (k = key)) as [->|Hne].
    + intros d' m Hd' Hm. fold dm in Hd'. rewrite Hd in Hd'. injection Hd' as <-.
      destruct (HgR key (has_assoc_set_eq rt key value _)) as [_ ->].
      rewrite lookup_assoc_set.
      apply (evaluate_pure rt definitions context _ P P_grows rc_spec _ _ _ _ _ _ _
               (Nat.lt_succ_diag_r _) HP0 (simple _ _ Hd) Hrun).
      * eapply grows_trans; eassumption.
      * exact HcR.
      * exact Hm.
    + rewrite has_assoc_set_ne in Hk by exact Hne.
      apply Hfix'; auto. eapply grows_trans; eassumption.
  - cbn. rewrite Hv'. apply set_eq. intros k.
    rewrite elem_of_difference, elem_of_union, elem_of_singleton. split.
    + intros [[->|Hk] Hne]; [exfalso; apply Hne; reflexivity|exact Hk].
    + intros Hk. split; [right; exact Hk|]. intros ->. exact (Hvis Hk).
  - cbn. split; [eapply grows_trans; eassumption|].
    split; [symmetry; apply lookup_assoc_set|left; apply has_assoc_set_eq].
Qed.

Lemma forEach_settled : forall items st,
  settled rt definitions context st -> visiting st = ∅ ->
  match forEach (fun d => resolveComputed rt definitions context (cd_key d)) items st with
  | Normal (_, st') => settled rt definitions context st' /\ visiting st' = ∅
  | Throw _ => True
  end.
Proof.
  induction items as [|d items IH]; intros st Hst Hvis; simpl; [auto|].
  unfold cbind at 1, resolveComputed.
  pose proof (resolveComputed_fuel_settled (S (size dm)) (cd_key d) st Hst) as Hd.
  rewrite Hvis, size_empty in Hd. specialize (Hd ltac:(lia)).
  fold dm.
  destruct (resolveComputed_fuel rt definitions context (S (size dm)) (cd_key d) st)
    as [[v st1]|]; [|exact I].
  destruct Hd as ([Hs1 Hv1] & _). apply IH; [exact Hs1|exact Hv1].
Qed.

Lemma computeDefinitions_settled result :
  computeDefinitions rt definitions context = Normal result ->
  settled rt definitions context (finished result).
Proof.
  unfold computeDefinitions. intros Hrun.
  set (st0 := {| computedValues := computed context; visiting := ∅ |}) in Hrun.
  assert (H0 : settled rt definitions context st0).
  { unfold settled. cbn.
    split; [apply empty_subseteq|].
    split; [intros k Hk; apply elem_of_empty in Hk as []|].
    split; [apply grows_refl|].
    split; [intros k Hk; left; exact Hk|].
    intros k R Hk Hfresh. congruence. }
  pose proof (forEach_settled definitions st0 H0 eq_refl) as H.
  destruct (forEach _ definitions st0) as [[u st]|]; [|discriminate].
  cbn in Hrun. injection Hrun as <-. destruct H as [Hs Hv].
  destruct st as [cv vis]. cbn in Hv. subst vis. exact Hs.
Qed.

End Settled.



Section Midpoint.

Import JS Engine Spec.
Context (rt : Runtime).

Lemma machineFloats_all : machineFloats (zrange 4320 0) = true.
Proof. vm_cast_no_check (eq_refl true). Qed.

Lemma halfwaySums_all : halfwaySums (zrange 1440 0) = true.
Proof. vm_cast_no_check (eq_refl true). Qed.

Lemma halfwayTexts_all : halfwayTexts (zrange 4320 0) = true.
Proof. vm_cast_no_check (eq_refl true). Qed.

Lemma machineFloats_spec table z :
  machineFloats table = true -> In z table -> Num.of_Z z = machineFloat z.
Proof.
  unfold machineFloats. intros H Hz. rewrite forallb_forall in H.
  apply FloatAxioms.Leibniz.eqb_spec, H, Hz.
Qed.

Lemma halfwaySums_spec table s e :
  halfwaySums table = true -> In s table -> In e table ->
  halfway (machineFloat s) (machineFloat e)
  = (machineFloat (2 * s + (e - s) mod 1440) / 2)%float.
Proof.
  unfold halfwaySums. intros H Hs He. rewrite forallb_forall in H.
  specialize (H s Hs). cbv zeta in H. rewrite forallb_forall in H.
  apply FloatAxioms.Leibniz.eqb_spec, H, He.
Qed.

Lemma halfwayTexts_spec table k :
  halfwayTexts table = true -> In k table ->
  formatMinutes (Num.rem (machineFloat k / 2) (24 * 60))
  = clockText true ((k / 2) mod 1440 / 60) ((k / 2) mod 1440 mod 60 + k mod 2).
Proof.
  unfold halfwayTexts. intros H Hk. rewrite forallb_forall in H.
  apply String.eqb_eq, (H k Hk).
Qed.

(** The midpoint of two times of day.  For clock texts [H:MM] or [HH:MM]
    with hours below 24 and minutes below 60, [midpointTime] gives the time
    half the gap after the start, the gap being the way forward from the
    start to the end (through midnight when the end is the earlier one), with
    the hour padded to two digits.  When the gap is an odd number of minutes
    the half minute is rounded up in the minute alone: the midpoint of 23:59
    and 0:00 is written ["23:60"]. *)
Theorem midpointTime_clock (p1 p2 : bool) (h1 m1 h2 m2 : Z) :
  0 <= h1 < 24 -> 0 <= m1 < 60 -> 0 <= h2 < 24 -> 0 <= m2 < 60 ->
  let gap := (h2 * 60 + m2 - (h1 * 60 + m1)) mod 1440 in
  let middle := (h1 * 60 + m1 + gap / 2) mod 1440 in
  midpointTime rt (VString (clockText p1 h1 m1)) (VString (clockText p2 h2 m2))
  = Normal (Some (clockText true (middle / 60) (middle mod 60 + gap mod 2))).
Proof.
  intros Hh1 Hm1 Hh2 Hm2 gap middle. unfold midpointTime.
  rewrite !(clockTexts_spec rt (zrange 100 0) (zrange 100 0) _ _ _ clockTexts_all)
    by (apply zrange_In; lia).
  cbn [mbind outcome_bind]. cbv zeta.
  set (s := h1 * 60 + m1) in *. set (e := h2 * 60 + m2) in *.
  change (Normal (Some (formatMinutes
            (Num.rem (halfway (Num.of_Z s) (Num.of_Z e)) (24 * 60))))
          = Normal (Some (clockText true (middle / 60) (middle mod 60 + gap mod 2)))).
  assert (Hs : 0 <= s < 1440) by (unfold s; lia).
  assert (He : 0 <= e < 1440) by (unfold e; lia).
  assert (Hgap : 0 <= gap < 1440) by (apply Z.mod_pos_bound; lia).
  rewrite !(machineFloats_spec _ _ machineFloats_all) by (apply zrange_In; lia).
  rewrite (halfwaySums_spec _ s e halfwaySums_all) by (apply zrange_In; lia).
  fold gap.
  rewrite (halfwayTexts_spec _ (2 * s + gap) halfwayTexts_all) by (apply zrange_In; lia).
  replace ((2 * s + gap) / 2) with (s + gap / 2)
    by (rewrite (Z.add_comm (2 * s)), (Z.mul_comm 2), Z.div_add by lia; lia).
  replace ((2 * s + gap) mod 2) with (gap mod 2)
    by (rewrite (Z.add_comm (2 * s)), (Z.mul_comm 2), Z.mod_add by lia; reflexivity).
  reflexivity.
Qed.

End Midpoint.

(** Half a minute after 23:59. *)
Lemma midpointTime_clock_witness :
  Engine.midpointTime Reference.runtime (VString "23:59") (VString "0:00")
  = Normal (Some "23:60").
Proof.
  exact (midpointTime_clock Reference.runtime true false 23 59 0 0
           ltac:(lia) ltac:(lia) ltac:(lia) ltac:(lia)).
Defined.

(** C2 and C10 at the failing input.  [key in computedValues] also holds of
    the names every object inherits, so a definition whose key is such a name
    is taken for computed before it is looked at: its expression is never
    evaluated, nothing is stored under its key, and a cycle through it goes
    unnoticed. *)
Lemma computeDefinitions_inherited_key_cycle :
  Engine.computeDefinitions Reference.runtime
    [{| cd_key := "constructor"; cd_type := "number";
        definition := VObject [("var", VString "computed.constructor")] |}]
    Examples.emptyContext
  = Normal [].
Proof. vm_compute. reflexivity. Qed.

Lemma computeDefinitions_inherited_key_skipped :
  Engine.computeDefinitions Reference.runtime
    [{| cd_key := "constructor"; cd_type := "number"; definition := VNumber 1 |}]
    Examples.emptyContext
  = Normal []
  /\ JS.assoc "constructor" [] = None.
Proof. vm_compute. auto. Qed.

(** The cycle of the specification's scenario, between ordinary keys, is
    reported. *)
Lemma computeDefinitions_cycle_reported :
  Engine.computeDefinitions Reference.runtime
    [{| cd_key := "a"; cd_type := "number";
        definition := VObject [("op", VString "add");
                               ("args", VArray [VObject [("var", VString "computed.b")];
                                                VNumber 1])] |};
     {| cd_key := "b"; cd_type := "number";
        definition := VObject [("op", VString "add");
                               ("args", VArray [VObject [("var", VString "computed.a")];
                                                VNumber 1])] |}]
    Examples.emptyContext
  = Throw (Error "Circular compute dependency detected for a").
Proof. vm_compute. reflexivity. Qed.
